(** * Learnline denoiser service: a shallow embedding and its properties

    The development follows [server/python/denoiser_service.py]:

    - [Bytes] and [Base64]: Python [bytes], and the standard library's
      [base64.b64encode] / [base64.b64decode] the service calls;
    - [IEEE]: binary32 samples and binary64 timings, on the Standard
      Library's [SpecFloat];
    - [Numpy]: the few array operations the service uses;
    - [Service]: [FacebookDenoiserService] and the [main] loop, with the
      pretrained model, the clock and the JSON parser as an explicit
      environment. *)

From Stdlib Require Import ZArith NArith Arith List Bool Lia.
From Stdlib Require Import Strings.String Strings.Ascii Strings.Byte.
From Stdlib Require Import DecimalString.
From Stdlib Require Import Floats.SpecFloat.
Import ListNotations.

Set Warnings "-register-all".

Local Open Scope Z_scope.

(** ** Python [bytes] *)

Module Bytes.

Definition bytes := list byte.

(** The value of a byte, 0..255. *)
Definition byte_val (b : byte) : Z := Z.of_N (Byte.to_N b).

(** Storing an integer into an [unsigned char]: the low eight bits. *)
Definition byte_of (z : Z) : byte :=
  match Byte.of_N (Z.to_N (z mod 256)) with
  | Some b => b
  | None => "000"%byte
  end.

Definition all_bytes : list byte :=
  List.map (fun n => byte_of (Z.of_nat n)) (seq 0 256).

End Bytes.

Import Bytes.

(** ** [base64.b64encode] and [base64.b64decode]

    Both belong to Python's standard library.  [b64encode] is RFC 4648
    with padding; [b64decode] is called with its default
    [validate=False], where [binascii.a2b_base64] skips every character
    outside the alphabet and stops at the padding that completes a
    quad. *)

Module Base64.

Definition BASE64_PAD : byte := "="%byte.

(** [table_b2a_base64]: the character of a six-bit value. *)
Definition table_b2a (v : Z) : byte :=
  if v <? 26 then byte_of (v + 65)
  else if v <? 52 then byte_of (v + 71)
  else if v <? 62 then byte_of (v - 4)
  else if v =? 62 then "+"%byte
  else "/"%byte.

(** [table_a2b_base64]: the six-bit value of a character of the
    alphabet, [None] for every other character. *)
Definition table_a2b (c : byte) : option Z :=
  let v := byte_val c in
  if (65 <=? v) && (v <=? 90) then Some (v - 65)
  else if (97 <=? v) && (v <=? 122) then Some (v - 71)
  else if (48 <=? v) && (v <=? 57) then Some (v + 4)
  else if v =? 43 then Some 62
  else if v =? 47 then Some 63
  else None.

Definition is_sextet (v : Z) : bool := (0 <=? v) && (v <? 64).

Definition sextet0 (x : byte) : Z := Z.shiftr (byte_val x) 2.
Definition sextet1 (x y : byte) : Z :=
  Z.lor (Z.shiftl (Z.land (byte_val x) 3) 4) (Z.shiftr (byte_val y) 4).
Definition sextet2 (y z : byte) : Z :=
  Z.lor (Z.shiftl (Z.land (byte_val y) 15) 2) (Z.shiftr (byte_val z) 6).
Definition sextet3 (z : byte) : Z := Z.land (byte_val z) 63.

(** [binascii.b2a_base64(data, newline=False)]. *)
Fixpoint b2a_base64 (data : bytes) : bytes :=
  match data with
  | [] => []
  | [x] =>
      [table_b2a (sextet0 x);
       table_b2a (Z.shiftl (Z.land (byte_val x) 3) 4);
       BASE64_PAD; BASE64_PAD]
  | [x; y] =>
      [table_b2a (sextet0 x); table_b2a (sextet1 x y);
       table_b2a (Z.shiftl (Z.land (byte_val y) 15) 2);
       BASE64_PAD]
  | x :: y :: z :: rest =>
      table_b2a (sextet0 x) :: table_b2a (sextet1 x y)
      :: table_b2a (sextet2 y z) :: table_b2a (sextet3 z)
      :: b2a_base64 rest
  end.

(** [binascii.Error], by the two messages the decoder can give. *)
Inductive binascii_error :=
| Incorrect_padding
| Stray_data_character (data_chars : nat).

Definition emit {E : Type} (b : byte) (r : E + bytes) : E + bytes :=
  match r with
  | inl e => inl e
  | inr out => inr (b :: out)
  end.

(** The scanning loop of [binascii.a2b_base64] in its non-strict mode.
    [quad_pos] counts the data characters of the current quad,
    [leftchar] holds the bits not yet written, [pads] the padding
    characters seen since the last data character, and [produced] the
    bytes written so far. *)
Fixpoint a2b_scan (ascii : bytes) (quad_pos : nat) (leftchar : Z)
         (pads produced : nat) : binascii_error + bytes :=
  match ascii with
  | [] =>
      match quad_pos with
      | O => inr []
      | 1%nat => inl (Stray_data_character (produced / 3 * 4 + 1))
      | _ => inl Incorrect_padding
      end
  | this_ch :: rest =>
      if Byte.eqb this_ch BASE64_PAD then
        if (2 <=? quad_pos)%nat then
          if (4 <=? quad_pos + S pads)%nat then inr []
          else a2b_scan rest quad_pos leftchar (S pads) produced
        else a2b_scan rest quad_pos leftchar pads produced
      else
        match table_a2b this_ch with
        | None => a2b_scan rest quad_pos leftchar pads produced
        | Some v =>
            match quad_pos with
            | O => a2b_scan rest 1 v 0 produced
            | 1%nat =>
                emit (byte_of (Z.lor (Z.shiftl leftchar 2) (Z.shiftr v 4)))
                     (a2b_scan rest 2 (Z.land v 15) 0 (S produced))
            | 2%nat =>
                emit (byte_of (Z.lor (Z.shiftl leftchar 4) (Z.shiftr v 2)))
                     (a2b_scan rest 3 (Z.land v 3) 0 (S produced))
            | _ =>
                emit (byte_of (Z.lor (Z.shiftl leftchar 6) v))
                     (a2b_scan rest 0 0 0 (S produced))
            end
        end
  end.

Definition a2b_base64 (ascii : bytes) : binascii_error + bytes :=
  a2b_scan ascii 0 0 0 0.

(** What [b64decode] raises. *)
Inductive decode_error :=
| Not_bytes_like (type_name : string)
| Not_ascii
| Binascii (e : binascii_error).

Definition is_ascii (s : string) : bool :=
  forallb (fun c => byte_val c <? 128) (list_byte_of_string s).

(** [base64.b64encode(data).decode('utf-8')]. *)
Definition b64encode_str (data : bytes) : string :=
  string_of_list_byte (b2a_base64 data).

(** [base64.b64decode(s)] on a [str]: [s.encode('ascii')], then
    [binascii.a2b_base64]. *)
Definition b64decode_str (s : string) : decode_error + bytes :=
  if is_ascii s then
    match a2b_base64 (list_byte_of_string s) with
    | inl e => inl (Binascii e)
    | inr out => inr out
    end
  else inl Not_ascii.

End Base64.

(** ** IEEE 754 numbers

    Samples are binary32 ([np.float32]); timings are binary64 (Python's
    [float]).  Arithmetic and comparison are those of [SpecFloat]:
    round to nearest, ties to even, with signed zeros, infinities and
    NaN. *)

Module IEEE.

(** *** binary32, as four little-endian bytes *)

Record float32 := F32 { byte0 : byte; byte1 : byte; byte2 : byte; byte3 : byte }.

Definition prec32 : Z := 24.
Definition emax32 : Z := 128.

Definition f32_bits (x : float32) : Z :=
  byte_val (byte0 x) + 256 * byte_val (byte1 x)
  + 65536 * byte_val (byte2 x) + 16777216 * byte_val (byte3 x).

Definition f32_of_bits (w : Z) : float32 :=
  F32 (byte_of w) (byte_of (w / 256)) (byte_of (w / 65536))
      (byte_of (w / 16777216)).

(** The value of a 32-bit pattern: sign, eight exponent bits, 23
    fraction bits. *)
Definition SF_of_bits32 (w : Z) : spec_float :=
  let s := 2147483648 <=? w in
  let e := (w / 8388608) mod 256 in
  let m := w mod 8388608 in
  if e =? 0 then
    match m with
    | Zpos p => S754_finite s p (-149)
    | _ => S754_zero s
    end
  else if e =? 255 then
    match m with
    | Z0 => S754_infinity s
    | _ => S754_nan
    end
  else
    match m + 8388608 with
    | Zpos p => S754_finite s p (e - 150)
    | _ => S754_nan
    end.

Definition sign_bit (s : bool) : Z := if s then 2147483648 else 0.

(** The pattern of a binary32 value.  [S754_nan] is the result of an
    invalid operation (inf / inf, 0 / 0), which the SSE unit of an
    x86-64 processor stores as the default NaN with its sign bit set,
    [ffc00000]. *)
Definition bits_of_SF32 (f : spec_float) : Z :=
  match f with
  | S754_zero s => sign_bit s
  | S754_infinity s => sign_bit s + 2139095040
  | S754_nan => 4290772992
  | S754_finite s m e =>
      if Zpos m <? 8388608 then sign_bit s + Zpos m
      else sign_bit s + (e + 150) * 8388608 + (Zpos m - 8388608)
  end.

Definition f32_val (x : float32) : spec_float := SF_of_bits32 (f32_bits x).
Definition f32_enc (f : spec_float) : float32 := f32_of_bits (bits_of_SF32 f).

Definition f32_zero : float32 := F32 "000" "000" "000" "000".

(** [1.0] *)
Definition one32 : spec_float := S754_finite false 8388608 (-23).

(** [x / d] in binary32, for a divisor that is not a NaN.  A sample
    that is a NaN comes back as itself with the quiet bit set. *)
Definition f32_div (x : float32) (d : spec_float) : float32 :=
  match f32_val x with
  | S754_nan => f32_of_bits (Z.lor (f32_bits x) 4194304)
  | v => f32_enc (SFdiv prec32 emax32 v d)
  end.

Definition is_finite (f : spec_float) : bool :=
  match f with S754_zero _ | S754_finite _ _ _ => true | _ => false end.

(** [-1.0 <= f <= 1.0] *)
Definition in_unit_range (f : spec_float) : bool :=
  SFleb (SFopp one32) f && SFleb f one32.

(** *** Rounding, in two steps *)

(** The second half of [binary_round_aux]: the rounded mantissa is
    normalised once more, then checked against the largest exponent. *)
Definition round_finish (prec emax : Z) (s : bool) (m e : Z) : spec_float :=
  let '(mrs, e') := shr_fexp prec emax m e loc_Exact in
  match shr_m mrs with
  | Z0 => S754_zero s
  | Zpos p => if e' <=? emax - prec then S754_finite s p e'
              else S754_infinity s
  | Zneg _ => S754_nan
  end.

(** The value [round_finish] gives for a mantissa of at most [prec]
    bits, or for [2 ^ prec]. *)
Definition rounded (prec emax : Z) (s : bool) (m e : Z) : spec_float :=
  if m =? 0 then S754_zero s
  else if m <? 2 ^ prec then
    if e <=? emax - prec then S754_finite s (Z.to_pos m) e
    else S754_infinity s
  else
    if e + 1 <=? emax - prec
    then S754_finite s (Z.to_pos (2 ^ (prec - 1))) (e + 1)
    else S754_infinity s.

(** Finite values compare as the pairs (exponent, mantissa). *)
Definition pair_le (e1 : Z) (m1 : positive) (e2 : Z) (m2 : positive) : Prop :=
  e1 < e2 \/ (e1 = e2 /\ Zpos m1 <= Zpos m2).

(** *** binary64 *)

Definition float64 := spec_float.

Definition prec64 : Z := 53.
Definition emax64 : Z := 1024.

Definition zero64 : float64 := S754_zero false.

(** Python's [int] to [float], rounded to nearest.  (An [int] beyond
    the binary64 range raises [OverflowError] instead; the only [int]
    converted here is the call counter.) *)
Definition float_of_int (z : Z) : float64 :=
  binary_normalize prec64 emax64 z 0 false.

Definition float_add (x y : float64) : float64 := SFadd prec64 emax64 x y.

(** [x / n] for a float [x] and an int [n]. *)
Definition float_div_int (x : float64) (n : Z) : float64 :=
  SFdiv prec64 emax64 x (float_of_int n).

(** The built-in [max(a, b)]: [b] when [b > a], else [a]. *)
Definition py_max (a b : float64) : float64 := if SFltb a b then b else a.

End IEEE.

Import IEEE.

(** ** numpy arrays and torch tensors of [float32] *)

Module Numpy.

Record ndarray := NdArray { shape : list nat; data : list float32 }.

Definition vector (xs : list float32) : ndarray :=
  NdArray [List.length xs] xs.

(** [a.tobytes()] *)
Definition tobytes (a : ndarray) : bytes :=
  flat_map (fun x => [byte0 x; byte1 x; byte2 x; byte3 x]) (data a).

Fixpoint words_of_bytes (buf : bytes) : option (list float32) :=
  match buf with
  | [] => Some []
  | b0 :: b1 :: b2 :: b3 :: rest =>
      option_map (cons (F32 b0 b1 b2 b3)) (words_of_bytes rest)
  | _ => None
  end.

(** [np.frombuffer(buf, dtype=np.float32)]: [None] stands for the
    [ValueError] raised when the size is not a multiple of four. *)
Definition frombuffer (buf : bytes) : option ndarray :=
  option_map vector (words_of_bytes buf).

(** [a.size] *)
Definition size (a : ndarray) : nat := List.length (data a).

(** [len(a)]: [None] stands for the [TypeError] of a 0-d array. *)
Definition np_len (a : ndarray) : option nat :=
  match shape a with
  | [] => None
  | n :: _ => Some n
  end.

Definition ndim (a : ndarray) : nat := List.length (shape a).

Definition prod (sh : list nat) : nat := fold_right Nat.mul 1%nat sh.

(** [np.maximum], which propagates NaN. *)
Definition np_maximum (x y : spec_float) : spec_float :=
  match SFcompare x y with
  | None => S754_nan
  | Some Lt => y
  | Some _ => x
  end.

(** [np.abs(a).max()]; [None] for the empty array, where numpy
    raises. *)
Definition abs_max (a : ndarray) : option spec_float :=
  match data a with
  | [] => None
  | x :: xs =>
      Some (fold_left (fun m y => np_maximum m (SFabs (f32_val y)))
                      xs (SFabs (f32_val x)))
  end.

(** [a / d] for a [float32] scalar [d]. *)
Definition divide (a : ndarray) (d : spec_float) : ndarray :=
  NdArray (shape a) (List.map (fun x => f32_div x d) (data a)).

(** [t.unsqueeze(0)] and [t.squeeze(0)] *)
Definition unsqueeze0 (t : ndarray) : ndarray :=
  NdArray (1%nat :: shape t) (data t).

Definition squeeze0 (t : ndarray) : ndarray :=
  match shape t with
  | 1%nat :: rest => NdArray rest (data t)
  | _ => t
  end.

(** [a[:n]]: the first [n] entries along the first axis. *)
Definition take (n : nat) (a : ndarray) : ndarray :=
  match shape a with
  | [] => a
  | d :: rest =>
      NdArray (Nat.min n d :: rest)
              (firstn (Nat.min n d * prod rest) (data a))
  end.

Fixpoint chunks (n row : nat) (xs : list float32) : list (list float32) :=
  match n with
  | O => []
  | S n' => firstn row xs :: chunks n' row (skipn row xs)
  end.

(** The data of [np.pad(a, (0, k))]: [k] zeros after the end of every
    axis. *)
Fixpoint pad_data (sh : list nat) (k : nat) (xs : list float32)
  : list float32 :=
  match sh with
  | [] => xs
  | n :: rest =>
      flat_map (pad_data rest k) (chunks n (prod rest) xs)
      ++ repeat f32_zero (k * prod (List.map (Nat.add k) rest))
  end.

Definition pad (a : ndarray) (k : nat) : ndarray :=
  NdArray (List.map (Nat.add k) (shape a)) (pad_data (shape a) k (data a)).

End Numpy.

Import Numpy.

(** ** The service *)

Module Service.

Local Open Scope string_scope.

(** *** Values *)

(** What [json.loads] returns.  The keys of an object are distinct; a
    [str] is given by its characters below 256, and [b64decode] treats
    every character from 128 on as not ASCII. *)
Inductive json :=
| JNull
| JBool (b : bool)
| JInt (z : Z)
| JFloat (f : float64)
| JStr (s : string)
| JList (l : list json)
| JObject (d : list (string * json)).

(** What the handlers put into a result [dict]. *)
Inductive pyval :=
| PNone
| PBool (b : bool)
| PInt (z : Z)
| PFloat (f : float64)
| PStr (s : string)
| PArray (a : ndarray)
| PDict (d : list (string * pyval)).

Definition dict := list (string * pyval).

Fixpoint lookup {V : Type} (k : string) (d : list (string * V)) : option V :=
  match d with
  | [] => None
  | (k', v) :: rest => if String.eqb k k' then Some v else lookup k rest
  end.

(** [d[k] = v] *)
Fixpoint dict_set (k : string) (v : pyval) (d : dict) : dict :=
  match d with
  | [] => [(k, v)]
  | (k', v') :: rest =>
      if String.eqb k k' then (k, v) :: rest
      else (k', v') :: dict_set k v rest
  end.

(** [command.get(k)], with [None] for a missing key. *)
Definition json_get (k : string) (d : list (string * json)) : json :=
  match lookup k d with
  | Some v => v
  | None => JNull
  end.

(** Truth value of a decoded JSON value, as [not v] tests it. *)
Definition truthy (v : json) : bool :=
  match v with
  | JNull => false
  | JBool b => b
  | JInt z => negb (Z.eqb z 0)
  | JFloat (S754_zero _) => false
  | JFloat _ => true
  | JStr s => negb (String.eqb s EmptyString)
  | JList l => match l with [] => false | _ => true end
  | JObject d => match d with [] => false | _ => true end
  end.

Definition type_name (v : json) : string :=
  match v with
  | JNull => "NoneType"
  | JBool _ => "bool"
  | JInt _ => "int"
  | JFloat _ => "float"
  | JStr _ => "str"
  | JList _ => "list"
  | JObject _ => "dict"
  end.

(** [json.dumps] raises [TypeError] on a numpy array, at any depth. *)
Fixpoint json_serializable (v : pyval) : bool :=
  match v with
  | PArray _ => false
  | PDict d => forallb (fun kv => json_serializable (snd kv)) d
  | _ => true
  end.

(** *** Exceptions *)

Inductive exn :=
| Loader_raised (msg : string)
| No_model_loadable (msg : string)
| Model_raised (msg : string)
| Len_of_unsized
| Decode_failed (e : Base64.decode_error)
| Buffer_size
| Not_serializable
| No_attribute (type_name attr : string)
| Line_raised (msg : string).

Definition decimal (n : nat) : string :=
  NilZero.string_of_uint (Nat.to_uint n).

(** [str(e)] *)
Definition exn_str (e : exn) : string :=
  match e with
  | Loader_raised msg => msg
  | No_model_loadable msg => "Failed to load any denoising model: " ++ msg
  | Model_raised msg => msg
  | Len_of_unsized => "len() of unsized object"
  | Decode_failed (Base64.Not_bytes_like ty) =>
      "argument should be a bytes-like object or ASCII string, not '"
      ++ ty ++ "'"
  | Decode_failed Base64.Not_ascii =>
      "string argument should contain only ASCII characters"
  | Decode_failed (Base64.Binascii Base64.Incorrect_padding) =>
      "Incorrect padding"
  | Decode_failed (Base64.Binascii (Base64.Stray_data_character n)) =>
      "Invalid base64-encoded string: number of data characters ("
      ++ decimal n ++ ") cannot be 1 more than a multiple of 4"
  | Buffer_size => "buffer size must be a multiple of element size"
  | Not_serializable => "Object of type ndarray is not JSON serializable"
  | No_attribute ty attr =>
      "'" ++ ty ++ "' object has no attribute '" ++ attr ++ "'"
  | Line_raised msg => msg
  end.

(** *** Session state *)

Record stats := Stats {
  total_processed : nat;
  total_time : float64;
  avg_time : float64;
  max_time : float64;
  errors : nat }.

(** A loaded model, known by [str(type(model))]. *)
Record model_handle := Model { type_repr : string }.

Record service := Svc {
  model : option model_handle;
  apply_model : bool;    (* the attribute is set *)
  device : string;
  sample_rate : Z;
  is_initialized : bool;
  processing_stats : stats }.

(** [FacebookDenoiserService()] *)
Definition new_service (cuda_available : bool) : service :=
  Svc None false (if cuda_available then "cuda" else "cpu") 16000 false
      (Stats 0 zero64 zero64 zero64 0).

Definition with_stats (s : service) (st : stats) : service :=
  Svc (model s) (apply_model s) (device s) (sample_rate s) (is_initialized s)
      st.

(** [self.processing_stats.copy()] *)
Definition stats_copy (st : stats) : pyval :=
  PDict [("total_processed", PInt (Z.of_nat (total_processed st)));
         ("total_time", PFloat (total_time st));
         ("avg_time", PFloat (avg_time st));
         ("max_time", PFloat (max_time st));
         ("errors", PInt (Z.of_nat (errors st)))].

(** *** The environment of one command

    Everything the handlers obtain from outside the program while
    they serve a command. *)

Inductive load_outcome :=
| Demucs_loaded (m : model_handle)
| Demucs_raises (msg : string)
| SpeechBrain_loaded (m : model_handle)
| SpeechBrain_raises (msg : string).

Inductive infer_outcome :=
| Raises (msg : string)
| Returns (t : ndarray).

Inductive memory_outcome :=
| Memory (rss_mb vms_mb cpu_percent : float64)
| Psutil_missing
| Memory_raises (msg : string).

Record world := World {
  (** the imports and the loader of [initialize_model]: Demucs, or
      SpeechBrain after an [ImportError] *)
  load : load_outcome;
  (** what [model.to(device)] or [model.eval()] raises, if anything *)
  placement : option string;
  (** [time.time() - start_time] in [initialize_model] *)
  init_time : float64;
  (** lines 137-152: the tensor goes to the device and through the
      model, by [apply_model] when the flag is set and by
      [enhance_batch] otherwise *)
  infer : model_handle -> bool -> ndarray -> infer_outcome;
  (** [(time.time() - start_time) * 1000] in [process_audio] *)
  elapsed_ms : float64;
  (** psutil, in [get_memory_usage] *)
  memory : memory_outcome }.

(** *** [initialize_model] *)

Definition contains (needle hay : string) : bool :=
  match index 0 needle hay with
  | Some _ => true
  | None => false
  end.

Definition init_failed (e : exn) : dict :=
  [("status", PStr "error");
   ("message", PStr ("Model initialization failed: " ++ exn_str e));
   ("error", PStr (exn_str e))].

Definition init_succeeded (s : service) (m : model_handle) (w : world) : dict :=
  [("status", PStr "success");
   ("message", PStr "Model initialized successfully");
   ("device", PStr (device s));
   ("model_type",
     PStr (if contains "dns64" (type_repr m) then "dns64"
           else "speechbrain_dns"));
   ("init_time", PFloat (init_time w))].

(** The model is stored as soon as it is loaded; the flag is set only
    after the model has been moved to the device and put in
    evaluation mode. *)
Definition place_model (s : service) (m : model_handle) (w : world)
  : dict * service :=
  match placement w with
  | Some msg => (init_failed (Loader_raised msg), s)
  | None =>
      (init_succeeded s m w,
       Svc (model s) (apply_model s) (device s) (sample_rate s) true
           (processing_stats s))
  end.

Definition initialize_model (s : service) (w : world) : dict * service :=
  match load w with
  | Demucs_loaded m =>
      place_model
        (Svc (Some m) true (device s) (sample_rate s) (is_initialized s)
             (processing_stats s))
        m w
  | Demucs_raises msg => (init_failed (Loader_raised msg), s)
  | SpeechBrain_loaded m =>
      place_model
        (Svc (Some m) (apply_model s) (device s) (sample_rate s)
             (is_initialized s)
             (processing_stats s))
        m w
  | SpeechBrain_raises msg => (init_failed (No_model_loadable msg), s)
  end.

(** *** [process_audio] *)

(** Lines 132-134. *)
Definition renormalize (audio_data : ndarray) : ndarray :=
  match abs_max audio_data with
  | Some m => if SFltb one32 m then divide audio_data m else audio_data
  | None => audio_data
  end.

(** Lines 139-143. *)
Definition to_tensor (a : ndarray) : ndarray :=
  match ndim a with
  | 1%nat => unsqueeze0 (unsqueeze0 a)
  | 2%nat => unsqueeze0 a
  | _ => a
  end.

(** Lines 155-160. *)
Definition from_tensor (t : ndarray) : ndarray :=
  let t := if (2 <? ndim t)%nat then squeeze0 t else t in
  if (1 <? ndim t)%nat then squeeze0 t else t.

(** Lines 163-168. *)
Definition match_length (denoised_audio audio_data : ndarray)
  : exn + ndarray :=
  match np_len denoised_audio, np_len audio_data with
  | Some ld, Some la =>
      if (ld =? la)%nat then inr denoised_audio
      else if (la <? ld)%nat then inr (take la denoised_audio)
      else inr (pad denoised_audio (la - ld))
  | _, _ => inl Len_of_unsized
  end.

(** Lines 137-168: the body of the [try] up to the statistics. *)
Definition denoise (s : service) (m : model_handle) (audio_data : ndarray)
           (w : world) : exn + ndarray :=
  match infer w m (apply_model s) (to_tensor audio_data) with
  | Raises msg => inl (Model_raised msg)
  | Returns t => match_length (from_tensor t) audio_data
  end.

(** Lines 173-176.  (The performance line of every 50th call goes to
    standard error, which is not part of the model.) *)
Definition record_success (st : stats) (processing_time : float64) : stats :=
  let n := S (total_processed st) in
  let t := float_add (total_time st) processing_time in
  Stats n t (float_div_int t (Z.of_nat n))
        (py_max (max_time st) processing_time) (errors st).

(** Line 194. *)
Definition record_error (st : stats) : stats :=
  Stats (total_processed st) (total_time st) (avg_time st) (max_time st)
        (S (errors st)).

Definition not_initialized : dict :=
  [("status", PStr "error"); ("message", PStr "Model not initialized");
   ("audio", PNone); ("processing_time", PInt 0)].

Definition empty_audio : dict :=
  [("status", PStr "error"); ("message", PStr "Empty audio data");
   ("audio", PNone); ("processing_time", PInt 0)].

Definition processing_failed (e : exn) (audio_data : ndarray)
           (processing_time : float64) : dict :=
  [("status", PStr "error");
   ("message", PStr ("Audio processing failed: " ++ exn_str e));
   ("audio", PArray audio_data);
   ("processing_time", PFloat processing_time);
   ("error", PStr (exn_str e))].

Definition processed (denoised_audio : ndarray) (processing_time : float64)
           (input_samples output_samples : nat) (st : stats) : dict :=
  [("status", PStr "success");
   ("audio", PArray denoised_audio);
   ("processing_time", PFloat processing_time);
   ("input_samples", PInt (Z.of_nat input_samples));
   ("output_samples", PInt (Z.of_nat output_samples));
   ("stats", stats_copy st)].

Definition process_audio (s : service) (audio_data : ndarray) (w : world)
  : dict * service :=
  match is_initialized s, model s with
  | true, Some m =>
      if (size audio_data =? 0)%nat then (empty_audio, s)
      else
        let audio_data := renormalize audio_data in
        let failed e :=
          (processing_failed e audio_data (elapsed_ms w),
           with_stats s (record_error (processing_stats s))) in
        match denoise s m audio_data w with
        | inl e => failed e
        | inr denoised_audio =>
            match np_len audio_data, np_len denoised_audio with
            | Some la, Some ld =>
                let st := record_success (processing_stats s) (elapsed_ms w) in
                (processed denoised_audio (elapsed_ms w) la ld st,
                 with_stats s st)
            | _, _ => failed Len_of_unsized
            end
        end
  | _, _ => (not_initialized, s)
  end.

(** *** [health_check] *)

Definition get_memory_usage (w : world) : pyval :=
  match memory w with
  | Memory rss vms cpu =>
      PDict [("rss_mb", PFloat rss); ("vms_mb", PFloat vms);
             ("cpu_percent", PFloat cpu)]
  | Psutil_missing => PDict [("error", PStr "psutil not available")]
  | Memory_raises msg => PDict [("error", PStr msg)]
  end.

Definition health_check (s : service) (w : world) : dict :=
  [("status", PStr (if is_initialized s then "healthy" else "not_initialized"));
   ("model_loaded", PBool (is_initialized s));
   ("device", PStr (device s));
   ("stats", stats_copy (processing_stats s));
   ("memory_usage", get_memory_usage w)].

(** *** [main] *)

(** What lines 241-245 do with a line: [json.loads(line.strip())]
    raises [JSONDecodeError], or reading and decoding the line raises
    another exception ([RecursionError] on deep nesting, the
    [ValueError] of the limit on the digits of an integer,
    [UnicodeDecodeError] in [readline]), or the line is decoded to a
    value.  Python's decoder accepts more than JSON: [NaN],
    [Infinity] and [-Infinity] are decoded to floats, and [strip()]
    removes white space that JSON does not know. *)
Inductive json_loads_result :=
| JSONDecodeError (msg : string)
| Loads_raises (msg : string)
| Loaded (command : json).

(** One line of standard input, with the environment of its command. *)
Record line := Line { parsed : json_loads_result; env : world }.

Definition no_audio : dict :=
  [("status", PStr "error"); ("message", PStr "No audio data provided")].

Definition codec_failed (e : exn) : dict :=
  [("status", PStr "error");
   ("message", PStr ("Audio decoding/encoding failed: " ++ exn_str e));
   ("error", PStr (exn_str e))].

Definition invalid_json (msg : string) : dict :=
  [("status", PStr "error"); ("message", PStr ("Invalid JSON: " ++ msg));
   ("error", PStr msg)].

Definition service_error (e : exn) : dict :=
  [("status", PStr "error");
   ("message", PStr ("Service error: " ++ exn_str e));
   ("error", PStr (exn_str e))].

(** Lines 263-265. *)
Definition decode_audio (audio_b64 : json) : exn + ndarray :=
  match audio_b64 with
  | JStr s =>
      match Base64.b64decode_str s with
      | inl e => inl (Decode_failed e)
      | inr audio_bytes =>
          match frombuffer audio_bytes with
          | Some audio_array => inr audio_array
          | None => inl Buffer_size
          end
      end
  | v => inl (Decode_failed (Base64.Not_bytes_like (type_name v)))
  end.

(** Lines 271-274. *)
Definition encode_result (process_result : dict) : exn + dict :=
  match lookup "status" process_result, lookup "audio" process_result with
  | Some (PStr status), Some audio =>
      if String.eqb status "success" then
        match audio with
        | PNone => inr process_result
        | PArray a =>
            inr (dict_set "audio" (PStr (Base64.b64encode_str (tobytes a)))
                          process_result)
        | PBool _ => inl (No_attribute "bool" "tobytes")
        | PInt _ => inl (No_attribute "int" "tobytes")
        | PFloat _ => inl (No_attribute "float" "tobytes")
        | PStr _ => inl (No_attribute "str" "tobytes")
        | PDict _ => inl (No_attribute "dict" "tobytes")
        end
      else inr process_result
  | _, _ => inr process_result
  end.

(** Lines 255-283. *)
Definition handle_process (s : service) (command : list (string * json))
           (w : world) : dict * service :=
  let audio_b64 := json_get "audio" command in
  if negb (truthy audio_b64) then (no_audio, s)
  else
    match decode_audio audio_b64 with
    | inl e => (codec_failed e, s)
    | inr audio_array =>
        let '(process_result, s') := process_audio s audio_array w in
        match encode_result process_result with
        | inl e => (codec_failed e, s')
        | inr result => (result, s')
        end
    end.

Definition is_command (name : string) (command_type : json) : bool :=
  match command_type with
  | JStr c => String.eqb c name
  | _ => false
  end.

Section Main.

(** The built-in [str()], which formats the value of an unknown
    command. *)
Variable py_str : json -> string.

Definition unknown_command (command_type : json) : dict :=
  [("status", PStr "error");
   ("message", PStr ("Unknown command: " ++ py_str command_type))].

(** Lines 247-293. *)
Definition dispatch (s : service) (command : json) (w : world)
  : exn + dict * service :=
  match command with
  | JObject d =>
      let command_type := json_get "command" d in
      if is_command "init" command_type then inr (initialize_model s w)
      else if is_command "process" command_type then
        inr (handle_process s d w)
      else if is_command "health" command_type then
        inr (health_check s w, s)
      else inr (unknown_command command_type, s)
  | v => inl (No_attribute (type_name v) "get")
  end.

(** One turn of the loop: the envelope written to standard output
    and the state after it. *)
Definition main_step (s : service) (l : line) : dict * service :=
  match parsed l with
  | JSONDecodeError msg => (invalid_json msg, s)
  | Loads_raises msg => (service_error (Line_raised msg), s)
  | Loaded command =>
      match dispatch s command (env l) with
      | inl e => (service_error e, s)
      | inr (result, s') =>
          if json_serializable (PDict result) then (result, s')
          else (service_error Not_serializable, s')
      end
  end.

(** The loop, over the lines read until end of input. *)
Fixpoint main_loop (s : service) (lines : list line)
  : list dict * service :=
  match lines with
  | [] => ([], s)
  | l :: rest =>
      let '(out, s') := main_step s l in
      let '(outs, s'') := main_loop s' rest in
      (out :: outs, s'')
  end.

Definition main (cuda_available : bool) (lines : list line)
  : list dict * service :=
  main_loop (new_service cuda_available) lines.

End Main.

End Service.

Import Service.

(** ** Vocabulary of the statements *)

Module Observe.

Local Open Scope string_scope.

Definition status (out : dict) : option pyval := lookup "status" out.
Definition message (out : dict) : option pyval := lookup "message" out.

Definition succeeded (out : dict) : bool :=
  match status out with
  | Some (PStr st) => String.eqb st "success"
  | _ => false
  end.

(** The command of a line, when the line is a JSON object. *)
Definition command_of (l : line) : option (list (string * json)) :=
  match parsed l with
  | Loaded (JObject d) => Some d
  | _ => None
  end.

Definition is_kind (kind : string) (l : line) : bool :=
  match command_of l with
  | Some d => is_command kind (json_get "command" d)
  | None => false
  end.

(** The two states of the session. *)
Inductive phase := Uninitialized | Ready.

Definition phase_of (s : service) : phase :=
  if is_initialized s then Ready else Uninitialized.

(** Two states with the same model, device and flag. *)
Definition same_model (s s' : service) : Prop :=
  model s' = model s /\ apply_model s' = apply_model s
  /\ device s' = device s /\ is_initialized s' = is_initialized s.

(** The request [{"command": kind}] and the request
    [{"command": "process", "audio": a}]. *)
Definition request (kind : string) (w : world) : line :=
  Line (Loaded (JObject [("command", JStr kind)])) w.

Definition process_request (a : string) (w : world) : line :=
  Line (Loaded (JObject [("command", JStr "process"); ("audio", JStr a)])) w.

(** A float32 buffer as the caller sends and reads it. *)
Definition encode_buffer (xs : list float32) : string :=
  Base64.b64encode_str (tobytes (vector xs)).

Definition decode_buffer (a : string) : exn + ndarray :=
  decode_audio (JStr a).

(** The model answers with [m] samples in one channel: a tensor of
    shape [m], [1, m] or [1, 1, m]. *)
Definition mono (t : ndarray) (ys : list float32) : Prop :=
  data t = ys
  /\ (shape t = [List.length ys] \/ shape t = [1%nat; List.length ys]
      \/ shape t = [1%nat; 1%nat; List.length ys]).

(** A sequence cut or zero-padded to [n] samples. *)
Definition fit (n : nat) (ys : list float32) : list float32 :=
  firstn n ys ++ repeat f32_zero (n - List.length ys).

Section Runs.
Variable py_str : json -> string.

(** The state after a run. *)
Definition run (s : service) (lines : list line) : service :=
  snd (main_loop py_str s lines).

(** The number of [process] commands of a run answered with
    status [success]. *)
Fixpoint successes (s : service) (lines : list line) : nat :=
  match lines with
  | [] => O
  | l :: rest =>
      let '(out, s') := main_step py_str s l in
      ((if is_kind "process" l && succeeded out then 1 else 0)
       + successes s' rest)%nat
  end.

(** The number of [init] commands of a run answered with status
    [success]. *)
Fixpoint inits (s : service) (lines : list line) : nat :=
  match lines with
  | [] => O
  | l :: rest =>
      let '(out, s') := main_step py_str s l in
      ((if is_kind "init" l && succeeded out then 1 else 0)
       + inits s' rest)%nat
  end.
End Runs.

(** The average is the total over the count, once there is a count. *)
Definition coherent (st : stats) : Prop :=
  match total_processed st with
  | O => avg_time st = zero64
  | S _ =>
      avg_time st
      = float_div_int (total_time st) (Z.of_nat (total_processed st))
  end.

(** The magnitude of a sample; samples that are numbers; samples in
    [-1, 1]; samples beyond. *)
Definition magnitude (x : float32) : spec_float := SFabs (f32_val x).

Definition finite_sample (x : float32) : Prop := is_finite (f32_val x) = true.

Definition within_unit (x : float32) : Prop := in_unit_range (f32_val x) = true.

Definition above_unit (x : float32) : Prop := SFltb one32 (magnitude x) = true.

(** The order of binary64 values, NaN apart. *)
Definition float_le (x y : float64) : Prop := SFleb x y = true.

(** A measured time that is a number, and not negative. *)
Definition sound_time (t : float64) : Prop :=
  valid_binary prec64 emax64 t = true /\ SFleb zero64 t = true.

End Observe.

Import Observe.

(** ** Sample environments *)

Module Samples.

Local Open Scope string_scope.

Definition str0 (v : json) : string := EmptyString.

Definition dns64 : model_handle := Model "<class 'dns64'>".

(** Binary64 values of small integers. *)
Definition ms (z : Z) : float64 := float_of_int z.

(** A world where everything works: the model loads and returns its
    input, and every timing is [t] milliseconds. *)
Definition calm (t : Z) : world :=
  World (Demucs_loaded dns64) None (ms t)
        (fun _ _ x => Returns x) (ms t) Psutil_missing.

(** A world where the model answers [t]. *)
Definition answering (t : ndarray) : world :=
  World (Demucs_loaded dns64) None (ms 1)
        (fun _ _ _ => Returns t) (ms 1) Psutil_missing.

(** A world where the model raises. *)
Definition failing : world :=
  World (Demucs_loaded dns64) None (ms 1)
        (fun _ _ _ => Raises "CUDA out of memory") (ms 1) Psutil_missing.

(** A world where no model can be loaded. *)
Definition unloadable : world :=
  World (SpeechBrain_raises "No module named 'speechbrain'") None (ms 1)
        (fun _ _ x => Returns x) (ms 1) Psutil_missing.

Definition ready : service :=
  snd (initialize_model (new_service false) (calm 1)).

(** 0.5, 2.0 and a NaN as float32 samples *)
Definition half32 : float32 := f32_of_bits 1056964608.
Definition two32 : float32 := f32_of_bits 1073741824.
Definition nan32 : float32 := f32_of_bits 2143289344.

End Samples.

(** ** Lines as texts

    What makes a text JSON (RFC 8259), beside what Python's decoder
    makes of it. *)

Module Text.

Local Open Scope string_scope.
Local Open Scope char_scope.

(** The white space of JSON: space, tab, line feed, carriage return. *)
Definition is_ws (c : ascii) : bool :=
  Ascii.eqb c " " || Ascii.eqb c "009" || Ascii.eqb c "010"
  || Ascii.eqb c "013".

Definition is_digit (c : ascii) : bool :=
  (48 <=? nat_of_ascii c)%nat && (nat_of_ascii c <=? 57)%nat.

Definition is_hex (c : ascii) : bool :=
  is_digit c
  || ((65 <=? nat_of_ascii c)%nat && (nat_of_ascii c <=? 70)%nat)
  || ((97 <=? nat_of_ascii c)%nat && (nat_of_ascii c <=? 102)%nat).

Fixpoint skip_ws (s : string) : string :=
  match s with
  | String c r => if is_ws c then skip_ws r else s
  | EmptyString => s
  end.

Fixpoint skip_digits (s : string) : string :=
  match s with
  | String c r => if is_digit c then skip_digits r else s
  | EmptyString => s
  end.

(** One digit or more. *)
Definition digits (s : string) : option string :=
  match s with
  | String c r => if is_digit c then Some (skip_digits r) else None
  | EmptyString => None
  end.

(** [name] at the head of [s]; what follows it. *)
Fixpoint eat (name s : string) : option string :=
  match name with
  | EmptyString => Some s
  | String a name' =>
      match s with
      | String b r => if Ascii.eqb a b then eat name' r else None
      | EmptyString => None
      end
  end.

(** number = [ minus ] int [ frac ] [ exp ] *)
Definition fraction (s : string) : option string :=
  match s with
  | String "." r => digits r
  | _ => Some s
  end.

Definition exponent (s : string) : option string :=
  match s with
  | String c r =>
      if Ascii.eqb c "e" || Ascii.eqb c "E" then
        match r with
        | String "+" r' | String "-" r' => digits r'
        | _ => digits r
        end
      else Some s
  | EmptyString => Some s
  end.

Definition number (s : string) : option string :=
  let s := match s with String "-" r => r | _ => s end in
  let int :=
    match s with
    | String "0" r => Some r
    | String c r => if is_digit c then Some (skip_digits r) else None
    | EmptyString => None
    end in
  match int with
  | Some r =>
      match fraction r with
      | Some r' => exponent r'
      | None => None
      end
  | None => None
  end.

(** The characters of a string after its opening quotation mark, up
    to the closing one. *)
Fixpoint chars (s : string) : option string :=
  match s with
  | EmptyString => None
  | String c r =>
      if Ascii.eqb c "034" then Some r
      else if Ascii.eqb c "\" then
        match r with
        | String "u" (String h1 (String h2 (String h3 (String h4 r')))) =>
            if is_hex h1 && is_hex h2 && is_hex h3 && is_hex h4
            then chars r' else None
        | String e r' =>
            if Ascii.eqb e "034" || Ascii.eqb e "\" || Ascii.eqb e "/"
               || Ascii.eqb e "b" || Ascii.eqb e "f" || Ascii.eqb e "n"
               || Ascii.eqb e "r" || Ascii.eqb e "t"
            then chars r' else None
        | EmptyString => None
        end
      else if (nat_of_ascii c <? 32)%nat then None
      else chars r
  end.

(** A value at the head of [s], the elements of an array after its
    bracket and the members of an object after its brace; what
    follows.  Every call spends one unit of [fuel]. *)
Fixpoint value (fuel : nat) (s : string) : option string :=
  match fuel with
  | O => None
  | S fuel =>
      match s with
      | String "{" r =>
          match skip_ws r with
          | String "}" r' => Some r'
          | r' => members fuel r'
          end
      | String "[" r =>
          match skip_ws r with
          | String "]" r' => Some r'
          | r' => elements fuel r'
          end
      | String "034" r => chars r
      | String "t" _ => eat "true" s
      | String "f" _ => eat "false" s
      | String "n" _ => eat "null" s
      | _ => number s
      end
  end
with elements (fuel : nat) (s : string) : option string :=
  match fuel with
  | O => None
  | S fuel =>
      match value fuel s with
      | Some r =>
          match skip_ws r with
          | String "," r' => elements fuel (skip_ws r')
          | String "]" r' => Some r'
          | _ => None
          end
      | None => None
      end
  end
with members (fuel : nat) (s : string) : option string :=
  match fuel with
  | O => None
  | S fuel =>
      match s with
      | String "034" r =>
          match option_map skip_ws (chars r) with
          | Some (String ":" r') =>
              match value fuel (skip_ws r') with
              | Some r'' =>
                  match skip_ws r'' with
                  | String "," r3 => members fuel (skip_ws r3)
                  | String "}" r3 => Some r3
                  | _ => None
                  end
              | None => None
              end
          | _ => None
          end
      | _ => None
      end
  end.

(** JSON-text = ws value ws.  Two units of fuel for every character
    are enough. *)
Definition valid_json (text : string) : bool :=
  match value (2 * String.length text + 2) (skip_ws text) with
  | Some r =>
      match skip_ws r with
      | EmptyString => true
      | _ => false
      end
  | None => false
  end.

(** What [json.loads] returns for the names its scanner knows
    ([json/scanner.py]): the three of JSON, and [NaN], [Infinity] and
    [-Infinity], which are not JSON. *)
Definition loads_name (text : string) : option json :=
  if String.eqb text "null" then Some JNull
  else if String.eqb text "true" then Some (JBool true)
  else if String.eqb text "false" then Some (JBool false)
  else if String.eqb text "NaN" then Some (JFloat S754_nan)
  else if String.eqb text "Infinity" then Some (JFloat (S754_infinity false))
  else if String.eqb text "-Infinity" then Some (JFloat (S754_infinity true))
  else None.

End Text.

(** ** Vocabulary of further statements *)

Module Tally.

Local Open Scope string_scope.

(** The characters [a2b_base64] reads: the alphabet and the padding. *)
Definition significant (c : byte) : bool :=
  Byte.eqb c Base64.BASE64_PAD
  || match Base64.table_a2b c with Some _ => true | None => false end.

(** A base64 text without its padding characters. *)
Definition unpadded (ascii : bytes) : bytes :=
  filter (fun c => negb (Byte.eqb c Base64.BASE64_PAD)) ascii.

(** An envelope written by the last handler of the loop (line 310). *)
Definition service_error_answer (out : dict) : bool :=
  match message out with
  | Some (PStr text) => prefix "Service error: " text
  | _ => false
  end.

(** The [process] commands among the lines. *)
Definition process_lines (lines : list line) : nat :=
  List.length (filter (is_kind "process") lines).

Section Counts.
Variable py_str : json -> string.

(** The number of [process] commands of a run answered with a
    ["Service error: ..."] envelope. *)
Fixpoint service_errors (s : service) (lines : list line) : nat :=
  match lines with
  | [] => O
  | l :: rest =>
      let '(out, s') := main_step py_str s l in
      ((if is_kind "process" l && service_error_answer out then 1 else 0)
       + service_errors s' rest)%nat
  end.

(** The processing times of the [process] commands of a run answered
    with status [success], in order. *)
Fixpoint served_times (s : service) (lines : list line) : list float64 :=
  match lines with
  | [] => []
  | l :: rest =>
      let '(out, s') := main_step py_str s l in
      ((if is_kind "process" l && succeeded out
        then [elapsed_ms (env l)] else [])
       ++ served_times s' rest)%list
  end.
End Counts.

(** The ways a [process] command ends, seen from the loop. *)
Inductive process_end (py_str : json -> string) (s : service) (l : line)
  : Prop :=
| Refused :
    snd (main_step py_str s l) = s ->
    status (fst (main_step py_str s l)) = Some (PStr "error") ->
    service_error_answer (fst (main_step py_str s l)) = false ->
    process_end py_str s l
| Failed :
    snd (main_step py_str s l)
    = with_stats s (record_error (processing_stats s)) ->
    fst (main_step py_str s l) = service_error Not_serializable ->
    process_end py_str s l
| Served (n : nat) (a : string) :
    snd (main_step py_str s l)
    = with_stats s (record_success (processing_stats s) (elapsed_ms (env l))) ->
    fst (main_step py_str s l)
    = [("status", PStr "success"); ("audio", PStr a);
       ("processing_time", PFloat (elapsed_ms (env l)));
       ("input_samples", PInt (Z.of_nat n));
       ("output_samples", PInt (Z.of_nat n));
       ("stats",
         stats_copy (record_success (processing_stats s) (elapsed_ms (env l))))] ->
    process_end py_str s l.

(** The status values the service writes. *)
Definition statuses : list string :=
  ["success"; "error"; "healthy"; "not_initialized"].

(** A number that is not NaN. *)
Definition a_number (t : float64) : Prop := t <> S754_nan.


(** A world where the model loads and cannot be moved to the device. *)
Definition unplaceable : world :=
  World (Demucs_loaded Samples.dns64) (Some "CUDA error: out of memory")
        (Samples.ms 1) (fun _ _ x => Returns x) (Samples.ms 1) Psutil_missing.

(** A world where only the SpeechBrain model loads. *)
Definition speechbrain : world :=
  World (SpeechBrain_loaded (Model "<class 'SpectralMaskEnhancement'>")) None
        (Samples.ms 1) (fun _ _ x => Returns x) (Samples.ms 1) Psutil_missing.

End Tally.

Import Tally.

(** ** The integration test runner, [test_integration.py] *)

Module Integration.

Local Open Scope string_scope.

(** What calling one test function does: it returns [True] or [False],
    or raises. *)
Inductive test_outcome :=
| Returns_true
| Returns_false
| Test_raises (msg : string).

(** Lines 135-144: the tests that count as passed. *)
Fixpoint count_passed (outcomes : list test_outcome) : nat :=
  match outcomes with
  | [] => O
  | Returns_true :: rest => S (count_passed rest)
  | _ :: rest => count_passed rest
  end.

(** Lines 149-154: the result written as JSON. *)
Definition report (passed total : nat) : dict :=
  if (passed =? total)%nat then
    [("status", PStr "success");
     ("message", PStr "All integration tests passed");
     ("tests_passed", PInt (Z.of_nat passed));
     ("tests_total", PInt (Z.of_nat total))]
  else
    [("status", PStr "warning");
     ("message",
       PStr ("Only " ++ decimal passed ++ "/" ++ decimal total
             ++ " tests passed"));
     ("tests_passed", PInt (Z.of_nat passed));
     ("tests_total", PInt (Z.of_nat total))].

(** [main], on the outcomes of its tests in order. *)
Definition run_tests (outcomes : list test_outcome) : dict :=
  report (count_passed outcomes) (List.length outcomes).

(** [main] with its three tests: imports, audio processing,
    communication protocol. *)
Definition test_main (imports audio protocol : test_outcome) : dict :=
  run_tests [imports; audio; protocol].

End Integration.

(** * Properties *)

Lemma byte_val_range (b : byte) : 0 <= byte_val b < 256.
Proof.
  unfold byte_val. pose proof (Byte.to_N_bounded b). lia.
Qed.

Lemma byte_of_val (b : byte) : byte_of (byte_val b) = b.
Proof.
  unfold byte_of. pose proof (byte_val_range b) as R.
  rewrite Z.mod_small by lia. unfold byte_val.
  rewrite N2Z.id, Byte.of_to_N. reflexivity.
Qed.

Lemma byte_val_of (z : Z) : byte_val (byte_of z) = z mod 256.
Proof.
  unfold byte_of, byte_val.
  pose proof (Z.mod_pos_bound z 256 ltac:(lia)) as R.
  destruct (Byte.of_N (Z.to_N (z mod 256))) as [b|] eqn:E.
  - apply Byte.to_of_N in E. rewrite E. lia.
  - apply Byte.of_N_None_iff in E. lia.
Qed.

Lemma in_all_bytes (b : byte) : In b all_bytes.
Proof.
  unfold all_bytes. apply in_map_iff.
  exists (Z.to_nat (byte_val b)). pose proof (byte_val_range b). split.
  - rewrite Z2Nat.id by lia. apply byte_of_val.
  - apply in_seq. lia.
Qed.

(** Exhaustive checks over bytes are run over [all_bytes]. *)
Lemma forall_bytes (P : byte -> bool) :
  forallb P all_bytes = true -> forall b, P b = true.
Proof.
  intros H b. rewrite forallb_forall in H. apply H, in_all_bytes.
Qed.

Lemma forall_bytes2 (P : byte -> byte -> bool) :
  forallb (fun x => forallb (P x) all_bytes) all_bytes = true ->
  forall x y, P x y = true.
Proof.
  intros H x y. apply forall_bytes with (P := P x).
  apply (forall_bytes _ H x).
Qed.

(** ** Base64 *)

Section Base64_roundtrip.
Import Base64.

(** A data character is never the padding character and decodes to
    the value it encodes. *)
Lemma table_a2b_b2a (v : Z) :
  is_sextet v = true ->
  Byte.eqb (table_b2a v) BASE64_PAD = false
  /\ table_a2b (table_b2a v) = Some v.
Proof.
  unfold is_sextet. intros H.
  assert (In v (List.map Z.of_nat (seq 0 64))) as Hin.
  { apply in_map_iff. exists (Z.to_nat v). split; [lia|]. apply in_seq. lia. }
  clear H. revert v Hin. apply Forall_forall.
  repeat (constructor; [split; vm_compute; reflexivity|]).
  constructor.
Qed.

Lemma sextets_range (x y : byte) :
  is_sextet (sextet0 x) && is_sextet (sextet1 x y)
  && is_sextet (sextet2 x y) && is_sextet (sextet3 x)
  && is_sextet (Z.shiftl (Z.land (byte_val x) 3) 4)
  && is_sextet (Z.shiftl (Z.land (byte_val x) 15) 2) = true.
Proof.
  revert x y. apply forall_bytes2. vm_compute. reflexivity.
Qed.

(** The three bytes of a quad, as the decoder reassembles them. *)
Lemma quad_byte0 (x y : byte) :
  Byte.eqb
    (byte_of (Z.lor (Z.shiftl (sextet0 x) 2) (Z.shiftr (sextet1 x y) 4))) x
  && (Z.land (sextet1 x y) 15 =? Z.shiftr (byte_val y) 4) = true.
Proof.
  revert x y. apply forall_bytes2. vm_compute. reflexivity.
Qed.

Lemma quad_byte1 (y z : byte) :
  Byte.eqb
    (byte_of (Z.lor (Z.shiftl (Z.shiftr (byte_val y) 4) 4)
                    (Z.shiftr (sextet2 y z) 2))) y
  && (Z.land (sextet2 y z) 3 =? Z.shiftr (byte_val z) 6) = true.
Proof.
  revert y z. apply forall_bytes2. vm_compute. reflexivity.
Qed.

Lemma quad_byte2 (z : byte) :
  Byte.eqb
    (byte_of (Z.lor (Z.shiftl (Z.shiftr (byte_val z) 6) 6) (sextet3 z))) z
  = true.
Proof.
  revert z. apply forall_bytes. vm_compute. reflexivity.
Qed.

(** The tails of one and of two bytes. *)
Lemma tail_byte1 (x : byte) :
  Byte.eqb
    (byte_of (Z.lor (Z.shiftl (sextet0 x) 2)
                    (Z.shiftr (Z.shiftl (Z.land (byte_val x) 3) 4) 4))) x
  = true.
Proof.
  revert x. apply forall_bytes. vm_compute. reflexivity.
Qed.

Lemma tail_byte2 (y : byte) :
  Byte.eqb
    (byte_of (Z.lor (Z.shiftl (Z.shiftr (byte_val y) 4) 4)
                    (Z.shiftr (Z.shiftl (Z.land (byte_val y) 15) 2) 2))) y
  = true.
Proof.
  revert y. apply forall_bytes. vm_compute. reflexivity.
Qed.

Lemma list_ind3 {A : Type} (P : list A -> Prop) :
  P [] -> (forall x, P [x]) -> (forall x y, P [x; y]) ->
  (forall x y z l, P l -> P (x :: y :: z :: l)) ->
  forall l, P l.
Proof.
  intros H0 H1 H2 H3.
  assert (forall l, P l /\ (forall x, P (x :: l))
                    /\ (forall x y, P (x :: y :: l))) as H.
  { induction l as [|a l (IH0 & IH1 & IH2)]; repeat split; auto. }
  intros l. apply H.
Qed.

Ltac sextet_facts x y :=
  let R := fresh "R" in
  pose proof (sextets_range x y) as R;
  do 5 (apply andb_prop in R; destruct R as [R ?]).

Ltac data_char v :=
  let Hp := fresh "Hp" in
  let Hv := fresh "Hv" in
  destruct (table_a2b_b2a v ltac:(assumption)) as [Hp Hv];
  rewrite Hp, Hv; clear Hp Hv.

(** Scanning the encoding of [data] from a quad boundary writes
    [data] back. *)
Lemma a2b_scan_b2a (data : bytes) :
  forall produced, a2b_scan (b2a_base64 data) 0 0 0 produced = inr data.
Proof.
  induction data as [|x|x y|x y z rest IH] using list_ind3; intros produced.
  - reflexivity.
  - sextet_facts x x. cbn [b2a_base64 a2b_scan].
    data_char (sextet0 x). data_char (Z.shiftl (Z.land (byte_val x) 3) 4).
    change (Byte.eqb BASE64_PAD BASE64_PAD) with true. cbn [Nat.leb Nat.add].
    rewrite (Byte.byte_dec_bl _ _ (tail_byte1 x)). reflexivity.
  - sextet_facts x y. sextet_facts y y. cbn [b2a_base64 a2b_scan].
    data_char (sextet0 x). data_char (sextet1 x y).
    data_char (Z.shiftl (Z.land (byte_val y) 15) 2).
    change (Byte.eqb BASE64_PAD BASE64_PAD) with true. cbn [Nat.leb Nat.add].
    pose proof (quad_byte0 x y) as Q. apply andb_prop in Q.
    destruct Q as [Q0 Q1]. apply Z.eqb_eq in Q1.
    rewrite (Byte.byte_dec_bl _ _ Q0), Q1.
    rewrite (Byte.byte_dec_bl _ _ (tail_byte2 y)). reflexivity.
  - sextet_facts x y. sextet_facts y z. sextet_facts z z.
    cbn [b2a_base64 a2b_scan].
    data_char (sextet0 x). data_char (sextet1 x y).
    data_char (sextet2 y z). data_char (sextet3 z).
    pose proof (quad_byte0 x y) as Q. apply andb_prop in Q.
    destruct Q as [Q0 Q1]. apply Z.eqb_eq in Q1.
    pose proof (quad_byte1 y z) as T. apply andb_prop in T.
    destruct T as [T0 T1]. apply Z.eqb_eq in T1.
    rewrite (Byte.byte_dec_bl _ _ Q0), Q1.
    rewrite (Byte.byte_dec_bl _ _ T0), T1.
    rewrite (Byte.byte_dec_bl _ _ (quad_byte2 z)).
    rewrite IH. reflexivity.
Qed.

Lemma b2a_is_ascii (data : bytes) :
  forallb (fun c => byte_val c <? 128) (b2a_base64 data) = true.
Proof.
  assert (forall v, is_sextet v = true -> (byte_val (table_b2a v) <? 128) = true) as A.
  { unfold is_sextet. intros v H.
    assert (In v (List.map Z.of_nat (seq 0 64))) as Hin.
    { apply in_map_iff. exists (Z.to_nat v). split; [lia|]. apply in_seq. lia. }
    clear H. revert v Hin. apply Forall_forall.
    repeat (constructor; [vm_compute; reflexivity|]). constructor. }
  induction data as [|x|x y|x y z rest IH] using list_ind3.
  - reflexivity.
  - sextet_facts x x. cbn [b2a_base64 forallb].
    rewrite !A by assumption. reflexivity.
  - sextet_facts x y. sextet_facts y y. cbn [b2a_base64 forallb].
    rewrite !A by assumption. reflexivity.
  - sextet_facts x y. sextet_facts y z. sextet_facts z z.
    cbn [b2a_base64 forallb]. rewrite !A by assumption. exact IH.
Qed.

(** [b64decode(b64encode(data))] is [data], for every byte string. *)
Lemma b64decode_b64encode (data : bytes) :
  b64decode_str (b64encode_str data) = inr data.
Proof.
  unfold b64decode_str, b64encode_str, is_ascii, a2b_base64.
  rewrite list_byte_of_string_of_list_byte, b2a_is_ascii, a2b_scan_b2a.
  reflexivity.
Qed.

End Base64_roundtrip.

(** ** The dispatcher *)

Section Dispatcher.
Local Open Scope string_scope.
Implicit Types (py_str : json -> string) (s : service) (w : world).

Lemma prefix_append (a b : string) : prefix a (a ++ b) = true.
Proof.
  induction a as [|c a IH]; cbn.
  - destruct b; reflexivity.
  - destruct (ascii_dec c c) as [_|N]; [exact IH | contradiction].
Qed.

Lemma main_loop_cons py_str (s : service) (l : line) (rest : list line) :
  main_loop py_str s (l :: rest)
  = (fst (main_step py_str s l)
       :: fst (main_loop py_str (snd (main_step py_str s l)) rest),
     snd (main_loop py_str (snd (main_step py_str s l)) rest)).
Proof.
  cbn [main_loop]. destruct (main_step py_str s l) as [out s'].
  cbn [fst snd]. destruct (main_loop py_str s' rest) as [outs s''].
  reflexivity.
Qed.

Lemma run_cons py_str (s : service) (l : line) (rest : list line) :
  run py_str s (l :: rest) = run py_str (snd (main_step py_str s l)) rest.
Proof. unfold run. rewrite main_loop_cons. reflexivity. Qed.

Lemma run_app py_str (s : service) (l1 l2 : list line) :
  run py_str s (l1 ++ l2)%list = run py_str (run py_str s l1) l2.
Proof.
  revert s. induction l1 as [|l l1 IH]; intros s.
  - reflexivity.
  - cbn [app]. rewrite !run_cons. apply IH.
Qed.

(** C6, as amended.  A line that [json.loads] rejects with
    [JSONDecodeError] is answered with an envelope of status [error]
    whose message begins with ["Invalid JSON: "]; a line on which
    reading or decoding raises any other exception is answered with
    an envelope of status [error] whose message is ["Service error: "]
    and the text of the exception.  In both cases the state is
    untouched and the loop goes on with the next line exactly as it
    would have without the bad line. *)
Theorem malformed_line_is_answered_and_skipped
        py_str (s : service) (msg : string) (w : world) (rest : list line) :
  (let out := invalid_json msg in
   main_loop py_str s (Line (JSONDecodeError msg) w :: rest)
   = (out :: fst (main_loop py_str s rest), snd (main_loop py_str s rest))
   /\ status out = Some (PStr "error")
   /\ (exists text, message out = Some (PStr text)
                    /\ prefix "Invalid JSON: " text = true))
  /\ (let out := service_error (Line_raised msg) in
      main_loop py_str s (Line (Loads_raises msg) w :: rest)
      = (out :: fst (main_loop py_str s rest), snd (main_loop py_str s rest))
      /\ status out = Some (PStr "error")
      /\ message out = Some (PStr ("Service error: " ++ msg))).
Proof.
  cbv zeta. split; (split; [|split]).
  - rewrite main_loop_cons. reflexivity.
  - reflexivity.
  - eexists. split; [reflexivity|]. apply prefix_append.
  - rewrite main_loop_cons. reflexivity.
  - reflexivity.
  - reflexivity.
Qed.

(** C6, as stated, fails: the line [NaN] is not valid JSON, yet
    [json.loads] decodes it to a float, and the loop answers what it
    answers to every value that is not an object, with no
    ["Invalid JSON: "] in the message. *)
Lemma line_that_is_not_json_is_decoded :
  let out := fst (main_step Samples.str0 Samples.ready
                            (Line (Loaded (JFloat S754_nan))
                                  (Samples.calm 1))) in
  Text.valid_json "NaN" = false
  /\ Text.loads_name "NaN" = Some (JFloat S754_nan)
  /\ status out = Some (PStr "error")
  /\ message out
     = Some (PStr "Service error: 'float' object has no attribute 'get'")
  /\ prefix "Invalid JSON: "
            "Service error: 'float' object has no attribute 'get'" = false.
Proof. cbv zeta. repeat split. Qed.

(** C10.  A [process] command whose [audio] is missing or empty is
    answered with exactly [{status: error, message: "No audio data
    provided"}], whatever the decoder and the model of the
    environment would have done, and the session state, statistics
    included, stays as it was. *)
Theorem process_without_audio
        py_str (s : service) (d : list (string * json)) (w : world) :
  is_command "process" (json_get "command" d) = true ->
  lookup "audio" d = None \/ lookup "audio" d = Some (JStr EmptyString) ->
  main_step py_str s (Line (Loaded (JObject d)) w)
  = ([("status", PStr "error"); ("message", PStr "No audio data provided")],
     s).
Proof.
  intros Hp Ha. unfold main_step, dispatch. cbn [parsed env].
  assert (is_command "init" (json_get "command" d) = false) as Hi.
  { destruct (json_get "command" d); try discriminate.
    cbn in *. apply String.eqb_eq in Hp. subst. reflexivity. }
  rewrite Hi, Hp. unfold handle_process, json_get.
  destruct Ha as [-> | ->]; reflexivity.
Qed.

Lemma process_without_audio_witness :
  main_step Samples.str0 (new_service false)
            (request "process" Samples.failing)
  = (no_audio, new_service false).
Proof.
  apply (process_without_audio Samples.str0 (new_service false)
           [("command", JStr "process")] Samples.failing).
  - reflexivity.
  - left. reflexivity.
Defined.

Lemma is_command_exclusive (a b : string) (c : json) :
  is_command a c = true -> a <> b -> is_command b c = false.
Proof.
  destruct c; try discriminate. cbn. intros H N.
  apply String.eqb_eq in H. subst. apply String.eqb_neq. congruence.
Qed.

Lemma dispatch_process py_str s (d : list (string * json)) w :
  is_command "process" (json_get "command" d) = true ->
  dispatch py_str s (JObject d) w = inr (handle_process s d w).
Proof.
  intros H. unfold dispatch.
  rewrite (is_command_exclusive "process" "init" _ H) by discriminate.
  rewrite H. reflexivity.
Qed.

Lemma dispatch_init py_str s (d : list (string * json)) w :
  is_command "init" (json_get "command" d) = true ->
  dispatch py_str s (JObject d) w = inr (initialize_model s w).
Proof. intros H. unfold dispatch. rewrite H. reflexivity. Qed.

(** What the loop writes for a [process] command. *)
Lemma main_step_process py_str s (d : list (string * json)) w :
  is_command "process" (json_get "command" d) = true ->
  main_step py_str s (Line (Loaded (JObject d)) w)
  = (if json_serializable (PDict (fst (handle_process s d w)))
     then fst (handle_process s d w)
     else service_error Not_serializable,
     snd (handle_process s d w)).
Proof.
  intros H. unfold main_step. cbn [parsed env].
  rewrite (dispatch_process _ _ _ _ H).
  destruct (handle_process s d w) as [r s']. cbn [fst snd].
  destruct (json_serializable (PDict r)); reflexivity.
Qed.

Lemma process_audio_uninitialized s (a : ndarray) w :
  is_initialized s = false -> process_audio s a w = (not_initialized, s).
Proof. intros H. unfold process_audio. rewrite H. reflexivity. Qed.

(** The handlers other than [initialize_model] never touch the model,
    the device or the flag. *)
Lemma same_model_refl s : same_model s s.
Proof. repeat split. Qed.

Lemma process_audio_same_model s (a : ndarray) w :
  same_model s (snd (process_audio s a w)).
Proof.
  unfold process_audio.
  destruct (is_initialized s); [|apply same_model_refl].
  destruct (model s) as [m|]; [|apply same_model_refl].
  destruct (size a =? 0)%nat; [apply same_model_refl|].
  destruct (denoise s m (renormalize a) w) as [e|t]; [repeat split|].
  destruct (np_len (renormalize a)); [|repeat split].
  destruct (np_len t); repeat split.
Qed.

Lemma handle_process_same_model s (d : list (string * json)) w :
  same_model s (snd (handle_process s d w)).
Proof.
  unfold handle_process.
  destruct (truthy (json_get "audio" d)); [|apply same_model_refl].
  destruct (decode_audio (json_get "audio" d)) as [e|a];
    [apply same_model_refl|].
  pose proof (process_audio_same_model s a w) as H.
  destruct (process_audio s a w) as [r s'].
  destruct (encode_result r); exact H.
Qed.

(** [initialize_model] answers [success] exactly when it sets the flag,
    and answers [error] without touching the flag. *)
Lemma initialize_model_flag s w :
  (succeeded (fst (initialize_model s w)) = true
   /\ is_initialized (snd (initialize_model s w)) = true)
  \/ (status (fst (initialize_model s w)) = Some (PStr "error")
      /\ is_initialized (snd (initialize_model s w)) = is_initialized s).
Proof.
  unfold initialize_model, place_model.
  destruct (load w); cbn [model apply_model device is_initialized];
    try (right; split; reflexivity);
    destruct (placement w); cbn; auto.
Qed.

Lemma main_step_same_model py_str s (l : line) :
  is_kind "init" l = false -> same_model s (snd (main_step py_str s l)).
Proof.
  unfold is_kind, command_of, main_step. destruct l as [p w]. cbn [parsed env].
  destruct p as [msg|msg|c]; [intros; apply same_model_refl..|].
  destruct c; try (intros; apply same_model_refl). intros H.
  unfold dispatch. rewrite H.
  destruct (is_command "process" (json_get "command" d)).
  - pose proof (handle_process_same_model s d w) as F.
    destruct (handle_process s d w) as [r s']. cbn [snd] in F.
    destruct (json_serializable (PDict r)); exact F.
  - destruct (is_command "health" (json_get "command" d));
      match goal with
      | |- context [json_serializable ?v] => destruct (json_serializable v)
      end; apply same_model_refl.
Qed.

Lemma main_step_not_init py_str s (l : line) :
  is_kind "init" l = false ->
  is_initialized (snd (main_step py_str s l)) = is_initialized s.
Proof. intros H. apply (main_step_same_model py_str s l H). Qed.

Lemma main_step_init py_str s (l : line) :
  is_kind "init" l = true ->
  main_step py_str s l = initialize_model s (env l).
Proof.
  unfold is_kind, command_of, main_step. destruct l as [p w]. cbn [parsed env].
  destruct p as [msg|msg|c]; [discriminate..|].
  destruct c; try discriminate. intros H.
  rewrite (dispatch_init _ _ _ _ H).
  assert (json_serializable (PDict (fst (initialize_model s w))) = true) as J.
  { unfold initialize_model, place_model.
    destruct (load w); try reflexivity; destruct (placement w); reflexivity. }
  destruct (initialize_model s w) as [r s']. cbn [fst] in J. rewrite J.
  reflexivity.
Qed.

(** C8.  The session is in one of two states, told apart by the
    flag.  A turn of the loop never leaves [Ready]; it leaves
    [Uninitialized] only on an [init] command answered [success]; an
    [init] answered [success] ends in [Ready], and an [init] answered
    [error] leaves the state, and the flag, as they were. *)
Theorem session_phases py_str s (l : line) :
  let out := fst (main_step py_str s l) in
  let s' := snd (main_step py_str s l) in
  (phase_of s = Ready -> phase_of s' = Ready)
  /\ (phase_of s = Uninitialized -> phase_of s' = Ready ->
      is_kind "init" l = true /\ succeeded out = true)
  /\ (is_kind "init" l = true -> succeeded out = true -> phase_of s' = Ready)
  /\ (is_kind "init" l = true -> status out = Some (PStr "error") ->
      phase_of s' = phase_of s /\ is_initialized s' = is_initialized s).
Proof.
  cbv zeta. unfold phase_of.
  destruct (is_kind "init" l) eqn:K.
  - rewrite (main_step_init _ _ _ K).
    destruct (initialize_model_flag s (env l)) as [[S F] | [S F]];
      rewrite F; unfold succeeded in *; rewrite ?S.
    + repeat split; auto;
        match goal with
        | E : status _ = Some (PStr "error") |- _ =>
            rewrite E in S; discriminate
        end.
    + destruct (is_initialized s); repeat split; auto; discriminate.
  - rewrite (main_step_not_init _ _ _ K).
    destruct (is_initialized s); repeat split; auto; discriminate.
Qed.

Lemma session_phases_witness :
  phase_of (new_service false) = Uninitialized
  /\ phase_of (snd (main_step Samples.str0 (new_service false)
                              (request "init" (Samples.calm 1)))) = Ready.
Proof.
  split; [reflexivity|].
  apply (session_phases Samples.str0 (new_service false)
           (request "init" (Samples.calm 1))); reflexivity.
Defined.

(** Once the flag is set there is a model: in every state a session
    reaches, [process_audio] passes its guard exactly when the session
    is [Ready]. *)
Lemma ready_has_model py_str (lines : list line) :
  forall s,
    (is_initialized s = true -> model s <> None) ->
    is_initialized (run py_str s lines) = true ->
    model (run py_str s lines) <> None.
Proof.
  induction lines as [|l rest IH]; intros s H.
  - exact H.
  - rewrite run_cons. apply IH.
    destruct (is_kind "init" l) eqn:K.
    + rewrite (main_step_init _ _ _ K).
      unfold initialize_model, place_model.
      destruct (load (env l)); try exact H;
        destruct (placement (env l)); cbn; intros; discriminate.
    + destruct (main_step_same_model py_str s l K) as (M & _ & _ & F).
      rewrite M, F. exact H.
Qed.

Lemma process_uninitialized py_str s (d : list (string * json)) w :
  is_initialized s = false ->
  is_command "process" (json_get "command" d) = true ->
  let audio := json_get "audio" d in
  let out := fst (main_step py_str s (Line (Loaded (JObject d)) w)) in
  let s' := snd (main_step py_str s (Line (Loaded (JObject d)) w)) in
  status out = Some (PStr "error")
  /\ s' = s
  /\ ((truthy audio = false /\ out = no_audio)
      \/ (truthy audio = true
          /\ exists e, decode_audio audio = inl e /\ out = codec_failed e)
      \/ (truthy audio = true
          /\ (exists a, decode_audio audio = inr a)
          /\ out = not_initialized
          /\ message out = Some (PStr "Model not initialized"))).
Proof.
  intros Hu Hp. cbv zeta. rewrite (main_step_process _ _ _ _ Hp).
  unfold handle_process.
  destruct (truthy (json_get "audio" d)) eqn:T; cbn [negb].
  - destruct (decode_audio (json_get "audio" d)) as [e|a] eqn:D.
    + cbn. repeat split. right. left. split; [reflexivity|].
      exists e. split; reflexivity.
    + rewrite (process_audio_uninitialized _ _ _ Hu). cbn.
      repeat split. right. right. repeat split. exists a. reflexivity.
  - cbn. repeat split. left. split; reflexivity.
Qed.

Lemma inits_cons py_str s (l : line) (rest : list line) :
  inits py_str s (l :: rest)
  = ((if is_kind "init" l && succeeded (fst (main_step py_str s l))
      then 1 else 0)
     + inits py_str (snd (main_step py_str s l)) rest)%nat.
Proof.
  cbn [inits]. destruct (main_step py_str s l). reflexivity.
Qed.

(** The flag stays unset as long as no [init] has been answered
    [success]. *)
Lemma uninitialized_without_init py_str (lines : list line) :
  forall s,
    is_initialized s = false -> inits py_str s lines = 0%nat ->
    is_initialized (run py_str s lines) = false.
Proof.
  induction lines as [|l rest IH]; intros s U Z.
  - exact U.
  - rewrite run_cons. rewrite inits_cons in Z. apply IH; [|lia].
    destruct (is_kind "init" l) eqn:K.
    + rewrite (main_step_init _ _ _ K) in *.
      destruct (initialize_model_flag s (env l)) as [[S F] | [S F]].
      * rewrite S in Z. cbn in Z. lia.
      * rewrite F. exact U.
    + rewrite (main_step_not_init _ _ _ K). exact U.
Qed.

(** C3, as amended.  A [process] command received before any [init]
    has been answered [success] is answered with status [error], and
    the whole session state, statistics included, is unchanged.  The
    message is ["Model not initialized"] when the audio reaches the
    handler, that is when it is present and decodes to a float32
    buffer; a missing or empty audio is answered ["No audio data
    provided"] and an undecodable one ["Audio decoding/encoding
    failed: ..."]. *)
Theorem process_before_init
        py_str (cuda_available : bool) (before : list line)
        (d : list (string * json)) w :
  inits py_str (new_service cuda_available) before = 0%nat ->
  is_command "process" (json_get "command" d) = true ->
  let s := run py_str (new_service cuda_available) before in
  let audio := json_get "audio" d in
  let out := fst (main_step py_str s (Line (Loaded (JObject d)) w)) in
  let s' := snd (main_step py_str s (Line (Loaded (JObject d)) w)) in
  status out = Some (PStr "error")
  /\ s' = s
  /\ ((truthy audio = false /\ out = no_audio)
      \/ (truthy audio = true
          /\ exists e, decode_audio audio = inl e /\ out = codec_failed e)
      \/ (truthy audio = true
          /\ (exists a, decode_audio audio = inr a)
          /\ out = not_initialized
          /\ message out = Some (PStr "Model not initialized"))).
Proof.
  intros Z Hp. apply process_uninitialized; [|exact Hp].
  apply uninitialized_without_init; [reflexivity | exact Z].
Qed.

Lemma process_before_init_witness :
  let before := [request "health" Samples.unloadable;
                 request "init" Samples.unloadable] in
  let s := run Samples.str0 (new_service false) before in
  let l := process_request "AAAAAA==" Samples.failing in
  fst (main_step Samples.str0 s l) = not_initialized
  /\ snd (main_step Samples.str0 s l) = s.
Proof.
  cbv zeta.
  destruct (process_before_init Samples.str0 false
              [request "health" Samples.unloadable;
               request "init" Samples.unloadable]
              [("command", JStr "process"); ("audio", JStr "AAAAAA==")]
              Samples.failing eq_refl eq_refl) as (_ & H2 & _).
  split; [reflexivity | exact H2].
Defined.

(** C3, as stated, fails: a [process] command without audio sent to a
    fresh service is answered ["No audio data provided"], not ["Model
    not initialized"]. *)
Lemma process_before_init_other_message :
  let s := run Samples.str0 (new_service false) [] in
  let out := fst (main_step Samples.str0 s (request "process" Samples.failing))
  in
  inits Samples.str0 (new_service false) [] = 0%nat
  /\ status out = Some (PStr "error")
  /\ message out = Some (PStr "No audio data provided")
  /\ message out <> Some (PStr "Model not initialized").
Proof.
  cbv zeta. repeat split. discriminate.
Qed.

End Dispatcher.

(** ** Audio buffers on the wire *)

Section Buffers.
Local Open Scope string_scope.
Implicit Types (py_str : json -> string) (s : service) (w : world).

Lemma frombuffer_tobytes (xs : list float32) :
  frombuffer (tobytes (vector xs)) = Some (vector xs).
Proof.
  unfold frombuffer, tobytes, vector. cbn [data].
  assert (words_of_bytes
            (flat_map (fun x => [byte0 x; byte1 x; byte2 x; byte3 x]) xs)
          = Some xs) as ->; [|reflexivity].
  induction xs as [|[b0 b1 b2 b3] xs IH]; [reflexivity|].
  cbn [flat_map app words_of_bytes byte0 byte1 byte2 byte3].
  rewrite IH. reflexivity.
Qed.

Lemma decode_encode_buffer (xs : list float32) :
  decode_buffer (encode_buffer xs) = inr (vector xs).
Proof.
  unfold decode_buffer, encode_buffer, decode_audio.
  rewrite b64decode_b64encode, frombuffer_tobytes. reflexivity.
Qed.

(** C7.  Decoding the base64 text of a float32 buffer gives the
    buffer back, byte for byte, the empty buffer included; the empty
    buffer travels as the empty string, and a [process] command that
    carries it is answered with an error envelope: by the loop in
    every state, and by [process_audio] itself when it is handed an
    empty array. *)
Theorem buffer_roundtrip :
  (forall xs : list float32,
      decode_buffer (encode_buffer xs) = inr (vector xs))
  /\ encode_buffer [] = EmptyString
  /\ (forall py_str s w,
         main_step py_str s (process_request (encode_buffer []) w)
         = (no_audio, s)
         /\ status no_audio = Some (PStr "error"))
  /\ (forall s w,
         status (fst (process_audio s (vector []) w)) = Some (PStr "error")
         /\ snd (process_audio s (vector []) w) = s).
Proof.
  split; [exact decode_encode_buffer|].
  split; [reflexivity|]. split.
  - intros py_str s w. split; reflexivity.
  - intros s w. unfold process_audio.
    destruct (is_initialized s); [|split; reflexivity].
    destruct (model s); split; reflexivity.
Qed.

(** *** Output length *)

Lemma renormalize_shape (a : ndarray) : shape (renormalize a) = shape a.
Proof.
  unfold renormalize. destruct (abs_max a) as [m|]; [|reflexivity].
  destruct (SFltb one32 m); reflexivity.
Qed.

Lemma renormalize_length (a : ndarray) :
  List.length (data (renormalize a)) = List.length (data a).
Proof.
  unfold renormalize. destruct (abs_max a) as [m|]; [|reflexivity].
  destruct (SFltb one32 m); [|reflexivity]. apply length_map.
Qed.

Lemma from_tensor_mono (t : ndarray) (ys : list float32) :
  mono t ys -> from_tensor t = vector ys.
Proof.
  intros [D S]. destruct t as [sh dat]. cbn in D, S. subst dat.
  destruct S as [-> | [-> | ->]]; reflexivity.
Qed.

Lemma pad_data_vector (k : nat) (ys : list float32) :
  pad_data [List.length ys] k ys = (ys ++ repeat f32_zero k)%list.
Proof.
  cbn [pad_data List.map prod fold_right]. rewrite Nat.mul_1_r. f_equal.
  clear. induction ys as [|y ys IH]; [reflexivity|].
  cbn [List.length chunks flat_map firstn skipn pad_data app].
  f_equal. exact IH.
Qed.

Lemma fit_length (n : nat) (ys : list float32) : List.length (fit n ys) = n.
Proof.
  unfold fit. rewrite length_app, length_firstn, repeat_length. lia.
Qed.

(** Lines 163-168 on one-dimensional arrays: the output is cut or
    zero-padded to the length of the input. *)
Lemma match_length_vector (ys : list float32) (a : ndarray) (n : nat) :
  np_len a = Some n ->
  match_length (vector ys) a = inr (vector (fit n ys)).
Proof.
  intros L. unfold match_length, vector at 1. cbn [np_len shape]. rewrite L.
  unfold fit. destruct (Nat.eqb_spec (List.length ys) n) as [E|N].
  - subst n. rewrite firstn_all, Nat.sub_diag, app_nil_r. reflexivity.
  - destruct (Nat.ltb_spec n (List.length ys)) as [Lt|Ge].
    + unfold take, vector. cbn [shape data prod fold_right].
      assert (n - List.length ys = 0)%nat as -> by lia.
      rewrite Nat.min_l, Nat.mul_1_r, app_nil_r by lia.
      rewrite length_firstn, Nat.min_l by lia. reflexivity.
    + unfold pad, vector. cbn [shape data List.map].
      rewrite pad_data_vector, firstn_all2 by lia.
      rewrite length_app, repeat_length.
      replace (n - List.length ys + List.length ys)%nat
        with (List.length ys + (n - List.length ys))%nat by lia.
      reflexivity.
Qed.

Lemma decode_buffer_empty : decode_buffer EmptyString = inr (vector []).
Proof. reflexivity. Qed.

(** X23.  A ready service receives a [process] command whose audio
    decodes to a non-empty buffer of [N] samples, and the model
    answers with a one-channel tensor [ys].  The command is answered
    with status [success], and the audio of the answer decodes to
    exactly [N] samples: the first [N] of [ys] when [ys] is longer,
    [ys] followed by zeros when it is shorter. *)
Theorem process_keeps_length
        py_str s (m : model_handle) (d : list (string * json)) w
        (a : string) (xs ys : list float32) (t : ndarray) :
  is_initialized s = true -> model s = Some m ->
  is_command "process" (json_get "command" d) = true ->
  json_get "audio" d = JStr a ->
  decode_buffer a = inr (vector xs) -> xs <> [] ->
  infer w m (apply_model s) (to_tensor (renormalize (vector xs))) = Returns t ->
  mono t ys ->
  let n := List.length xs in
  let out := fst (main_step py_str s (Line (Loaded (JObject d)) w)) in
  status out = Some (PStr "success")
  /\ (exists a' zs,
        lookup "audio" out = Some (PStr a')
        /\ decode_buffer a' = inr (vector zs)
        /\ List.length zs = n
        /\ ((n <= List.length ys)%nat -> zs = firstn n ys)
        /\ ((List.length ys <= n)%nat ->
            zs = (ys ++ repeat f32_zero (n - List.length ys))%list))
  /\ lookup "input_samples" out = Some (PInt (Z.of_nat n))
  /\ lookup "output_samples" out = Some (PInt (Z.of_nat n)).
Proof.
  intros Hi Hm Hp Ha Hd Hx Hinf Hmono. cbv zeta.
  rewrite (main_step_process _ _ _ _ Hp). unfold handle_process.
  rewrite Ha.
  assert (truthy (JStr a) = true) as ->.
  { destruct a; [|reflexivity]. rewrite decode_buffer_empty in Hd.
    unfold vector in Hd. injection Hd as _ E. symmetry in E. contradiction. }
  cbn [negb]. unfold decode_buffer in Hd. rewrite Hd.
  unfold process_audio. rewrite Hi, Hm.
  assert ((size (vector xs) =? 0)%nat = false) as ->.
  { destruct xs; [contradiction|reflexivity]. }
  unfold denoise. rewrite Hinf, (from_tensor_mono _ _ Hmono).
  assert (np_len (renormalize (vector xs)) = Some (List.length xs)) as L.
  { unfold np_len. rewrite renormalize_shape. reflexivity. }
  rewrite (match_length_vector _ _ _ L), L.
  cbn [np_len vector shape fst snd encode_result processed lookup].
  cbn [String.eqb Ascii.eqb Bool.eqb dict_set]. cbn [json_serializable].
  rewrite fit_length.
  split; [reflexivity|]. split; [|split; reflexivity].
  exists (Base64.b64encode_str (tobytes (vector (fit (List.length xs) ys)))),
    (fit (List.length xs) ys).
  split; [reflexivity|]. split; [apply decode_encode_buffer|].
  split; [apply fit_length|]. unfold fit. split; intros H.
  - assert (List.length xs - List.length ys = 0)%nat as -> by lia.
    apply app_nil_r.
  - rewrite firstn_all2 by lia. reflexivity.
Qed.

Lemma process_keeps_length_witness :
  let xs := [Samples.two32; Samples.half32] in
  let t := NdArray [1; 1; 3]%nat
                   [Samples.half32; Samples.half32; Samples.half32] in
  let out := fst (main_step Samples.str0 Samples.ready
                    (process_request (encode_buffer xs) (Samples.answering t)))
  in
  status out = Some (PStr "success")
  /\ lookup "output_samples" out = Some (PInt 2).
Proof.
  cbv zeta.
  destruct (process_keeps_length
              Samples.str0 Samples.ready Samples.dns64
              [("command", JStr "process");
               ("audio", JStr (encode_buffer [Samples.two32; Samples.half32]))]
              (Samples.answering
                 (NdArray [1; 1; 3]%nat
                    [Samples.half32; Samples.half32; Samples.half32]))
              (encode_buffer [Samples.two32; Samples.half32])
              [Samples.two32; Samples.half32]
              [Samples.half32; Samples.half32; Samples.half32]
              (NdArray [1; 1; 3]%nat
                 [Samples.half32; Samples.half32; Samples.half32])
              eq_refl eq_refl eq_refl eq_refl
              (decode_encode_buffer _)
              ltac:(discriminate) eq_refl
              (conj eq_refl (or_intror (or_intror eq_refl))))
    as (H1 & _ & _ & H2).
  split; [exact H1 | exact H2].
Defined.

(** C2 fails on the code.  The length fix of lines 162-168 compares
    and cuts along the first axis only, and [np.pad] with one pair of
    widths pads every axis.  A model output that keeps two axes after
    the two [squeeze(0)] (here the [batch, sources, channels, length]
    tensor of Demucs' [apply_model], of shape [1, 1, 1, 2], for a
    buffer of two samples) is answered with status [success] and
    [output_samples] 2, while the audio of the answer holds six
    samples. *)
Lemma four_axis_output_breaks_length :
  let xs := [Samples.half32; Samples.half32] in
  let t := NdArray [1; 1; 1; 2]%nat xs in
  let out := fst (main_step Samples.str0 Samples.ready
                    (process_request (encode_buffer xs) (Samples.answering t)))
  in
  status out = Some (PStr "success")
  /\ lookup "input_samples" out = Some (PInt 2)
  /\ lookup "output_samples" out = Some (PInt 2)
  /\ exists zs,
       lookup "audio" out = Some (PStr (encode_buffer zs))
       /\ decode_buffer (encode_buffer zs) = inr (vector zs)
       /\ zs = [Samples.half32; Samples.half32;
                f32_zero; f32_zero; f32_zero; f32_zero]
       /\ List.length zs = 6%nat.
Proof.
  cbv zeta. split; [reflexivity|]. split; [reflexivity|].
  split; [reflexivity|].
  exists [Samples.half32; Samples.half32;
          f32_zero; f32_zero; f32_zero; f32_zero].
  split; [reflexivity|]. split; [apply decode_encode_buffer|].
  split; reflexivity.
Qed.

(** *** Failures *)

Lemma renormalize_unscaled (a : ndarray) (m : spec_float) :
  abs_max a = Some m -> SFltb one32 m = false -> renormalize a = a.
Proof. intros A L. unfold renormalize. rewrite A, L. reflexivity. Qed.

(** C1, as amended.  On a ready service, a [process] command whose
    audio cannot be decoded (invalid base64, or a number of bytes that
    is not a multiple of four) is answered with status [error] and
    the message ["Audio decoding/encoding failed: ..."]; the answer
    carries neither audio nor elapsed time, and the state is
    unchanged.  Encoding never fails: whatever [process_audio]
    returns, lines 271-274 go through. *)
Theorem failed_process_answers
        py_str s (d : list (string * json)) w :
  is_initialized s = true ->
  is_command "process" (json_get "command" d) = true ->
  truthy (json_get "audio" d) = true ->
  (forall e, decode_audio (json_get "audio" d) = inl e ->
     let out := fst (main_step py_str s (Line (Loaded (JObject d)) w)) in
     out = codec_failed e
     /\ status out = Some (PStr "error")
     /\ (exists text, message out = Some (PStr text)
                      /\ prefix "Audio decoding/encoding failed: " text = true)
     /\ lookup "audio" out = None
     /\ lookup "processing_time" out = None
     /\ snd (main_step py_str s (Line (Loaded (JObject d)) w)) = s)
  /\ (forall a, exists r, encode_result (fst (process_audio s a w)) = inr r).
Proof.
  intros Hi Hp Ht. split.
  - intros e He. cbv zeta. rewrite (main_step_process _ _ _ _ Hp).
    unfold handle_process. rewrite Ht, He. cbn [negb fst snd].
    assert (json_serializable (PDict (codec_failed e)) = true) as ->
      by reflexivity.
    repeat split. eexists. split; [reflexivity|]. apply prefix_append.
  - intros a. unfold process_audio. rewrite Hi.
    destruct (model s) as [m|]; [|eexists; reflexivity].
    destruct (size a =? 0)%nat; [eexists; reflexivity|].
    destruct (denoise s m (renormalize a) w) as [e|t];
      [eexists; reflexivity|].
    destruct (np_len (renormalize a)); [|eexists; reflexivity].
    destruct (np_len t); eexists; reflexivity.
Qed.

Lemma failed_process_answers_witness :
  let l := process_request "AAAA" Samples.failing in
  fst (main_step Samples.str0 Samples.ready l) = codec_failed Buffer_size
  /\ snd (main_step Samples.str0 Samples.ready l) = Samples.ready.
Proof.
  cbv zeta.
  destruct (failed_process_answers
              Samples.str0 Samples.ready
              [("command", JStr "process"); ("audio", JStr "AAAA")]
              Samples.failing eq_refl eq_refl eq_refl) as [A _].
  destruct (A Buffer_size eq_refl) as (H1 & _ & _ & _ & _ & H2).
  split; [exact H1 | exact H2].
Defined.

(** C1, as stated, fails: on a ready service a [process] command with
    undecodable audio is answered without any audio and without an
    elapsed time. *)
Lemma failed_decoding_answer_has_no_audio :
  let out := fst (main_step Samples.str0 Samples.ready
                            (process_request "A" Samples.failing)) in
  is_initialized Samples.ready = true
  /\ (exists e, decode_buffer "A" = inl e)
  /\ status out = Some (PStr "error")
  /\ lookup "audio" out = None
  /\ lookup "processing_time" out = None.
Proof.
  cbv zeta. repeat split. eexists. reflexivity.
Qed.

(** What reaches the caller when the model raises: the result of
    [process_audio] holds a numpy array, [json.dumps] rejects it, and
    the loop writes a ["Service error: ..."] envelope without audio. *)
Lemma failed_inference_is_delivered_as_service_error :
  let out := fst (main_step Samples.str0 Samples.ready
                            (process_request "AAAAAA==" Samples.failing)) in
  out = service_error Not_serializable /\ lookup "audio" out = None.
Proof. split; reflexivity. Qed.

End Buffers.

(** ** Statistics *)

Section Statistics.
Local Open Scope string_scope.
Implicit Types (py_str : json -> string) (s : service) (w : world)
         (st : stats).

(** The three ways a call of [process_audio] ends. *)
Lemma process_audio_cases s (a : ndarray) w :
  let r := fst (process_audio s a w) in
  let s' := snd (process_audio s a w) in
  (s' = s /\ (r = not_initialized \/ r = empty_audio))
  \/ (s' = with_stats s (record_error (processing_stats s))
      /\ exists e, r = processing_failed e (renormalize a) (elapsed_ms w))
  \/ (s' = with_stats s (record_success (processing_stats s) (elapsed_ms w))
      /\ exists t la ld,
          r = processed t (elapsed_ms w) la ld
                (record_success (processing_stats s) (elapsed_ms w))).
Proof.
  cbv zeta. unfold process_audio.
  destruct (is_initialized s); [|left; auto].
  destruct (model s) as [m|]; [|left; auto].
  destruct (size a =? 0)%nat; [left; auto|].
  destruct (denoise s m (renormalize a) w) as [e|t].
  - right. left. split; [reflexivity|]. exists e. reflexivity.
  - destruct (np_len (renormalize a)) as [la|].
    + destruct (np_len t) as [ld|].
      * right. right. split; [reflexivity|]. exists t, la, ld. reflexivity.
      * right. left. split; [reflexivity|]. eexists. reflexivity.
    + right. left. split; [reflexivity|]. eexists. reflexivity.
Qed.

(** What a turn of the loop does to the statistics: a [process]
    command answered [success] records one success; every other turn
    leaves them alone or counts one error. *)
Lemma main_step_stats py_str s (l : line) :
  let out := fst (main_step py_str s l) in
  let st := processing_stats s in
  let st' := processing_stats (snd (main_step py_str s l)) in
  (is_kind "process" l = true /\ succeeded out = true
   /\ st' = record_success st (elapsed_ms (env l)))
  \/ (is_kind "process" l && succeeded out = false
      /\ (st' = st \/ st' = record_error st)).
Proof.
  cbv zeta. destruct (is_kind "init" l) eqn:Ki.
  { right.
    assert (is_kind "process" l = false) as ->.
    { unfold is_kind in *. destruct (command_of l); [|reflexivity].
      apply (is_command_exclusive "init" "process" _ Ki). discriminate. }
    split; [reflexivity|]. left. rewrite (main_step_init _ _ _ Ki).
    unfold initialize_model, place_model.
    destruct (load (env l)); try reflexivity;
      destruct (placement (env l)); reflexivity. }
  destruct (is_kind "process" l) eqn:Kp.
  - unfold is_kind, command_of in Kp. destruct l as [p w].
    cbn [parsed env] in *. destruct p as [| |c]; [discriminate..|].
    destruct c; try discriminate. rewrite (main_step_process _ _ _ _ Kp).
    unfold handle_process.
    destruct (truthy (json_get "audio" d)); [|right; cbn; auto].
    destruct (decode_audio (json_get "audio" d)) as [e|a]; [right; cbn; auto|].
    destruct (process_audio_cases s a w)
      as [[E [R|R]] | [[E [e R]] | [E (t & la & ld & R)]]];
      destruct (process_audio s a w) as [r s']; cbn [fst snd] in *;
      subst r s'; cbn; auto.
  - right. split; [reflexivity|]. left.
    unfold is_kind, command_of in *. unfold main_step.
    destruct l as [p w]. cbn [parsed env] in *.
    destruct p as [| |c]; [reflexivity..|]. destruct c; try reflexivity.
    unfold dispatch. rewrite Ki, Kp.
    destruct (is_command "health" (json_get "command" d));
      match goal with
      | |- context [json_serializable ?v] => destruct (json_serializable v)
      end; reflexivity.
Qed.

Lemma successes_cons py_str s (l : line) (rest : list line) :
  successes py_str s (l :: rest)
  = ((if is_kind "process" l && succeeded (fst (main_step py_str s l))
      then 1 else 0)
     + successes py_str (snd (main_step py_str s l)) rest)%nat.
Proof.
  cbn [successes]. destruct (main_step py_str s l). reflexivity.
Qed.

Lemma run_counts py_str (lines : list line) :
  forall s,
    coherent (processing_stats s) ->
    coherent (processing_stats (run py_str s lines))
    /\ total_processed (processing_stats (run py_str s lines))
       = (total_processed (processing_stats s)
          + successes py_str s lines)%nat.
Proof.
  induction lines as [|l rest IH]; intros s C.
  - cbn. split; [exact C | lia].
  - rewrite run_cons, successes_cons.
    destruct (main_step_stats py_str s l) as [(K & S & E) | (K & [E|E])].
    + rewrite K, S. cbn [andb].
      destruct (IH (snd (main_step py_str s l))) as [C' T].
      { rewrite E. unfold coherent. reflexivity. }
      split; [exact C'|]. rewrite T, E. cbn. lia.
    + rewrite K.
      destruct (IH (snd (main_step py_str s l))) as [C' T].
      { rewrite E. exact C. }
      split; [exact C'|]. rewrite T, E. lia.
    + rewrite K.
      destruct (IH (snd (main_step py_str s l))) as [C' T].
      { rewrite E. exact C. }
      split; [exact C'|]. rewrite T, E. cbn. lia.
Qed.

Lemma main_step_health py_str s w :
  main_step py_str s (request "health" w) = (health_check s w, s).
Proof.
  unfold main_step, request, dispatch, health_check, get_memory_usage.
  cbn [parsed env]. destruct (memory w); reflexivity.
Qed.

(** C4.  After a run with [k] successful [process] calls, and any
    number of other commands and failures, a [health] command reports
    [total_processed = k] and, for [k >= 1],
    [avg_time = total_time / k]; before the first success the average
    is [0.0]. *)
Theorem health_reports_successes
        py_str (cuda_available : bool) (lines : list line) w :
  let s := run py_str (new_service cuda_available) lines in
  let k := successes py_str (new_service cuda_available) lines in
  let out := fst (main_step py_str s (request "health" w)) in
  exists total avg mx (err : nat),
    lookup "stats" out
    = Some (PDict [("total_processed", PInt (Z.of_nat k));
                   ("total_time", PFloat total);
                   ("avg_time", PFloat avg);
                   ("max_time", PFloat mx);
                   ("errors", PInt (Z.of_nat err))])
    /\ ((0 < k)%nat -> avg = float_div_int total (Z.of_nat k))
    /\ (k = 0%nat -> avg = zero64).
Proof.
  cbv zeta.
  destruct (run_counts py_str lines (new_service cuda_available) eq_refl)
    as [C T].
  cbn [new_service processing_stats total_processed Nat.add] in T.
  set (s := run py_str (new_service cuda_available) lines) in *.
  exists (total_time (processing_stats s)), (avg_time (processing_stats s)),
    (max_time (processing_stats s)), (errors (processing_stats s)).
  rewrite main_step_health. split; [|split].
  - rewrite <- T. reflexivity.
  - intros K. unfold coherent in C. rewrite <- T.
    destruct (total_processed (processing_stats s)); [lia | exact C].
  - intros K. unfold coherent in C. rewrite <- T in K. rewrite K in C.
    exact C.
Qed.

Lemma health_reports_successes_witness :
  let lines := [request "init" (Samples.calm 3);
                process_request "AAAAAA==" (Samples.calm 10);
                process_request "AAAAAA==" Samples.failing;
                process_request "AAAAAA==" (Samples.calm 2)] in
  let s := run Samples.str0 (new_service false) lines in
  let out := fst (main_step Samples.str0 s (request "health" (Samples.calm 1)))
  in
  exists total avg mx (err : nat),
    lookup "stats" out
    = Some (PDict [("total_processed", PInt 2);
                   ("total_time", PFloat total);
                   ("avg_time", PFloat avg);
                   ("max_time", PFloat mx);
                   ("errors", PInt (Z.of_nat err))])
    /\ avg = float_div_int total 2.
Proof.
  cbv zeta.
  destruct (health_reports_successes
              Samples.str0 false
              [request "init" (Samples.calm 3);
               process_request "AAAAAA==" (Samples.calm 10);
               process_request "AAAAAA==" Samples.failing;
               process_request "AAAAAA==" (Samples.calm 2)]
              (Samples.calm 1))
    as (total & avg & mx & err & H1 & H2 & _).
  exists total, avg, mx, err. split; [exact H1|].
  apply H2. vm_compute. lia.
Defined.

End Statistics.

(** ** Rounding to nearest *)

Section Rounding.
Variables prec emax : Z.
Hypothesis Hprec : 0 < prec.

Lemma digits2_pos_bounds (p : positive) :
  2 ^ (Zpos (digits2_pos p) - 1) <= Zpos p < 2 ^ Zpos (digits2_pos p).
Proof.
  induction p as [p IH|p IH|]; cbn [digits2_pos].
  - rewrite Pos2Z.inj_succ, Z.pow_succ_r by lia.
    replace (Z.succ (Zpos (digits2_pos p)) - 1) with
      (Z.succ (Zpos (digits2_pos p) - 1)) by lia.
    rewrite Z.pow_succ_r by lia. lia.
  - rewrite Pos2Z.inj_succ, Z.pow_succ_r by lia.
    replace (Z.succ (Zpos (digits2_pos p)) - 1) with
      (Z.succ (Zpos (digits2_pos p) - 1)) by lia.
    rewrite Z.pow_succ_r by lia. lia.
  - cbn. lia.
Qed.

Lemma Zdigits2_bounds (m : Z) :
  0 < m -> 2 ^ (Zdigits2 m - 1) <= m < 2 ^ Zdigits2 m.
Proof.
  destruct m as [|p|p]; try lia. intros _. apply digits2_pos_bounds.
Qed.

Lemma Zdigits2_nonneg (m : Z) : 0 <= Zdigits2 m.
Proof. destruct m; cbn; lia. Qed.

Lemma Zdigits2_pos (m : Z) : 0 < m -> 0 < Zdigits2 m.
Proof. destruct m; cbn; lia. Qed.

Lemma Zdigits2_le (m k : Z) : 0 <= m < 2 ^ k -> 0 <= k -> Zdigits2 m <= k.
Proof.
  intros [L U] K. destruct (Z.eq_dec m 0) as [->|N]; [cbn; lia|].
  destruct (Zdigits2_bounds m ltac:(lia)) as [B _].
  destruct (Z_le_gt_dec (Zdigits2 m) k) as [|G]; [assumption|].
  assert (2 ^ k <= 2 ^ (Zdigits2 m - 1)) by (apply Z.pow_le_mono_r; lia).
  lia.
Qed.

Lemma Zdigits2_ge (m k : Z) : 2 ^ (k - 1) <= m -> 0 < k -> k <= Zdigits2 m.
Proof.
  intros L K.
  assert (0 < 2 ^ (k - 1)) by (apply Z.pow_pos_nonneg; lia).
  destruct (Zdigits2_bounds m ltac:(lia)) as [_ B].
  destruct (Z_le_gt_dec k (Zdigits2 m)) as [|G]; [assumption|].
  assert (2 ^ Zdigits2 m <= 2 ^ (k - 1)).
  { apply Z.pow_le_mono_r; [lia|]. lia. }
  lia.
Qed.

Lemma shr_1_m (r : shr_record) :
  0 <= shr_m r -> shr_m (shr_1 r) = shr_m r / 2.
Proof.
  destruct r as [m b c]. cbn [shr_m]. intros H.
  rewrite <- Z.div2_div.
  destruct m as [|[p|p|]|p]; try reflexivity; lia.
Qed.

Lemma iter_shr_1_m (p : positive) :
  forall r, 0 <= shr_m r ->
            shr_m (iter_pos shr_1 p r) = shr_m r / 2 ^ Zpos p.
Proof.
  induction p as [p IH|p IH|]; intros r H; cbn [iter_pos].
  - assert (0 <= shr_m (shr_1 r)) as H1.
    { rewrite shr_1_m by assumption. apply Z.div_pos; lia. }
    assert (0 <= shr_m (iter_pos shr_1 p (shr_1 r))) as H2.
    { rewrite IH by assumption. apply Z.div_pos; [lia|].
      apply Z.pow_pos_nonneg; lia. }
    rewrite IH, IH, shr_1_m by assumption.
    assert (0 < 2 ^ Zpos p) by (apply Z.pow_pos_nonneg; lia).
    rewrite !Z.div_div by lia. f_equal.
    rewrite (Pos2Z.inj_xI p).
    rewrite (Z.pow_add_r 2 (2 * Z.pos p) 1) by lia.
    rewrite Z.pow_twice_r. lia.
  - assert (0 <= shr_m (iter_pos shr_1 p r)) as H2.
    { rewrite IH by assumption. apply Z.div_pos; [lia|].
      apply Z.pow_pos_nonneg; lia. }
    rewrite IH, IH by assumption.
    assert (0 < 2 ^ Zpos p) by (apply Z.pow_pos_nonneg; lia).
    rewrite !Z.div_div by lia. f_equal.
    rewrite (Pos2Z.inj_xO p), Z.pow_twice_r. reflexivity.
  - apply shr_1_m. assumption.
Qed.

Lemma shr_m_of_loc (m : Z) (l : location) : shr_m (shr_record_of_loc m l) = m.
Proof. destruct l as [|[]]; reflexivity. Qed.

Lemma shr_fexp_spec (m e : Z) (l : location) :
  0 <= m ->
  let e1 := Z.max e (fexp prec emax (Zdigits2 m + e)) in
  snd (shr_fexp prec emax m e l) = e1
  /\ shr_m (fst (shr_fexp prec emax m e l)) = m / 2 ^ (e1 - e).
Proof.
  intros H e1. unfold shr_fexp, shr. subst e1.
  destruct (fexp prec emax (Zdigits2 m + e) - e) as [|p|p] eqn:E;
    cbn [fst snd].
  - rewrite Z.max_l by lia. rewrite Z.sub_diag, Z.div_1_r.
    split; [reflexivity | apply shr_m_of_loc].
  - rewrite Z.max_r by lia.
    rewrite iter_shr_1_m by (rewrite shr_m_of_loc; assumption).
    rewrite shr_m_of_loc, E. split; [lia | reflexivity].
  - rewrite Z.max_l by lia. rewrite Z.sub_diag, Z.div_1_r.
    split; [reflexivity | apply shr_m_of_loc].
Qed.

Lemma round_nearest_even_range (m : Z) (l : location) :
  m <= round_nearest_even m l <= m + 1.
Proof.
  destruct l as [|[]]; cbn; try lia. destruct (Z.even m); lia.
Qed.

Lemma binary_round_aux_finish (s : bool) (m e : Z) (l : location) :
  binary_round_aux prec emax s m e l
  = round_finish prec emax s
      (round_nearest_even (shr_m (fst (shr_fexp prec emax m e l)))
                          (loc_of_shr_record (fst (shr_fexp prec emax m e l))))
      (snd (shr_fexp prec emax m e l)).
Proof.
  unfold binary_round_aux, round_finish.
  destruct (shr_fexp prec emax m e l) as [mrs e']. reflexivity.
Qed.

Lemma fexp_ge_emin (e : Z) : SpecFloat.emin prec emax <= fexp prec emax e.
Proof. unfold fexp. lia. Qed.

Lemma fexp_mono (a b : Z) : a <= b -> fexp prec emax a <= fexp prec emax b.
Proof. unfold fexp. lia. Qed.

Lemma round_finish_rounded (s : bool) (m e : Z) :
  0 <= m <= 2 ^ prec -> SpecFloat.emin prec emax <= e ->
  round_finish prec emax s m e = rounded prec emax s m e.
Proof.
  intros [L U] E. unfold round_finish, rounded.
  pose proof (shr_fexp_spec m e loc_Exact L) as [S1 S2]. cbv zeta in S1, S2.
  destruct (shr_fexp prec emax m e loc_Exact) as [mrs e']. cbn [fst snd] in *.
  rewrite <- S1 in S2.
  assert (0 < 2 ^ prec) as Pp by (apply Z.pow_pos_nonneg; lia).
  destruct (Z.eqb_spec m 0) as [->|N].
  - rewrite Z.div_0_l in S2 by (apply Z.pow_nonzero; lia).
    rewrite S2. reflexivity.
  - destruct (Z.ltb_spec m (2 ^ prec)) as [Lt|Ge].
    + assert (Zdigits2 m <= prec) as D by (apply Zdigits2_le; lia).
      assert (e' = e) as -> by (unfold fexp in S1; lia).
      rewrite Z.sub_diag, Z.div_1_r in S2. rewrite S2.
      destruct m as [|p|p]; try lia. reflexivity.
    + assert (m = 2 ^ prec) as -> by lia.
      assert (Zdigits2 (2 ^ prec) = prec + 1) as D.
      { apply Z.le_antisymm.
        - apply Zdigits2_le; [|lia]. split; [lia|].
          apply Z.pow_lt_mono_r; lia.
        - apply Zdigits2_ge; [|lia].
          replace (prec + 1 - 1) with prec by lia. lia. }
      rewrite D in S1. assert (e' = e + 1) as -> by (unfold fexp in S1; lia).
      replace (e + 1 - e) with 1 in S2 by lia.
      rewrite Z.pow_1_r in S2.
      replace prec with (Z.succ (prec - 1)) in S2 at 1 by lia.
      rewrite Z.pow_succ_r in S2 by lia.
      rewrite Z.mul_comm, Z.div_mul in S2 by lia.
      assert (0 < 2 ^ (prec - 1)) as Pq by (apply Z.pow_pos_nonneg; lia).
      rewrite S2. destruct (2 ^ (prec - 1)) as [|q|q]; try lia. reflexivity.
Qed.

(** The result of [binary_round_aux] on a non-negative mantissa: the
    mantissa is shifted to the exponent [e1] of its format, rounded to
    [m2], one of the two neighbours, and normalised. *)
Lemma binary_round_aux_rounded (s : bool) (m e : Z) (l : location) :
  0 <= m ->
  let e1 := Z.max e (fexp prec emax (Zdigits2 m + e)) in
  let m1 := m / 2 ^ (e1 - e) in
  exists m2,
    m1 <= m2 <= m1 + 1 /\ m2 <= 2 ^ prec
    /\ binary_round_aux prec emax s m e l = rounded prec emax s m2 e1.
Proof.
  intros M e1 m1. rewrite binary_round_aux_finish.
  pose proof (shr_fexp_spec m e l M) as [S1 S2]. cbv zeta in S1, S2.
  fold e1 in S1, S2. fold m1 in S2. rewrite S1, S2.
  pose proof (round_nearest_even_range m1
                (loc_of_shr_record (fst (shr_fexp prec emax m e l)))) as R.
  set (m2 := round_nearest_even m1 _) in *.
  assert (0 <= e1 - e) as K by (subst e1; lia).
  assert (0 < 2 ^ (e1 - e)) as P2 by (apply Z.pow_pos_nonneg; lia).
  assert (0 <= m1) as M1 by (apply Z.div_pos; lia).
  assert (m1 < 2 ^ prec) as U.
  { subst m1. apply Z.div_lt_upper_bound; [lia|].
    rewrite <- Z.pow_add_r by lia.
    destruct (Z.eq_dec m 0) as [->|N]; [apply Z.pow_pos_nonneg; lia|].
    destruct (Zdigits2_bounds m ltac:(lia)) as [_ B].
    eapply Z.lt_le_trans; [exact B|].
    apply Z.pow_le_mono_r; [lia|]. subst e1. unfold fexp. lia. }
  exists m2. split; [exact R|]. split; [lia|].
  apply round_finish_rounded; [lia|].
  subst e1. pose proof (fexp_ge_emin (Zdigits2 m + e)). lia.
Qed.

(** With enough digits for its exponent, the mantissa is rounded to a
    value of the format. *)
Lemma binary_round_aux_valid (s : bool) (m e : Z) (l : location) :
  0 <= m -> e <= fexp prec emax (Zdigits2 m + e) ->
  valid_binary prec emax (binary_round_aux prec emax s m e l) = true.
Proof.
  intros M H.
  destruct (binary_round_aux_rounded s m e l ltac:(lia))
    as (m2 & R & U & ->).
  cbv zeta in R. rewrite Z.max_r in * by lia.
  set (e1 := fexp prec emax (Zdigits2 m + e)) in *.
  assert (SpecFloat.emin prec emax <= e1) as E by apply fexp_ge_emin.
  assert (0 < 2 ^ (e1 - e)) as P2 by (apply Z.pow_pos_nonneg; lia).
  assert (0 <= m / 2 ^ (e1 - e)) as M1 by (apply Z.div_pos; lia).
  unfold rounded.
  destruct (Z.eqb_spec m2 0) as [|N]; [reflexivity|].
  destruct (Z.ltb_spec m2 (2 ^ prec)) as [Lt|Ge].
  - destruct (Z.leb_spec e1 (emax - prec)) as [Le|]; [|reflexivity].
    cbn [valid_binary]. unfold bounded, canonical_mantissa.
    apply andb_true_intro. split; [|apply Z.leb_le; exact Le].
    apply Z.eqb_eq.
    change (Zpos (digits2_pos (Z.to_pos m2))) with (Zdigits2 (Zpos (Z.to_pos m2))).
    rewrite Z2Pos.id by lia.
    assert (Zdigits2 m2 <= prec) as D by (apply Zdigits2_le; lia).
    destruct (Z.eq_dec e1 (SpecFloat.emin prec emax)) as [Em|Em].
    + unfold fexp. lia.
    + assert (e1 = Zdigits2 m + e - prec) as E1 by (subst e1; unfold fexp in *; lia).
      assert (0 < m) as Mpos.
      { destruct (Z.eq_dec m 0) as [->|]; [|lia]. cbn in E1, H.
        unfold fexp in H. lia. }
      assert (prec <= Zdigits2 m2) as D2.
      { apply Zdigits2_ge; [|lia].
        apply Z.le_trans with (m / 2 ^ (e1 - e)); [|lia].
        apply Z.div_le_lower_bound; [lia|].
        rewrite <- Z.pow_add_r by lia.
        replace (e1 - e + (prec - 1)) with (Zdigits2 m - 1) by lia.
        apply Zdigits2_bounds. lia. }
      unfold fexp. lia.
  - destruct (Z.leb_spec (e1 + 1) (emax - prec)) as [Le|]; [|reflexivity].
    cbn [valid_binary]. unfold bounded, canonical_mantissa.
    apply andb_true_intro. split; [|apply Z.leb_le; exact Le].
    apply Z.eqb_eq.
    assert (0 < 2 ^ (prec - 1)) as Pq by (apply Z.pow_pos_nonneg; lia).
    change (Zpos (digits2_pos (Z.to_pos (2 ^ (prec - 1)))))
      with (Zdigits2 (Zpos (Z.to_pos (2 ^ (prec - 1))))).
    rewrite Z2Pos.id by lia.
    assert (Zdigits2 (2 ^ (prec - 1)) = prec) as ->.
    { apply Z.le_antisymm.
      - apply Zdigits2_le; [|lia]. split; [lia|].
        apply Z.pow_lt_mono_r; lia.
      - apply Zdigits2_ge; lia. }
    unfold fexp. lia.
Qed.

End Rounding.

(** ** The order of [SFcompare] *)

Section Compare.

Lemma SFcompare_refl (x : spec_float) :
  x <> S754_nan -> SFcompare x x = Some Eq.
Proof.
  destruct x as [[]|[]| |[] m e]; intros N; try reflexivity;
    try contradiction; cbn; rewrite Z.compare_refl, Pos.compare_cont_refl;
    reflexivity.
Qed.

Lemma SFleb_refl (x : spec_float) : x <> S754_nan -> SFleb x x = true.
Proof. intros N. unfold SFleb. rewrite SFcompare_refl by exact N. reflexivity. Qed.

Lemma SFltb_SFleb (x y : spec_float) : SFltb x y = true -> SFleb x y = true.
Proof.
  unfold SFltb, SFleb. destruct (SFcompare x y) as [[]|]; congruence.
Qed.

Lemma SFleb_not_nan (x y : spec_float) :
  SFleb x y = true -> x <> S754_nan /\ y <> S754_nan.
Proof.
  unfold SFleb. destruct x, y; cbn; try discriminate; split; discriminate.
Qed.

Lemma SFleb_finite_pos (m1 : positive) (e1 : Z) (m2 : positive) (e2 : Z) :
  SFleb (S754_finite false m1 e1) (S754_finite false m2 e2) = true
  <-> pair_le e1 m1 e2 m2.
Proof.
  unfold SFleb, pair_le. cbn.
  destruct (Z.compare_spec e1 e2) as [E|L|G].
  - change (Pos.compare_cont Eq m1 m2) with (Pos.compare m1 m2).
    destruct (Pos.compare_spec m1 m2) as [E'|L'|G']; split; intros H;
      try (right; split; [assumption|lia]); try reflexivity;
      try discriminate; lia.
  - split; [left; assumption | reflexivity].
  - split; [discriminate | lia].
Qed.

Lemma SFleb_finite_neg (m1 : positive) (e1 : Z) (m2 : positive) (e2 : Z) :
  SFleb (S754_finite true m1 e1) (S754_finite true m2 e2) = true
  <-> pair_le e2 m2 e1 m1.
Proof.
  unfold SFleb, pair_le. cbn.
  destruct (Z.compare_spec e1 e2) as [E|L|G].
  - change (Pos.compare_cont Eq m1 m2) with (Pos.compare m1 m2).
    destruct (Pos.compare_spec m1 m2) as [E'|L'|G']; cbn; split; intros H;
      try (right; split; [lia|lia]); try reflexivity;
      try discriminate; lia.
  - split; [discriminate | lia].
  - split; [left; assumption | reflexivity].
Qed.

Lemma pair_le_trans e1 m1 e2 m2 e3 m3 :
  pair_le e1 m1 e2 m2 -> pair_le e2 m2 e3 m3 -> pair_le e1 m1 e3 m3.
Proof. unfold pair_le. lia. Qed.

Lemma SFleb_trans (x y z : spec_float) :
  SFleb x y = true -> SFleb y z = true -> SFleb x z = true.
Proof.
  destruct x as [sx|sx| |sx mx ex]; try discriminate;
    destruct y as [sy|sy| |sy my ey]; try discriminate;
    destruct z as [sz|sz| |sz mz ez]; try discriminate;
    try (destruct sx; discriminate || (destruct sy; discriminate ||
         (destruct sz; (discriminate || reflexivity))));
    try (destruct sy; discriminate || (destruct sz; discriminate ||
         (destruct sx; (discriminate || reflexivity))));
    try (destruct sx, sy, sz; (discriminate || reflexivity)).
  destruct sx, sy, sz; try discriminate; try reflexivity.
  - rewrite !SFleb_finite_neg. intros A B. eapply pair_le_trans; eassumption.
  - rewrite !SFleb_finite_pos. apply pair_le_trans.
Qed.

Lemma SFcompare_swap (x y : spec_float) :
  SFcompare y x = option_map CompOpp (SFcompare x y).
Proof.
  destruct x as [sx|sx| |sx mx ex], y as [sy|sy| |sy my ey];
    try reflexivity; try (destruct sx; reflexivity);
    try (destruct sy; reflexivity); try (destruct sx, sy; reflexivity).
  destruct sx, sy; cbn; try reflexivity;
    rewrite (Z.compare_antisym ex ey); destruct (ex ?= ey);
    cbn [CompOpp option_map]; try reflexivity;
    pose proof (Pos.compare_cont_antisym mx my Eq) as A;
    cbn [CompOpp] in A; rewrite <- A;
    destruct (Pos.compare_cont Eq mx my); reflexivity.
Qed.

(** Values other than NaN are totally ordered. *)
Lemma SFleb_total (x y : spec_float) :
  x <> S754_nan -> y <> S754_nan -> SFleb x y = true \/ SFltb y x = true.
Proof.
  intros Nx Ny. unfold SFleb, SFltb. rewrite (SFcompare_swap x y).
  destruct (SFcompare x y) as [[]|] eqn:E; cbn; auto.
  destruct x, y; try contradiction; discriminate.
Qed.

Lemma SFltb_not_leb (x y : spec_float) :
  SFltb x y = true -> SFleb y x = false.
Proof.
  unfold SFleb, SFltb. rewrite (SFcompare_swap x y).
  destruct (SFcompare x y) as [[]|]; cbn; congruence.
Qed.

Lemma SFltb_leb_trans (x y z : spec_float) :
  SFltb x y = true -> SFleb y z = true -> SFltb x z = true.
Proof.
  intros L1 L2.
  destruct (SFleb_not_nan _ _ L2) as [_ Nz].
  destruct (SFleb_not_nan _ _ (SFltb_SFleb _ _ L1)) as [Nx _].
  destruct (SFleb_total z x Nz Nx) as [L3|L3]; [|exact L3].
  pose proof (SFleb_trans _ _ _ L2 L3) as T.
  rewrite (SFltb_not_leb _ _ L1) in T. discriminate.
Qed.

End Compare.

(** ** binary32 *)

Section Binary32.

Lemma fexp32 (e : Z) : fexp prec32 emax32 e = Z.max (e - 24) (-149).
Proof. reflexivity. Qed.

Lemma bounded32 (m : positive) (e : Z) :
  bounded prec32 emax32 m e = true ->
  Zdigits2 (Zpos m) <= 24 /\ -149 <= e <= 104
  /\ (-149 < e -> Zdigits2 (Zpos m) = 24).
Proof.
  unfold bounded, canonical_mantissa. intros H.
  apply andb_prop in H. destruct H as [C B].
  apply Z.eqb_eq in C. apply Z.leb_le in B. rewrite fexp32 in C.
  change (Zdigits2 (Zpos m)) with (Zpos (digits2_pos m)).
  unfold prec32, emax32 in B. lia.
Qed.

Lemma finite_in_unit_range (s : bool) (m : positive) (e : Z) :
  e < -23 \/ (e = -23 /\ Zpos m <= 8388608) ->
  in_unit_range (S754_finite s m e) = true.
Proof.
  intros H. unfold in_unit_range, one32. cbn [SFopp negb].
  assert (pair_le e m (-23) 8388608) as P.
  { destruct H as [H | [H1 H2]]; [left; exact H | right].
    split; [exact H1 | exact H2]. }
  destruct s.
  - rewrite andb_true_r. apply SFleb_finite_neg. exact P.
  - cbn [andb]. replace (SFleb (S754_finite true 8388608 (-23))
                               (S754_finite false m e)) with true by reflexivity.
    apply SFleb_finite_pos. exact P.
Qed.

Lemma rounded_in_unit_range (s : bool) (m e : Z) :
  0 <= m <= 2 ^ 24 -> e <= -24 ->
  in_unit_range (rounded prec32 emax32 s m e) = true.
Proof.
  intros M E. unfold rounded, prec32, emax32.
  destruct (Z.eqb_spec m 0) as [|N]; [destruct s; reflexivity|].
  destruct (Z.ltb_spec m (2 ^ 24)) as [Lt|Ge].
  - destruct (Z.leb_spec e (128 - 24)) as [|]; [|lia].
    apply finite_in_unit_range. lia.
  - destruct (Z.leb_spec (e + 1) (128 - 24)) as [|]; [|lia].
    apply finite_in_unit_range. change (Z.to_pos (2 ^ (24 - 1))) with 8388608%positive.
    lia.
Qed.

Lemma Zdigits2_mono (a b : Z) : 0 < a <= b -> Zdigits2 a <= Zdigits2 b.
Proof.
  intros [A B]. apply Zdigits2_le; [|apply Zdigits2_nonneg].
  split; [lia|]. pose proof (Zdigits2_bounds b ltac:(lia)). lia.
Qed.

(** The quotient of two finite values, the first no larger than the
    second in magnitude, is a value of the format within [-1, 1]. *)
Lemma div32_strict (sx sy : bool) (mx my : positive) (ex ey : Z) :
  bounded prec32 emax32 mx ex = true ->
  bounded prec32 emax32 my ey = true ->
  ex < ey \/ (ex = ey /\ (mx < my)%positive) ->
  let r := SFdiv prec32 emax32 (S754_finite sx mx ex) (S754_finite sy my ey) in
  valid_binary prec32 emax32 r = true /\ in_unit_range r = true.
Proof.
  intros Bx By Lt r. subst r. cbn [SFdiv]. unfold SFdiv_core_binary.
  destruct (bounded32 _ _ Bx) as (Dx & Ex & Nx).
  destruct (bounded32 _ _ By) as (Dy & Ey & Ny).
  set (dx := Zdigits2 (Zpos mx)) in *. set (dy := Zdigits2 (Zpos my)) in *.
  pose proof (Zdigits2_bounds (Zpos mx) ltac:(lia)) as Bmx. fold dx in Bmx.
  pose proof (Zdigits2_bounds (Zpos my) ltac:(lia)) as Bmy. fold dy in Bmy.
  assert (0 < dx) as Pdx by (apply Zdigits2_pos; lia).
  assert (0 < dy) as Pdy by (apply Zdigits2_pos; lia).
  set (D := dx + ex - (dy + ey)).
  assert (D <= 0) as HD.
  { subst D. destruct Lt as [L | [E L]].
    - specialize (Ny ltac:(lia)). lia.
    - assert (dx <= dy) by (apply Zdigits2_mono; lia). lia. }
  set (e' := Z.min (fexp prec32 emax32 D) (ex - ey)).
  assert (e' <= -24) as He' by (subst e'; rewrite fexp32; lia).
  set (s := ex - ey - e').
  assert (0 <= s) as Hs by (subst s e'; lia).
  assert (0 < 2 ^ s) as P2s by (apply Z.pow_pos_nonneg; lia).
  set (m' := match s with
             | 0 => Zpos mx
             | Zpos _ => Z.shiftl (Zpos mx) s
             | Zneg _ => 0
             end).
  assert (m' = Zpos mx * 2 ^ s) as Hm'.
  { subst m'. destruct s as [|p|p] eqn:Es; try lia.
    apply Z.shiftl_mul_pow2. lia. }
  clearbody m'.
  pose proof (Z_div_mod m' (Zpos my) ltac:(lia)) as DM.
  destruct (Z.div_eucl m' (Zpos my)) as [q rem] eqn:Eq.
  destruct DM as [DM Rem].
  assert (q = m' / Zpos my) as Hq.
  { apply Z.div_unique_pos with rem; lia. }
  assert (0 <= q) as Q0 by (rewrite Hq; apply Z.div_pos; lia).
  (* the quotient is below 2 ^ (- e') *)
  assert (q < 2 ^ (- e')) as Qu.
  { rewrite Hq. apply Z.div_lt_upper_bound; [lia|]. rewrite Hm'.
    destruct Lt as [L | [E L]].
    - specialize (Ny ltac:(lia)).
      replace (- e') with (s + (ey - ex)) by (subst s; lia).
      rewrite Z.pow_add_r by lia.
      assert (2 <= 2 ^ (ey - ex)).
      { change 2 with (2 ^ 1) at 1. apply Z.pow_le_mono_r; lia. }
      assert (Zpos mx < 2 ^ 24).
      { eapply Z.lt_le_trans; [apply Bmx|]. apply Z.pow_le_mono_r; lia. }
      assert (2 ^ 23 <= Zpos my).
      { replace 23 with (dy - 1) by lia. apply Bmy. }
      change (2 ^ 24) with 16777216 in *. change (2 ^ 23) with 8388608 in *.
      assert (Zpos mx < 2 ^ (ey - ex) * Zpos my) by nia.
      replace (Zpos my * (2 ^ s * 2 ^ (ey - ex)))
        with (2 ^ (ey - ex) * Zpos my * 2 ^ s) by ring.
      apply Z.mul_lt_mono_pos_r; assumption.
    - replace (- e') with s by (subst s; lia).
      apply Z.mul_lt_mono_pos_r; [assumption | lia]. }
  assert (Zdigits2 q + e' <= 0) as Dq.
  { assert (Zdigits2 q <= - e') by (apply Zdigits2_le; lia). lia. }
  (* enough digits *)
  assert (e' <= fexp prec32 emax32 (Zdigits2 q + e')) as Hen.
  { rewrite fexp32.
    destruct (Z_le_gt_dec e' (-149)) as [|G]; [lia|].
    assert (e' <= D - 24) as HeD by (subst e'; rewrite fexp32 in *; lia).
    assert (D - e' <= Zdigits2 q); [|lia].
    apply Zdigits2_ge; [|lia]. rewrite Hq.
    apply Z.div_le_lower_bound; [lia|]. rewrite Hm'.
    replace (D - e' - 1) with (dx - 1 + s - dy) by (subst D s; lia).
    assert (2 ^ (dx - 1 + s - dy) * 2 ^ dy = 2 ^ (dx - 1) * 2 ^ s) as Epow.
    { rewrite <- !Z.pow_add_r by (subst D s; lia). f_equal. lia. }
    assert (0 < 2 ^ (dx - 1 + s - dy)).
    { apply Z.pow_pos_nonneg; [lia|]. subst D s. lia. }
    nia. }
  split.
  - apply binary_round_aux_valid; [reflexivity | exact Q0 | exact Hen].
  - destruct (binary_round_aux_rounded prec32 emax32 eq_refl (xorb sx sy)
                q e' (new_location (Zpos my) rem) Q0) as (m2 & R & U & ->).
    cbv zeta in R.
    assert (0 <= q / 2 ^ (Z.max e' (fexp prec32 emax32 (Zdigits2 q + e')) - e')).
    { apply Z.div_pos; [lia|]. apply Z.pow_pos_nonneg; lia. }
    apply rounded_in_unit_range; [unfold prec32 in U; lia|].
    rewrite fexp32. lia.
Qed.

Lemma div32_equal (sx sy : bool) (m : positive) (e : Z) :
  SFdiv prec32 emax32 (S754_finite sx m e) (S754_finite sy m e)
  = S754_finite (xorb sx sy) 8388608 (-23).
Proof.
  cbn [SFdiv]. unfold SFdiv_core_binary.
  rewrite !Z.sub_diag. cbn [fexp]. rewrite fexp32.
  change (Z.min (Z.max (0 - 24) (-149)) 0) with (-24).
  change (0 - -24) with 24.
  pose proof (Z_div_mod (Z.shiftl (Zpos m) 24) (Zpos m) ltac:(lia)) as DM.
  destruct (Z.div_eucl (Z.shiftl (Zpos m) 24) (Zpos m)) as [q r].
  destruct DM as [DM R]. rewrite Z.shiftl_mul_pow2 in DM by lia.
  assert (q = 2 ^ 24) as ->.
  { rewrite (Z.div_unique_pos _ _ q r R DM).
    rewrite Z.mul_comm. apply Z.div_mul. lia. }
  assert (r = 0) as -> by lia.
  assert (new_location (Zpos m) 0 = loc_Exact) as ->.
  { unfold new_location. destruct (Z.even (Zpos m)); reflexivity. }
  destruct (xorb sx sy); reflexivity.
Qed.

(** Dividing a finite value by one at least as large in magnitude. *)
Lemma div32_le_one (sx sy : bool) (mx my : positive) (ex ey : Z) :
  bounded prec32 emax32 mx ex = true ->
  bounded prec32 emax32 my ey = true ->
  SFleb (S754_finite false mx ex) (S754_finite false my ey) = true ->
  let r := SFdiv prec32 emax32 (S754_finite sx mx ex) (S754_finite sy my ey) in
  valid_binary prec32 emax32 r = true /\ in_unit_range r = true.
Proof.
  intros Bx By L. apply SFleb_finite_pos in L.
  destruct L as [L | [E L]].
  - apply div32_strict; auto.
  - apply Z.le_lteq in L. destruct L as [L | L].
    + apply div32_strict; auto.
    + injection L as ->.
      subst ey. cbv zeta. rewrite div32_equal.
      destruct (xorb sx sy); split; reflexivity.
Qed.

(** *** Bit patterns *)

Lemma f32_bits_range (x : float32) : 0 <= f32_bits x < 4294967296.
Proof.
  unfold f32_bits.
  pose proof (byte_val_range (byte0 x)). pose proof (byte_val_range (byte1 x)).
  pose proof (byte_val_range (byte2 x)). pose proof (byte_val_range (byte3 x)).
  lia.
Qed.

Lemma f32_bits_of_bits (w : Z) :
  0 <= w < 4294967296 -> f32_bits (f32_of_bits w) = w.
Proof.
  intros H. unfold f32_bits, f32_of_bits. cbn [byte0 byte1 byte2 byte3].
  rewrite !byte_val_of. Z.div_mod_to_equations. lia.
Qed.

Lemma digits_of_range (p : positive) (k : Z) :
  2 ^ (k - 1) <= Zpos p < 2 ^ k -> 0 < k -> Zpos (digits2_pos p) = k.
Proof.
  intros [L U] K. change (Zpos (digits2_pos p)) with (Zdigits2 (Zpos p)).
  apply Z.le_antisymm; [apply Zdigits2_le; lia | apply Zdigits2_ge; lia].
Qed.

(** Every bit pattern is a value of the format. *)
Lemma SF_of_bits32_valid (w : Z) :
  0 <= w < 4294967296 ->
  valid_binary prec32 emax32 (SF_of_bits32 w) = true.
Proof.
  intros H. unfold SF_of_bits32.
  set (e := (w / 8388608) mod 256). set (m := w mod 8388608).
  assert (0 <= e < 256) as He by (subst e; apply Z.mod_pos_bound; lia).
  assert (0 <= m < 8388608) as Hm by (subst m; apply Z.mod_pos_bound; lia).
  destruct (Z.eqb_spec e 0) as [E0|E0].
  - destruct m as [|p|p] eqn:Em; try reflexivity.
    cbn [valid_binary]. unfold bounded, canonical_mantissa.
    apply andb_true_intro. split; [|reflexivity].
    apply Z.eqb_eq. rewrite fexp32.
    assert (Zdigits2 (Zpos p) <= 23) as D.
    { apply Zdigits2_le; [|lia]. change (2 ^ 23) with 8388608. lia. }
    change (Zdigits2 (Zpos p)) with (Zpos (digits2_pos p)) in D. lia.
  - destruct (Z.eqb_spec e 255) as [E1|E1].
    + destruct m; reflexivity.
    + destruct (m + 8388608) as [|p|p] eqn:Em; try reflexivity.
      cbn [valid_binary]. unfold bounded, canonical_mantissa.
      apply andb_true_intro. split.
      * apply Z.eqb_eq. rewrite fexp32.
        rewrite (digits_of_range p 24); [lia | | lia].
        change (2 ^ (24 - 1)) with 8388608. change (2 ^ 24) with 16777216.
        lia.
      * apply Z.leb_le. unfold emax32, prec32. lia.
Qed.

Lemma f32_val_valid (x : float32) :
  valid_binary prec32 emax32 (f32_val x) = true.
Proof. apply SF_of_bits32_valid, f32_bits_range. Qed.

Lemma sign_bit_range (s : bool) :
  sign_bit s = 0 \/ sign_bit s = 2147483648.
Proof. destruct s; cbn; auto. Qed.

(** A value of the format other than NaN is read back from its
    pattern. *)
Lemma SF_of_bits32_of_SF (f : spec_float) :
  valid_binary prec32 emax32 f = true -> f <> S754_nan ->
  0 <= bits_of_SF32 f < 4294967296
  /\ SF_of_bits32 (bits_of_SF32 f) = f.
Proof.
  intros V N. destruct f as [s|s| |s m e]; try contradiction.
  - destruct s; split; try reflexivity; cbn; lia.
  - destruct s; split; try reflexivity; cbn; lia.
  - cbn [valid_binary] in V. destruct (bounded32 _ _ V) as (D & E & Nm).
    pose proof (Zdigits2_bounds (Zpos m) ltac:(lia)) as B.
    assert (Zpos m < 16777216) as U.
    { change 16777216 with (2 ^ 24). eapply Z.lt_le_trans; [apply B|].
      apply Z.pow_le_mono_r; lia. }
    unfold bits_of_SF32.
    destruct (Z.ltb_spec (Zpos m) 8388608) as [Lt|Ge].
    + assert (e = -149) as ->.
      { destruct (Z.eq_dec e (-149)); [assumption|].
        specialize (Nm ltac:(lia)). rewrite Nm in B.
        change (2 ^ (24 - 1)) with 8388608 in B. lia. }
      split; [destruct s; cbn [sign_bit]; lia|].
      unfold SF_of_bits32.
      assert ((2147483648 <=? sign_bit s + Zpos m) = s) as ->.
      { destruct s; cbn [sign_bit]; [apply Z.leb_le | apply Z.leb_gt]; lia. }
      assert (((sign_bit s + Zpos m) / 8388608) mod 256 = 0) as ->.
      { destruct s; cbn [sign_bit].
        - replace (2147483648 + Zpos m) with (Zpos m + 256 * 8388608) by lia.
          rewrite Z.div_add, Z.div_small, Z.add_0_l by lia.
          reflexivity.
        - rewrite Z.add_0_l, Z.div_small by lia. reflexivity. }
      assert ((sign_bit s + Zpos m) mod 8388608 = Zpos m) as ->.
      { destruct s; cbn [sign_bit].
        - replace (2147483648 + Zpos m) with (Zpos m + 256 * 8388608) by lia.
          rewrite Z.mod_add, Z.mod_small by lia. reflexivity.
        - rewrite Z.add_0_l, Z.mod_small by lia. reflexivity. }
      reflexivity.
    + set (fe := e + 150). assert (1 <= fe <= 254) as HE by (subst fe; lia).
      set (f := Zpos m - 8388608). assert (0 <= f < 8388608) as Hf by (subst f; lia).
      split; [destruct s; cbn [sign_bit]; lia|].
      unfold SF_of_bits32.
      assert ((2147483648 <=? sign_bit s + fe * 8388608 + f) = s) as ->.
      { destruct s; cbn [sign_bit]; [apply Z.leb_le | apply Z.leb_gt]; lia. }
      assert (((sign_bit s + fe * 8388608 + f) / 8388608) mod 256 = fe) as ->.
      { replace (sign_bit s + fe * 8388608 + f)
          with (f + (sign_bit s / 8388608 + fe) * 8388608)
          by (destruct s; cbn [sign_bit];
              [change (2147483648 / 8388608) with 256
              |change (0 / 8388608) with 0]; lia).
        rewrite Z.div_add, Z.div_small, Z.add_0_l by lia.
        destruct s; cbn [sign_bit].
        - change (2147483648 / 8388608) with 256.
          replace (256 + fe) with (fe + 1 * 256) by lia.
          rewrite Z.mod_add, Z.mod_small by lia. reflexivity.
        - change (0 / 8388608) with 0. rewrite Z.add_0_l, Z.mod_small by lia.
          reflexivity. }
      assert ((sign_bit s + fe * 8388608 + f) mod 8388608 = f) as ->.
      { replace (sign_bit s + fe * 8388608 + f)
          with (f + (sign_bit s / 8388608 + fe) * 8388608)
          by (destruct s; cbn [sign_bit];
              [change (2147483648 / 8388608) with 256
              |change (0 / 8388608) with 0]; lia).
        rewrite Z.mod_add, Z.mod_small by lia. reflexivity. }
      destruct (Z.eqb_spec fe 0) as [|_]; [lia|].
      destruct (Z.eqb_spec fe 255) as [|_]; [lia|].
      subst f fe. replace (Zpos m - 8388608 + 8388608) with (Zpos m) by lia.
      replace (e + 150 - 150) with e by lia. reflexivity.
Qed.

Lemma f32_val_enc (f : spec_float) :
  valid_binary prec32 emax32 f = true -> f <> S754_nan ->
  f32_val (f32_enc f) = f.
Proof.
  intros V N. destruct (SF_of_bits32_of_SF f V N) as [R E].
  unfold f32_val, f32_enc. rewrite f32_bits_of_bits by exact R. exact E.
Qed.

End Binary32.

(** ** Renormalisation *)

Section Renormalize.

Lemma np_maximum_bounds (a b : spec_float) :
  a <> S754_nan -> b <> S754_nan ->
  (np_maximum a b = a \/ np_maximum a b = b)
  /\ SFleb a (np_maximum a b) = true /\ SFleb b (np_maximum a b) = true.
Proof.
  intros Na Nb. unfold np_maximum.
  pose proof (SFleb_refl a Na) as Ra. pose proof (SFleb_refl b Nb) as Rb.
  assert (SFleb a b = match SFcompare a b with
                      | Some (Eq | Lt) => true
                      | _ => false
                      end) as Lab by reflexivity.
  assert (SFleb b a = match SFcompare a b with
                      | Some (Eq | Gt) => true
                      | _ => false
                      end) as Lba.
  { unfold SFleb. rewrite (SFcompare_swap a b).
    destruct (SFcompare a b) as [[]|]; reflexivity. }
  destruct (SFcompare a b) as [[]|] eqn:E.
  - split; [left; reflexivity|]. split; assumption.
  - split; [right; reflexivity|]. split; assumption.
  - split; [left; reflexivity|]. split; assumption.
  - destruct a, b; try contradiction; cbn in E; discriminate E.
Qed.

(** The running maximum of magnitudes, none of them NaN. *)
Lemma fold_maximum (xs : list float32) :
  forall acc : spec_float,
    acc <> S754_nan ->
    Forall (fun x => magnitude x <> S754_nan) xs ->
    let m := fold_left (fun m y => np_maximum m (SFabs (f32_val y))) xs acc in
    (m = acc \/ exists x, In x xs /\ m = magnitude x)
    /\ SFleb acc m = true
    /\ Forall (fun x => SFleb (magnitude x) m = true) xs.
Proof.
  induction xs as [|x xs IH]; intros acc Na F; cbn [fold_left].
  - split; [left; reflexivity|]. split; [apply SFleb_refl, Na | constructor].
  - inversion F as [|? ? Nx F']; subst.
    destruct (np_maximum_bounds acc (magnitude x) Na Nx) as (C & La & Lx).
    assert (np_maximum acc (magnitude x) <> S754_nan) as Nm.
    { destruct C as [-> | ->]; assumption. }
    destruct (IH _ Nm F') as (C' & L' & A'). cbv zeta in *.
    fold (magnitude x).
    set (m := fold_left _ xs (np_maximum acc (magnitude x))) in *.
    split; [|split].
    + destruct C' as [E | (y & Iy & E)].
      * rewrite E. destruct C as [-> | ->]; [left; reflexivity|].
        right. exists x. split; [left; reflexivity | reflexivity].
      * right. exists y. split; [right; exact Iy | exact E].
    + eapply SFleb_trans; eassumption.
    + constructor; [eapply SFleb_trans; eassumption | exact A'].
Qed.

Lemma magnitude_finite (x : float32) :
  finite_sample x ->
  magnitude x = S754_zero false
  \/ exists m e, magnitude x = S754_finite false m e
                 /\ bounded prec32 emax32 m e = true
                 /\ exists s, f32_val x = S754_finite s m e.
Proof.
  unfold finite_sample, magnitude. pose proof (f32_val_valid x) as V.
  destruct (f32_val x) as [s|s| |s m e]; try discriminate; intros _.
  - left. reflexivity.
  - right. exists m, e. split; [reflexivity|]. split; [exact V|].
    exists s. reflexivity.
Qed.

Lemma magnitude_not_nan (x : float32) :
  finite_sample x -> magnitude x <> S754_nan.
Proof.
  intros F. destruct (magnitude_finite x F) as [-> | (m & e & -> & _)];
    discriminate.
Qed.

(** The maximum magnitude of a non-empty buffer of finite samples is
    the magnitude of one of them and bounds them all. *)
Lemma abs_max_finite (xs : list float32) :
  xs <> [] -> Forall finite_sample xs ->
  exists m, abs_max (vector xs) = Some m
            /\ (exists x, In x xs /\ m = magnitude x)
            /\ Forall (fun x => SFleb (magnitude x) m = true) xs.
Proof.
  intros N F. destruct xs as [|x xs]; [contradiction|].
  inversion F as [|? ? Fx F']; subst.
  unfold abs_max, vector. cbn [data].
  assert (Forall (fun y => magnitude y <> S754_nan) xs) as Nn.
  { eapply Forall_impl; [|exact F']. apply magnitude_not_nan. }
  destruct (fold_maximum xs (magnitude x) (magnitude_not_nan x Fx) Nn)
    as (C & L & A).
  cbv zeta in *. fold (magnitude x).
  set (m := fold_left _ xs (magnitude x)) in *.
  exists m. split; [reflexivity|]. split.
  - destruct C as [E | (y & Iy & E)].
    + exists x. split; [left; reflexivity | exact E].
    + exists y. split; [right; exact Iy | exact E].
  - constructor; assumption.
Qed.

Lemma f32_div_number (x : float32) (d : spec_float) :
  f32_val x <> S754_nan ->
  f32_div x d = f32_enc (SFdiv prec32 emax32 (f32_val x) d).
Proof.
  unfold f32_div. destruct (f32_val x); try reflexivity.
  intros N. contradiction N. reflexivity.
Qed.

(** A sample divided by a magnitude at least its own, and above one. *)
Lemma f32_div_within_unit (x : float32) (m : spec_float) :
  finite_sample x ->
  (exists y, finite_sample y /\ m = magnitude y) ->
  SFleb (magnitude x) m = true -> SFltb one32 m = true ->
  within_unit (f32_div x m).
Proof.
  intros Fx (y & Fy & ->) L G. unfold within_unit.
  rewrite f32_div_number
    by (unfold finite_sample in Fx; intros E; rewrite E in Fx; discriminate).
  destruct (magnitude_finite y Fy) as [Ey | (my & ey & Ey & By & _)];
    rewrite Ey in *; [discriminate|].
  assert (valid_binary prec32 emax32
            (SFdiv prec32 emax32 (f32_val x) (S754_finite false my ey)) = true
          /\ in_unit_range
               (SFdiv prec32 emax32 (f32_val x) (S754_finite false my ey))
             = true) as [V R].
  { destruct (magnitude_finite x Fx) as [Ex | (mx & ex & Ex & Bx & sx & Vx)].
    - unfold magnitude in Ex. destruct (f32_val x) as [s| | |]; try discriminate.
      destruct s; split; reflexivity.
    - rewrite Ex in L. rewrite Vx. apply div32_le_one; assumption. }
  rewrite f32_val_enc; [exact R | exact V |].
  intros E. rewrite E in R. discriminate.
Qed.

Lemma within_unit_magnitude (x : float32) :
  finite_sample x -> within_unit x -> SFleb (magnitude x) one32 = true.
Proof.
  unfold finite_sample, within_unit, magnitude, in_unit_range.
  destruct (f32_val x) as [s|s| |s m e]; try discriminate; intros _ H.
  - reflexivity.
  - apply andb_prop in H. destruct H as [H1 H2]. cbn [SFabs].
    destruct s; [|exact H2].
    unfold one32 in *. cbn [SFopp negb] in H1.
    apply SFleb_finite_neg in H1. apply SFleb_finite_pos. exact H1.
Qed.

(** On a ready service and a non-empty buffer, the model is consulted
    on one tensor, the renormalised buffer, and nothing else of the
    model enters the result. *)
Lemma process_audio_model_input
      (s : service) (mh : model_handle) (a : ndarray) (w w' : world) :
  is_initialized s = true -> model s = Some mh -> size a <> 0%nat ->
  infer w mh (apply_model s) (to_tensor (renormalize a))
  = infer w' mh (apply_model s) (to_tensor (renormalize a)) ->
  elapsed_ms w = elapsed_ms w' ->
  process_audio s a w = process_audio s a w'.
Proof.
  intros Hi Hm Hs Hinf Ht. unfold process_audio. rewrite Hi, Hm.
  apply Nat.eqb_neq in Hs. rewrite Hs. unfold denoise.
  rewrite Hinf, Ht. reflexivity.
Qed.

(** C9, as amended.  For a non-empty buffer of finite samples (no NaN,
    no infinity) sent to a ready service: the tensor handed to the
    model holds the renormalised buffer; if some sample exceeds 1.0 in
    magnitude, that buffer is the input divided by its largest
    magnitude, and every sample of it lies in [-1, 1]; if every sample
    lies in [-1, 1], it is the input itself. *)
Theorem renormalize_finite_buffer (xs : list float32) :
  xs <> [] -> Forall finite_sample xs ->
  let a := vector xs in
  data (to_tensor (renormalize a)) = data (renormalize a)
  /\ (forall s mh w w',
         is_initialized s = true -> model s = Some mh ->
         infer w mh (apply_model s) (to_tensor (renormalize a))
         = infer w' mh (apply_model s) (to_tensor (renormalize a)) ->
         elapsed_ms w = elapsed_ms w' ->
         process_audio s a w = process_audio s a w')
  /\ (exists m,
         abs_max a = Some m
         /\ (exists x, In x xs /\ m = magnitude x)
         /\ Forall (fun x => SFleb (magnitude x) m = true) xs
         /\ (Exists above_unit xs ->
             renormalize a = divide a m
             /\ Forall within_unit (data (renormalize a))))
  /\ (Forall within_unit xs -> renormalize a = a).
Proof.
  intros N F a.
  destruct (abs_max_finite xs N F) as (m & Hm & (x & Ix & Ex) & A).
  fold a in Hm. split; [|split; [|split]].
  - unfold to_tensor, ndim. rewrite renormalize_shape. reflexivity.
  - intros s mh w w' Hi Hmo Hinf Ht.
    apply (process_audio_model_input s mh a w w'); auto.
    destruct xs; [contradiction | discriminate].
  - exists m. split; [exact Hm|]. split; [exists x; auto|].
    split; [exact A|]. intros E.
    assert (SFltb one32 m = true) as G.
    { apply Exists_exists in E. destruct E as (y & Iy & Gy).
      rewrite Forall_forall in A.
      eapply SFltb_leb_trans; [exact Gy | apply A, Iy]. }
    assert (renormalize a = divide a m) as R.
    { unfold renormalize. rewrite Hm, G. reflexivity. }
    split; [exact R|]. rewrite R. unfold divide, a, vector. cbn [data].
    apply Forall_map. rewrite Forall_forall in *. intros y Iy.
    apply f32_div_within_unit; auto.
    exists x. split; [apply F, Ix | exact Ex].
  - intros W. unfold renormalize. rewrite Hm.
    assert (SFltb one32 m = false) as ->; [|reflexivity].
    rewrite Forall_forall in F, W.
    pose proof (within_unit_magnitude x (F x Ix) (W x Ix)) as L.
    rewrite <- Ex in L. unfold SFltb.
    pose proof (SFltb_not_leb one32 m) as T. unfold SFltb in T.
    destruct (SFcompare one32 m) as [[]|]; try reflexivity.
    rewrite T in L by reflexivity. discriminate.
Qed.

Lemma renormalize_finite_buffer_witness :
  renormalize (vector [Samples.two32; Samples.half32])
  = divide (vector [Samples.two32; Samples.half32]) (f32_val Samples.two32)
  /\ Forall within_unit
            (data (renormalize (vector [Samples.two32; Samples.half32]))).
Proof.
  assert ([Samples.two32; Samples.half32] <> []) as N by discriminate.
  assert (Forall finite_sample [Samples.two32; Samples.half32]) as F.
  { repeat constructor. }
  destruct (renormalize_finite_buffer _ N F)
    as (_ & _ & (m & Hm & _ & _ & H) & _).
  injection Hm as <-. apply H. left. reflexivity.
Defined.

(** C9, as stated, fails: next to a NaN, a sample of 2.0 is handed to
    the model as it came. *)
Lemma renormalize_keeps_sample_next_to_nan :
  let a := vector [Samples.nan32; Samples.two32] in
  above_unit Samples.two32
  /\ data (to_tensor (renormalize a)) = [Samples.nan32; Samples.two32]
  /\ in_unit_range (f32_val Samples.two32) = false.
Proof. repeat split. Qed.

End Renormalize.

(** ** binary64 *)

Section Binary64.

Lemma fexp64 (e : Z) : fexp prec64 emax64 e = Z.max (e - 53) (-1074).
Proof. reflexivity. Qed.

Lemma bounded64 (m : positive) (e : Z) :
  bounded prec64 emax64 m e = true ->
  Zdigits2 (Zpos m) <= 53 /\ -1074 <= e <= 971
  /\ fexp prec64 emax64 (Zdigits2 (Zpos m) + e) = e.
Proof.
  unfold bounded, canonical_mantissa. intros H.
  apply andb_prop in H. destruct H as [C B].
  apply Z.eqb_eq in C. apply Z.leb_le in B.
  change (Zdigits2 (Zpos m)) with (Zpos (digits2_pos m)).
  split; [|split; [|exact C]]; rewrite fexp64 in C;
    unfold prec64, emax64 in B; lia.
Qed.

Lemma iter_xO (d m : positive) :
  Zpos (Pos.iter xO m d) = Zpos m * 2 ^ Zpos d.
Proof.
  induction d as [|d IH] using Pos.peano_ind.
  - cbn [Pos.iter]. rewrite Z.pow_1_r. lia.
  - rewrite Pos.iter_succ, Pos2Z.inj_succ, Z.pow_succ_r by lia.
    rewrite (Pos2Z.inj_xO (Pos.iter xO m d)), IH. lia.
Qed.

Lemma shl_align_down (m : positive) (e e' : Z) :
  e' <= e -> Zpos (fst (shl_align m e e')) = Zpos m * 2 ^ (e - e').
Proof.
  intros H. unfold shl_align. destruct (e' - e) as [|d|d] eqn:E; try lia.
  - replace (e - e') with 0 by lia. cbn [fst]. lia.
  - cbn [fst]. rewrite iter_xO. f_equal. f_equal. lia.
Qed.

Lemma shl_align_keep (m : positive) (e e' : Z) :
  e <= e' -> shl_align m e e' = (m, e).
Proof.
  intros H. unfold shl_align. destruct (e' - e) as [|d|d] eqn:E;
    try reflexivity. lia.
Qed.

(** A time that is a number and not negative is a zero, a positive
    value of the format, or plus infinity. *)
Lemma sound_time_cases (t : float64) :
  sound_time t ->
  (exists s, t = S754_zero s) \/ t = S754_infinity false
  \/ exists m e, t = S754_finite false m e
                 /\ bounded prec64 emax64 m e = true.
Proof.
  intros [V P]. destruct t as [s|s| |s m e]; try discriminate.
  - left. exists s. reflexivity.
  - destruct s; [discriminate|]. right. left. reflexivity.
  - destruct s; [discriminate|]. right. right. exists m, e.
    split; [reflexivity | exact V].
Qed.

(** The sum of two positive values of the format is a value of the
    format, or plus infinity, and is not below the first. *)
Lemma add64_finite (mx my : positive) (ex ey : Z) :
  bounded prec64 emax64 mx ex = true ->
  bounded prec64 emax64 my ey = true ->
  let r := float_add (S754_finite false mx ex) (S754_finite false my ey) in
  sound_time r /\ SFleb (S754_finite false mx ex) r = true.
Proof.
  intros Bx By r. subst r. unfold float_add. cbn [SFadd cond_Zopp].
  destruct (bounded64 _ _ Bx) as (Dx & Ex & Cx).
  destruct (bounded64 _ _ By) as (Dy & Ey & Cy).
  set (ez := Z.min ex ey).
  pose proof (shl_align_down mx ex ez ltac:(subst ez; lia)) as Ax.
  pose proof (shl_align_down my ey ez ltac:(subst ez; lia)) as Ay.
  set (px := fst (shl_align mx ex ez)) in *.
  set (py := fst (shl_align my ey ez)) in *.
  change (Zpos px + Zpos py) with (Zpos (px + py)).
  cbn [binary_normalize]. unfold binary_round.
  set (M := Zpos (px + py)).
  assert (M = Zpos mx * 2 ^ (ex - ez) + Zpos my * 2 ^ (ey - ez)) as HM.
  { subst M. rewrite Pos2Z.inj_add, Ax, Ay. reflexivity. }
  assert (0 < 2 ^ (ex - ez)) as Px by (apply Z.pow_pos_nonneg; subst ez; lia).
  assert (0 < 2 ^ (ey - ez)) as Py by (apply Z.pow_pos_nonneg; subst ez; lia).
  assert (Zpos mx * 2 ^ (ex - ez) <= M) as Mx by nia.
  pose proof (Zdigits2_bounds (Zpos mx) ltac:(lia)) as Bmx.
  set (dx := Zdigits2 (Zpos mx)) in *.
  assert (0 < dx) as Pdx by (apply Zdigits2_pos; lia).
  pose proof (Zdigits2_bounds M ltac:(lia)) as BM.
  set (dM := Zdigits2 M) in *.
  assert (dx + ex - ez <= dM) as DM.
  { apply Zdigits2_ge; [|subst ez; lia].
    replace (dx + ex - ez - 1) with (dx - 1 + (ex - ez)) by lia.
    rewrite Z.pow_add_r by (subst ez; lia). nia. }
  assert (ex <= fexp prec64 emax64 (dM + ez)) as Hex.
  { rewrite <- Cx. apply fexp_mono. lia. }
  change (Zpos (digits2_pos (px + py))) with dM.
  rewrite shl_align_keep by (subst ez; lia).
  assert (sound_time
            (binary_round_aux prec64 emax64 false M ez loc_Exact)
          /\ forall m e, binary_round_aux prec64 emax64 false M ez loc_Exact
                         = S754_finite false m e ->
                         pair_le ex mx e m) as [S L].
  { split.
    - split.
      + apply binary_round_aux_valid; [reflexivity | lia | fold dM; subst ez; lia].
      + destruct (binary_round_aux_rounded prec64 emax64 eq_refl false
                    M ez loc_Exact ltac:(lia)) as (m2 & _ & _ & ->).
        unfold rounded. destruct (m2 =? 0); [reflexivity|].
        destruct (m2 <? 2 ^ prec64);
          match goal with
          | |- context [if ?c then _ else _] => destruct c
          end; reflexivity.
    - intros m e E.
      destruct (binary_round_aux_rounded prec64 emax64 eq_refl false
                  M ez loc_Exact ltac:(lia)) as (m2 & R & U & E').
      cbv zeta in R. fold dM in R, E'.
      rewrite Z.max_r in R, E' by (subst ez; lia).
      set (e1 := fexp prec64 emax64 (dM + ez)) in *.
      assert (0 < 2 ^ (e1 - ez)) as P1.
      { apply Z.pow_pos_nonneg; subst ez; lia. }
      assert (e1 = ex -> Zpos mx <= M / 2 ^ (e1 - ez)) as Q.
      { intros ->. apply Z.div_le_lower_bound; lia. }
      assert (1 <= M / 2 ^ (e1 - ez)) as Q1.
      { destruct (Z.eq_dec e1 ex) as [Ee|Ne]; [specialize (Q Ee); lia|].
        apply Z.div_le_lower_bound; [lia|]. rewrite Z.mul_1_r.
        apply Z.le_trans with (2 ^ (dM - 1)); [|lia].
        apply Z.pow_le_mono_r; [lia|].
        subst e1. rewrite fexp64 in *. lia. }
      rewrite E' in E. unfold rounded in E.
      destruct (Z.eqb_spec m2 0) as [|N]; [lia|].
      destruct (m2 <? 2 ^ prec64).
      + destruct (e1 <=? emax64 - prec64); [|discriminate].
        injection E as <- <-. unfold pair_le.
        rewrite Z2Pos.id by lia.
        destruct (Z.eq_dec e1 ex) as [Ee|Ne]; [specialize (Q Ee)|]; lia.
      + destruct (e1 + 1 <=? emax64 - prec64); [|discriminate].
        injection E as <- <-. unfold pair_le. lia. }
  fold M. split; [exact S|].
  destruct S as [V P].
  destruct (binary_round_aux prec64 emax64 false M ez loc_Exact)
    as [s|s| |s m e] eqn:E; try discriminate.
  - (* a zero cannot be: the rounded mantissa is positive *)
    exfalso.
    destruct (binary_round_aux_rounded prec64 emax64 eq_refl false
                M ez loc_Exact ltac:(lia)) as (m2 & R & U & E').
    cbv zeta in R. fold dM in R, E'.
    rewrite Z.max_r in R, E' by (subst ez; lia).
    set (e1 := fexp prec64 emax64 (dM + ez)) in *.
    assert (0 < 2 ^ (e1 - ez)) as P1.
    { apply Z.pow_pos_nonneg; subst ez; lia. }
    assert (1 <= M / 2 ^ (e1 - ez)) as Q1.
    { apply Z.div_le_lower_bound; [lia|]. rewrite Z.mul_1_r.
      destruct (Z.eq_dec e1 ex) as [Ee|Ne].
      - rewrite Ee. nia.
      - apply Z.le_trans with (2 ^ (dM - 1)); [|lia].
        apply Z.pow_le_mono_r; [lia|].
        subst e1. rewrite fexp64 in *. lia. }
    rewrite E' in E. unfold rounded in E.
    destruct (Z.eqb_spec m2 0) as [|N]; [lia|].
    destruct (m2 <? 2 ^ prec64);
      match type of E with
      | context [if ?c then _ else _] => destruct c
      end; discriminate.
  - destruct s; [discriminate | reflexivity].
  - destruct s; [discriminate|]. apply SFleb_finite_pos. apply L. reflexivity.
Qed.

(** Adding a sound time to a sound total gives a sound total that is
    not below the old one. *)
Lemma add64_sound (x y : float64) :
  sound_time x -> sound_time y ->
  sound_time (float_add x y) /\ SFleb x (float_add x y) = true.
Proof.
  intros Sx Sy.
  destruct (sound_time_cases x Sx) as [[sx ->] | [-> | (mx & ex & -> & Bx)]];
    destruct (sound_time_cases y Sy) as [[sy ->] | [-> | (my & ey & -> & By)]].
  - destruct sx, sy; repeat split.
  - destruct sx; repeat split.
  - destruct sx; (split; [exact Sy | reflexivity]).
  - destruct sy; repeat split.
  - repeat split.
  - repeat split.
  - split; [exact Sx|]. unfold float_add. cbn [SFadd].
    apply SFleb_refl. discriminate.
  - repeat split.
  - apply add64_finite; assumption.
Qed.

Lemma py_max_bounds (a b : float64) :
  a <> S754_nan ->
  py_max a b <> S754_nan /\ SFleb a (py_max a b) = true.
Proof.
  intros Na. unfold py_max. destruct (SFltb a b) eqn:L.
  - split; [|apply SFltb_SFleb; exact L].
    apply SFltb_SFleb, SFleb_not_nan in L. apply L.
  - split; [exact Na | apply SFleb_refl; exact Na].
Qed.

End Binary64.

(** ** Monotone statistics *)

Section Monotone.
Local Open Scope string_scope.
Implicit Types (py_str : json -> string) (s : service) (st : stats).

(** The counters and the largest time never go down. *)
Lemma run_counters_grow py_str (lines : list line) :
  forall s,
    max_time (processing_stats s) <> S754_nan ->
    let st := processing_stats s in
    let st' := processing_stats (run py_str s lines) in
    (total_processed st <= total_processed st')%nat
    /\ (errors st <= errors st')%nat
    /\ float_le (max_time st) (max_time st')
    /\ max_time st' <> S754_nan.
Proof.
  induction lines as [|l rest IH]; intros s N; cbv zeta.
  - cbn. repeat split; auto. apply SFleb_refl, N.
  - rewrite run_cons.
    set (s1 := snd (main_step py_str s l)).
    destruct (py_max_bounds (max_time (processing_stats s))
                (elapsed_ms (env l)) N) as [Nm Lm].
    assert ((total_processed (processing_stats s)
             <= total_processed (processing_stats s1))%nat
            /\ (errors (processing_stats s) <= errors (processing_stats s1))%nat
            /\ float_le (max_time (processing_stats s))
                        (max_time (processing_stats s1))
            /\ max_time (processing_stats s1) <> S754_nan) as (A & B & C & D).
    { destruct (main_step_stats py_str s l) as [(_ & _ & E) | (_ & [E|E])];
        fold s1 in E; rewrite E; cbn; repeat split; auto;
        try (apply SFleb_refl, N). }
    destruct (IH s1 D) as (A' & B' & C' & D'). cbv zeta in *.
    repeat split; [lia | lia | | exact D'].
    unfold float_le in *. eapply SFleb_trans; eassumption.
Qed.

(** The total time never goes down while the measured times are
    sound. *)
Lemma run_total_time_grows py_str (lines : list line) :
  forall s,
    sound_time (total_time (processing_stats s)) ->
    Forall (fun l => sound_time (elapsed_ms (env l))) lines ->
    float_le (total_time (processing_stats s))
             (total_time (processing_stats (run py_str s lines)))
    /\ sound_time (total_time (processing_stats (run py_str s lines))).
Proof.
  induction lines as [|l rest IH]; intros s S F.
  - cbn. split; [|exact S]. apply SFleb_refl.
    destruct S as [_ P]. apply SFleb_not_nan in P. apply P.
  - rewrite run_cons. inversion F as [|? ? Fl Fr]; subst.
    set (s1 := snd (main_step py_str s l)).
    destruct (add64_sound _ _ S Fl) as [S' L'].
    assert (float_le (total_time (processing_stats s))
                     (total_time (processing_stats s1))
            /\ sound_time (total_time (processing_stats s1))) as [A B].
    { assert (SFleb (total_time (processing_stats s))
                    (total_time (processing_stats s)) = true) as R.
      { apply SFleb_refl. destruct S as [_ P].
        apply SFleb_not_nan in P. apply P. }
      destruct (main_step_stats py_str s l) as [(_ & _ & E) | (_ & [E|E])];
        fold s1 in E; rewrite E; cbn; split; auto. }
    destruct (IH s1 B Fr) as [A' B'].
    split; [|exact B']. unfold float_le in *.
    eapply SFleb_trans; eassumption.
Qed.

(** C5, as amended.  Between any two moments of a session,
    [total_processed], [errors] and [max_time] do not decrease, and
    neither does [total_time] as long as every measured time is a
    number and is not negative.  ([avg_time] is recomputed at every
    success and may go down.) *)
Theorem counters_never_decrease
        py_str (cuda_available : bool) (before after : list line) :
  let st := processing_stats (run py_str (new_service cuda_available) before) in
  let st' := processing_stats
               (run py_str (new_service cuda_available) (before ++ after)%list)
  in
  (total_processed st <= total_processed st')%nat
  /\ (errors st <= errors st')%nat
  /\ float_le (max_time st) (max_time st')
  /\ (Forall (fun l => sound_time (elapsed_ms (env l))) (before ++ after)%list ->
      float_le (total_time st) (total_time st')).
Proof.
  cbv zeta. rewrite run_app.
  destruct (run_counters_grow py_str before (new_service cuda_available))
    as (_ & _ & _ & N); [discriminate|].
  destruct (run_counters_grow py_str after _ N) as (A & B & C & _).
  repeat split; auto.
  intros F. apply Forall_app in F. destruct F as [Fb Fa].
  destruct (run_total_time_grows py_str before (new_service cuda_available))
    as [_ S]; [split; reflexivity | exact Fb |].
  apply (run_total_time_grows py_str after _ S Fa).
Qed.

Lemma counters_never_decrease_witness :
  let before := [request "init" (Samples.calm 3);
                 process_request "AAAAAA==" (Samples.calm 10)] in
  let after := [process_request "AAAAAA==" (Samples.calm 2)] in
  float_le
    (total_time (processing_stats
                   (run Samples.str0 (new_service false) before)))
    (total_time (processing_stats
                   (run Samples.str0 (new_service false) (before ++ after)%list))).
Proof.
  cbv zeta.
  apply (counters_never_decrease Samples.str0 false
           [request "init" (Samples.calm 3);
            process_request "AAAAAA==" (Samples.calm 10)]
           [process_request "AAAAAA==" (Samples.calm 2)]).
  repeat constructor.
Defined.

(** C5, as stated, fails for [avg_time]: a call of 10 ms followed by a
    call of 2 ms brings the average from 10 ms down to 6 ms. *)
Lemma avg_time_decreases :
  let before := [request "init" (Samples.calm 3);
                 process_request "AAAAAA==" (Samples.calm 10)] in
  let after := [process_request "AAAAAA==" (Samples.calm 2)] in
  let st := processing_stats (run Samples.str0 (new_service false) before) in
  let st' := processing_stats
               (run Samples.str0 (new_service false) (before ++ after)%list) in
  avg_time st = Samples.ms 10 /\ avg_time st' = Samples.ms 6
  /\ SFltb (avg_time st') (avg_time st) = true
  /\ ~ float_le (avg_time st) (avg_time st').
Proof.
  cbv zeta. split; [reflexivity|]. split; [reflexivity|].
  split; [reflexivity|]. unfold float_le. discriminate.
Qed.

End Monotone.

(** ** The session over a run *)

Section Session.
Local Open Scope string_scope.
Implicit Types (py_str : json -> string) (s : service) (w : world).

Lemma initialize_model_keeps s w :
  device (snd (initialize_model s w)) = device s
  /\ processing_stats (snd (initialize_model s w)) = processing_stats s
  /\ (apply_model s = true -> apply_model (snd (initialize_model s w)) = true).
Proof.
  unfold initialize_model, place_model.
  destruct (load w); try (repeat split; auto; fail);
    destruct (placement w); repeat split; auto.
Qed.

Lemma main_step_keeps py_str s (l : line) :
  device (snd (main_step py_str s l)) = device s
  /\ (apply_model s = true -> apply_model (snd (main_step py_str s l)) = true).
Proof.
  destruct (is_kind "init" l) eqn:K.
  - rewrite (main_step_init _ _ _ K).
    destruct (initialize_model_keeps s (env l)) as (D & _ & A). auto.
  - destruct (main_step_same_model py_str s l K) as (_ & A & D & _).
    rewrite A, D. auto.
Qed.

(** X1.  The device picked when the service is built stays the
    session's device through every command: no handler, [init]
    included, changes it, and a [health] answer reports it. *)
Theorem device_is_fixed py_str (cuda_available : bool) (lines : list line) w :
  let s := run py_str (new_service cuda_available) lines in
  device s = (if cuda_available then "cuda" else "cpu")
  /\ lookup "device" (fst (main_step py_str s (request "health" w)))
     = Some (PStr (if cuda_available then "cuda" else "cpu")).
Proof.
  cbv zeta.
  assert (forall s, device (run py_str s lines) = device s) as D.
  { induction lines as [|l rest IH]; intros s; [reflexivity|].
    rewrite run_cons, IH. apply main_step_keeps. }
  split; [apply (D (new_service cuda_available))|].
  rewrite main_step_health. cbn. rewrite D. reflexivity.
Qed.

(** X2.  [initialize_model] never touches the statistics, and calling
    it again in the same environment changes nothing more: the answer
    and the state are those of the first call. *)
Theorem init_is_idempotent s w :
  processing_stats (snd (initialize_model s w)) = processing_stats s
  /\ initialize_model (snd (initialize_model s w)) w = initialize_model s w.
Proof.
  split; [apply initialize_model_keeps|].
  unfold initialize_model, place_model.
  destruct (load w) eqn:L; cbn [snd]; try (rewrite L; reflexivity);
    destruct (placement w) eqn:P; cbn [snd]; rewrite ?L, ?P; reflexivity.
Qed.

(** X3.  When the model is loaded but moving it to the device (or
    putting it in evaluation mode) raises, the answer is an error and
    the flag and the statistics stay as they were, yet the freshly
    loaded model has already replaced the session's model: a ready
    session goes on serving with the new model. *)
Theorem failed_placement_keeps_loaded_model
        s w (m : model_handle) (msg : string) :
  load w = Demucs_loaded m \/ load w = SpeechBrain_loaded m ->
  placement w = Some msg ->
  let out := fst (initialize_model s w) in
  let s' := snd (initialize_model s w) in
  status out = Some (PStr "error")
  /\ message out = Some (PStr ("Model initialization failed: " ++ msg))
  /\ model s' = Some m
  /\ is_initialized s' = is_initialized s
  /\ processing_stats s' = processing_stats s.
Proof.
  intros [L|L] P; cbv zeta; unfold initialize_model, place_model;
    rewrite L, P; repeat split.
Qed.

Lemma failed_placement_keeps_loaded_model_witness :
  model (snd (initialize_model (new_service true) unplaceable))
  = Some Samples.dns64
  /\ is_initialized (snd (initialize_model (new_service true) unplaceable))
     = false.
Proof.
  pose proof (failed_placement_keeps_loaded_model
                (new_service true) unplaceable Samples.dns64
                "CUDA error: out of memory"
                (or_introl eq_refl) eq_refl) as (_ & _ & M & I & _).
  split; [exact M | exact I].
Defined.

(** X4.  Once a Demucs load has set [apply_model], the attribute stays
    set for the rest of the session: after a later SpeechBrain load
    the model is still run through [apply_model], not through
    [enhance_batch]. *)
Theorem apply_model_stays_set py_str (lines : list line) s :
  apply_model s = true -> apply_model (run py_str s lines) = true.
Proof.
  revert s. induction lines as [|l rest IH]; intros s A; [exact A|].
  rewrite run_cons. apply IH. apply main_step_keeps. exact A.
Qed.

Lemma apply_model_stays_set_witness :
  apply_model (run Samples.str0 Samples.ready [request "init" speechbrain])
  = true.
Proof.
  apply (apply_model_stays_set Samples.str0 [request "init" speechbrain]
           Samples.ready).
  reflexivity.
Defined.

Lemma run_stays_ready py_str (lines : list line) :
  forall s, is_initialized s = true ->
            is_initialized (run py_str s lines) = true.
Proof.
  induction lines as [|l rest IH]; intros s R; [exact R|].
  rewrite run_cons. apply IH.
  destruct (is_kind "init" l) eqn:K.
  - rewrite (main_step_init _ _ _ K).
    destruct (initialize_model_flag s (env l)) as [[_ F] | [_ F]];
      rewrite F; auto.
  - rewrite (main_step_not_init _ _ _ K). exact R.
Qed.

Lemma initialized_after_init py_str (lines : list line) :
  forall s, (0 < inits py_str s lines)%nat ->
            is_initialized (run py_str s lines) = true.
Proof.
  induction lines as [|l rest IH]; intros s P; [cbn in P; lia|].
  rewrite run_cons. rewrite inits_cons in P.
  destruct (is_kind "init" l) eqn:K.
  - rewrite (main_step_init _ _ _ K) in *.
    destruct (initialize_model_flag s (env l)) as [[S F] | [S F]].
    + apply run_stays_ready. exact F.
    + apply IH. unfold succeeded in P. rewrite S in P. cbn in P. exact P.
  - cbn [andb] in P. apply IH. exact P.
Qed.

(** X5.  A [health] command is a pure read: the state is unchanged,
    and the answer says [model_loaded: true] and [status: healthy]
    exactly when some [init] of the session was answered [success];
    otherwise [model_loaded: false] and [status: not_initialized].
    Missing psutil shows only inside [memory_usage]. *)
Theorem health_tells_initialization
        py_str (cuda_available : bool) (lines : list line) w :
  let s := run py_str (new_service cuda_available) lines in
  let loaded := (0 <? inits py_str (new_service cuda_available) lines)%nat in
  let out := fst (main_step py_str s (request "health" w)) in
  snd (main_step py_str s (request "health" w)) = s
  /\ lookup "model_loaded" out = Some (PBool loaded)
  /\ status out
     = Some (PStr (if loaded then "healthy" else "not_initialized"))
  /\ (memory w = Psutil_missing ->
      lookup "memory_usage" out
      = Some (PDict [("error", PStr "psutil not available")])).
Proof.
  cbv zeta. rewrite main_step_health. cbn [fst snd].
  assert (is_initialized (run py_str (new_service cuda_available) lines)
          = (0 <? inits py_str (new_service cuda_available) lines)%nat) as E.
  { destruct (Nat.ltb_spec 0 (inits py_str (new_service cuda_available) lines)).
    - apply initialized_after_init. assumption.
    - apply uninitialized_without_init; [reflexivity | lia]. }
  unfold health_check, status. cbn [lookup String.eqb Ascii.eqb Bool.eqb].
  rewrite E. repeat split. intros M. unfold get_memory_usage.
  rewrite M. reflexivity.
Qed.

Lemma health_tells_initialization_witness :
  lookup "memory_usage"
         (fst (main_step Samples.str0
                 (run Samples.str0 (new_service false)
                      [request "init" (Samples.calm 1)])
                 (request "health" (Samples.calm 1))))
  = Some (PDict [("error", PStr "psutil not available")]).
Proof.
  apply (health_tells_initialization Samples.str0 false
           [request "init" (Samples.calm 1)] (Samples.calm 1)).
  reflexivity.
Defined.

End Session.

(** ** Every turn of the loop *)

Section Turns.
Local Open Scope string_scope.
Implicit Types (py_str : json -> string) (s : service) (w : world).

Lemma match_length_len (d a d' : ndarray) :
  match_length d a = inr d' ->
  exists n, np_len a = Some n /\ np_len d' = Some n.
Proof.
  unfold match_length. destruct (np_len d) as [ld|] eqn:Ld; [|discriminate].
  destruct (np_len a) as [la|] eqn:La; [|discriminate].
  destruct (Nat.eqb_spec ld la) as [E|N].
  - intros H. injection H as <-. exists la. subst. auto.
  - destruct (Nat.ltb_spec la ld) as [L|G]; intros H; injection H as <-;
      exists la; split; auto; unfold np_len in *.
    + unfold take. destruct (shape d) as [|n rest]; [discriminate|].
      injection Ld as ->. cbn. f_equal. lia.
    + unfold pad. destruct (shape d) as [|n rest]; [discriminate|].
      injection Ld as ->. cbn. f_equal. lia.
Qed.

Lemma process_ends py_str s (l : line) :
  is_kind "process" l = true -> process_end py_str s l.
Proof.
  intros K. unfold is_kind, command_of in K. destruct l as [p w].
  cbn [parsed env] in *. destruct p as [| |c]; [discriminate..|].
  destruct c; try discriminate.
  pose proof (main_step_process py_str s d w K) as M.
  unfold handle_process in M.
  destruct (truthy (json_get "audio" d)); cbn [negb] in M;
    [|apply Refused; rewrite M; reflexivity].
  destruct (decode_audio (json_get "audio" d)) as [e|a];
    [apply Refused; rewrite M; reflexivity|].
  unfold process_audio in M.
  destruct (is_initialized s); [|apply Refused; rewrite M; reflexivity].
  destruct (model s) as [m|]; [|apply Refused; rewrite M; reflexivity].
  destruct (size a =? 0)%nat; [apply Refused; rewrite M; reflexivity|].
  destruct (denoise s m (renormalize a) w) as [e|t] eqn:D;
    [apply Failed; rewrite M; reflexivity|].
  assert (exists n, np_len (renormalize a) = Some n /\ np_len t = Some n)
    as (n & La & Lt).
  { unfold denoise in D. destruct (infer w m (apply_model s) _);
      [discriminate|]. apply (match_length_len _ _ _ D). }
  rewrite La, Lt in M. cbn [fst snd env] in *.
  apply (Served py_str s _ n (Base64.b64encode_str (tobytes t)));
    rewrite M; reflexivity.
Qed.

Lemma main_step_idle py_str s (l : line) :
  is_kind "init" l = false -> is_kind "process" l = false ->
  snd (main_step py_str s l) = s.
Proof.
  intros Ki Kp. unfold is_kind, command_of, main_step in *.
  destruct l as [p w]. cbn [parsed env] in *.
  destruct p as [| |c]; [reflexivity..|]. destruct c; try reflexivity.
  unfold dispatch. rewrite Ki, Kp.
  destruct (is_command "health" (json_get "command" d));
    match goal with
    | |- context [json_serializable ?v] => destruct (json_serializable v)
    end; reflexivity.
Qed.

(** X6.  A line that is neither an [init] nor a [process] command, be
    it malformed JSON, a JSON value that is not an object, an unknown
    or missing command, or a [health] command, leaves the whole
    session state as it was. *)
Theorem other_lines_change_nothing py_str s (l : line) :
  is_kind "init" l = false -> is_kind "process" l = false ->
  snd (main_step py_str s l) = s
  /\ run py_str s [l] = s.
Proof.
  intros Ki Kp. split; [apply main_step_idle; assumption|].
  rewrite run_cons. apply main_step_idle; assumption.
Qed.

Lemma other_lines_change_nothing_witness :
  snd (main_step Samples.str0 Samples.ready
                 (Line (Loaded (JList [JInt 1])) Samples.failing))
  = Samples.ready.
Proof.
  apply (other_lines_change_nothing Samples.str0 Samples.ready
           (Line (Loaded (JList [JInt 1])) Samples.failing));
    reflexivity.
Defined.

Lemma main_step_envelope py_str s (l : line) :
  let out := fst (main_step py_str s l) in
  json_serializable (PDict out) = true
  /\ exists st, status out = Some (PStr st) /\ In st statuses.
Proof.
  cbv zeta. unfold statuses.
  destruct (is_kind "process" l) eqn:Kp.
  { destruct (process_ends py_str s l Kp) as [_ S _ | _ E | n a _ E].
    - split.
      + unfold main_step. destruct (parsed l); [reflexivity..|].
        destruct (dispatch py_str s command (env l)) as [e|[r s']];
          [reflexivity|].
        destruct (json_serializable (PDict r)) eqn:J; [exact J|reflexivity].
      + exists "error". split; [exact S | cbn; auto].
    - rewrite E. split; [reflexivity|]. exists "error". cbn. auto.
    - rewrite E. split; [reflexivity|]. exists "success". cbn. auto. }
  destruct (is_kind "init" l) eqn:Ki.
  { rewrite (main_step_init _ _ _ Ki).
    unfold initialize_model, place_model.
    destruct (load (env l));
      try (split; [reflexivity|]; exists "error"; cbn; auto; fail);
      destruct (placement (env l));
      (split; [reflexivity|]);
      [exists "error" | exists "success" | exists "error" | exists "success"];
      cbn; auto. }
  unfold is_kind, command_of, main_step in *.
  destruct l as [p w]. cbn [parsed env] in *.
  destruct p as [| |c];
    [split; [reflexivity|]; exists "error"; cbn; auto..|].
  destruct c;
    try (split; [reflexivity|]; exists "error"; cbn; auto; fail).
  unfold dispatch. rewrite Ki, Kp.
  destruct (is_command "health" (json_get "command" d)).
  - assert (json_serializable (PDict (health_check s w)) = true) as J.
    { unfold health_check, get_memory_usage. destruct (memory w); reflexivity. }
    rewrite J. split; [exact J|]. unfold health_check, status. cbn.
    destruct (is_initialized s);
      [exists "healthy" | exists "not_initialized"]; auto 6.
  - split; [reflexivity|]. exists "error". cbn. auto.
Qed.

(** X7.  The loop writes exactly one envelope per line read, in
    order; every envelope can be serialised by [json.dumps] (no numpy
    array ever reaches the output) and carries a [status] that is one
    of [success], [error], [healthy], [not_initialized]. *)
Theorem one_envelope_per_line py_str s (lines : list line) :
  let outs := fst (main_loop py_str s lines) in
  List.length outs = List.length lines
  /\ Forall (fun out =>
               json_serializable (PDict out) = true
               /\ exists st, status out = Some (PStr st) /\ In st statuses)
            outs.
Proof.
  cbv zeta. revert s. induction lines as [|l rest IH]; intros s.
  - split; [reflexivity | constructor].
  - rewrite main_loop_cons. cbn [fst List.length].
    destruct (IH (snd (main_step py_str s l))) as [L F].
    split; [rewrite L; reflexivity|].
    constructor; [apply main_step_envelope | exact F].
Qed.

End Turns.

(** ** Counting over a run *)

Section Counting.
Local Open Scope string_scope.
Implicit Types (py_str : json -> string) (s : service) (w : world).

Lemma service_errors_cons py_str s (l : line) (rest : list line) :
  service_errors py_str s (l :: rest)
  = ((if is_kind "process" l
         && service_error_answer (fst (main_step py_str s l))
      then 1 else 0)
     + service_errors py_str (snd (main_step py_str s l)) rest)%nat.
Proof.
  cbn [service_errors]. destruct (main_step py_str s l). reflexivity.
Qed.

Lemma served_times_cons py_str s (l : line) (rest : list line) :
  served_times py_str s (l :: rest)
  = ((if is_kind "process" l && succeeded (fst (main_step py_str s l))
      then [elapsed_ms (env l)] else [])
     ++ served_times py_str (snd (main_step py_str s l)) rest)%list.
Proof.
  cbn [served_times]. destruct (main_step py_str s l). reflexivity.
Qed.

Lemma main_step_other_stats py_str s (l : line) :
  is_kind "process" l = false ->
  processing_stats (snd (main_step py_str s l)) = processing_stats s.
Proof.
  intros Kp. destruct (is_kind "init" l) eqn:Ki.
  - rewrite (main_step_init _ _ _ Ki).
    apply initialize_model_keeps.
  - rewrite main_step_idle; auto.
Qed.

(** X8.  The [errors] counter counts exactly the lines decoded to a
    [process] command whose answer was the envelope
    "Service error: ..." of the loop: the calls that failed inside
    [process_audio].  Commands refused before processing (no audio,
    undecodable audio, model not initialized, empty buffer) are not
    counted.  Nor is a line that could not be decoded to a command at
    all: when reading or decoding it raises, the answer is a
    "Service error: ..." envelope too, and the statistics stay as
    they were. *)
Theorem errors_count_service_errors py_str (lines : list line) s :
  errors (processing_stats (run py_str s lines))
  = (errors (processing_stats s) + service_errors py_str s lines)%nat
  /\ (forall msg w,
        let l := Line (Loads_raises msg) w in
        service_error_answer (fst (main_step py_str s l)) = true
        /\ is_kind "process" l = false
        /\ processing_stats (snd (main_step py_str s l))
           = processing_stats s).
Proof.
  split.
  2: { intros msg w. cbv zeta. unfold main_step. cbn [parsed fst snd].
       split; [|split; reflexivity].
       unfold service_error_answer, service_error, message.
       cbn [lookup String.eqb Ascii.eqb Bool.eqb exn_str].
       apply prefix_append. }
  revert s. induction lines as [|l rest IH]; intros s.
  - cbn. lia.
  - rewrite run_cons, service_errors_cons, IH.
    destruct (is_kind "process" l) eqn:Kp; cbn [andb].
    + destruct (process_ends py_str s l Kp) as [S _ A | S E | n a S E].
      * rewrite S, A. lia.
      * rewrite S, E. unfold service_error_answer, service_error, message.
        cbn [lookup String.eqb Ascii.eqb Bool.eqb].
        rewrite prefix_append. cbn. lia.
      * rewrite S, E. cbn. lia.
    + rewrite main_step_other_stats by exact Kp. lia.
Qed.

(** X9.  Only [process] commands touch the statistics, and each of
    them adds at most one to [total_processed] and [errors] together:
    over a run the two counters grow by no more than the number of
    [process] commands, and not at all when there is none. *)
Theorem counters_bounded_by_process_commands py_str (lines : list line) s :
  let st := processing_stats s in
  let st' := processing_stats (run py_str s lines) in
  (total_processed st' + errors st'
   <= total_processed st + errors st + process_lines lines)%nat
  /\ (process_lines lines = O -> st' = st).
Proof.
  cbv zeta. revert s. unfold process_lines.
  induction lines as [|l rest IH]; intros s.
  - cbn. split; [lia | reflexivity].
  - rewrite run_cons. cbn [filter].
    destruct (IH (snd (main_step py_str s l))) as [B Z].
    destruct (is_kind "process" l) eqn:Kp.
    + split; [|discriminate]. cbn [List.length].
      destruct (process_ends py_str s l Kp) as [S _ _ | S _ | n a S _];
        rewrite S in B |- *;
        cbn [with_stats processing_stats record_error record_success
             total_processed errors] in B; lia.
    + rewrite (main_step_other_stats _ _ _ Kp) in B, Z.
      split; [exact B | exact Z].
Qed.

Lemma counters_bounded_by_process_commands_witness :
  processing_stats
    (run Samples.str0 Samples.ready
         [request "health" (Samples.calm 1); request "init" (Samples.calm 1)])
  = processing_stats Samples.ready.
Proof.
  apply (counters_bounded_by_process_commands Samples.str0
           [request "health" (Samples.calm 1); request "init" (Samples.calm 1)]
           Samples.ready).
  reflexivity.
Defined.

(** X10.  The statistics sent with a successful [process] answer are
    the ones a [health] command sent right after it reports: both
    copy the session's statistics after the call was counted. *)
Theorem answer_stats_match_health py_str s (l : line) w :
  is_kind "process" l = true ->
  succeeded (fst (main_step py_str s l)) = true ->
  lookup "stats" (fst (main_step py_str s l))
  = lookup "stats"
      (fst (main_step py_str (snd (main_step py_str s l))
                      (request "health" w))).
Proof.
  intros Kp Su. rewrite main_step_health. cbn [fst].
  destruct (process_ends py_str s l Kp) as [_ S _ | _ E | n a S E].
  - unfold succeeded in Su. rewrite S in Su. discriminate.
  - rewrite E in Su. discriminate.
  - rewrite S, E. reflexivity.
Qed.

Lemma answer_stats_match_health_witness :
  let l := process_request (encode_buffer [Samples.half32]) (Samples.calm 3) in
  lookup "stats" (fst (main_step Samples.str0 Samples.ready l))
  = lookup "stats"
      (fst (main_step Samples.str0 (snd (main_step Samples.str0 Samples.ready l))
                      (request "health" (Samples.calm 1)))).
Proof.
  apply (answer_stats_match_health Samples.str0 Samples.ready
           (process_request (encode_buffer [Samples.half32]) (Samples.calm 3))
           (Samples.calm 1));
    vm_compute; reflexivity.
Defined.

(** X11.  In a successful [process] answer [output_samples] equals
    [input_samples], whatever the rank of the tensor the model
    returned: the output is always cut or padded along its first axis
    to the length of the input before it is counted. *)
Theorem answer_sample_counts_agree py_str s (l : line) :
  is_kind "process" l = true ->
  succeeded (fst (main_step py_str s l)) = true ->
  exists n : nat,
    lookup "input_samples" (fst (main_step py_str s l))
    = Some (PInt (Z.of_nat n))
    /\ lookup "output_samples" (fst (main_step py_str s l))
       = Some (PInt (Z.of_nat n))
    /\ lookup "processing_time" (fst (main_step py_str s l))
       = Some (PFloat (elapsed_ms (env l))).
Proof.
  intros Kp Su.
  destruct (process_ends py_str s l Kp) as [_ S _ | _ E | n a S E].
  - unfold succeeded in Su. rewrite S in Su. discriminate.
  - rewrite E in Su. discriminate.
  - exists n. rewrite E. repeat split.
Qed.

Lemma answer_sample_counts_agree_witness :
  exists n : nat,
    let l := process_request
               (encode_buffer [Samples.half32; Samples.two32])
               (Samples.answering (NdArray [1%nat; 1%nat; 3%nat]
                                     [Samples.half32; Samples.half32;
                                      Samples.half32])) in
    lookup "input_samples" (fst (main_step Samples.str0 Samples.ready l))
    = Some (PInt (Z.of_nat n))
    /\ lookup "output_samples" (fst (main_step Samples.str0 Samples.ready l))
       = Some (PInt (Z.of_nat n))
    /\ lookup "processing_time" (fst (main_step Samples.str0 Samples.ready l))
       = Some (PFloat (Samples.ms 1)).
Proof.
  apply (answer_sample_counts_agree Samples.str0 Samples.ready
           (process_request
               (encode_buffer [Samples.half32; Samples.two32])
               (Samples.answering (NdArray [1%nat; 1%nat; 3%nat]
                                     [Samples.half32; Samples.half32;
                                      Samples.half32]))));
    vm_compute; reflexivity.
Defined.

Lemma py_max_covers (a b : float64) :
  a <> S754_nan -> b <> S754_nan -> SFleb b (py_max a b) = true.
Proof.
  intros Na Nb. unfold py_max. destruct (SFltb a b) eqn:L.
  - apply SFleb_refl, Nb.
  - destruct (SFleb_total b a Nb Na) as [H|H]; [exact H|].
    rewrite H in L. discriminate.
Qed.

(** X12.  [max_time] is an upper bound of the processing time of every
    successful call of the run, as long as the measured times are
    numbers (a NaN time is never taken as the maximum, and never
    makes [max_time] a NaN). *)
Theorem max_time_bounds_served_times py_str (lines : list line) s :
  a_number (max_time (processing_stats s)) ->
  a_number (max_time (processing_stats (run py_str s lines)))
  /\ Forall (fun t =>
               a_number t ->
               float_le t (max_time (processing_stats (run py_str s lines))))
            (served_times py_str s lines).
Proof.
  unfold a_number. revert s.
  induction lines as [|l rest IH]; intros s N.
  - split; [exact N | constructor].
  - rewrite run_cons, served_times_cons.
    set (s1 := snd (main_step py_str s l)).
    assert (max_time (processing_stats s1) <> S754_nan
            /\ (is_kind "process" l && succeeded (fst (main_step py_str s l))
                = true ->
                elapsed_ms (env l) <> S754_nan ->
                SFleb (elapsed_ms (env l)) (max_time (processing_stats s1))
                = true)) as [N1 B1].
    { subst s1.
      destruct (main_step_stats py_str s l) as [(K & S & E) | (K & [E|E])].
      - rewrite E. cbn [record_success max_time]. split.
        + apply py_max_bounds, N.
        + intros _ Nt. apply py_max_covers; assumption.
      - rewrite E, K. split; [exact N | discriminate].
      - rewrite E, K. split; [exact N | discriminate]. }
    destruct (IH s1 N1) as [N2 F]. split; [exact N2|].
    apply Forall_app. split; [|exact F].
    destruct (is_kind "process" l && succeeded (fst (main_step py_str s l)));
      constructor; [|constructor].
    intros Nt.
    destruct (run_counters_grow py_str rest s1 N1) as (_ & _ & G & _).
    unfold float_le in *.
    apply (SFleb_trans _ (max_time (processing_stats s1))); [|exact G].
    apply B1; auto.
Qed.

Lemma max_time_bounds_served_times_witness :
  a_number
    (max_time
       (processing_stats
          (run Samples.str0 Samples.ready
               [process_request (encode_buffer [Samples.half32])
                                (Samples.calm 3)]))).
Proof.
  apply (max_time_bounds_served_times Samples.str0
           [process_request (encode_buffer [Samples.half32]) (Samples.calm 3)]
           Samples.ready).
  vm_compute. discriminate.
Defined.

End Counting.

(** ** Calls that fail *)

Section Failures.
Local Open Scope string_scope.
Implicit Types (py_str : json -> string) (s : service) (w : world).

Lemma decode_audio_nonempty (v : json) (a : ndarray) :
  decode_audio v = inr a -> size a <> 0%nat -> truthy v = true.
Proof.
  destruct v as [| | | |t| |]; try discriminate.
  destruct t as [|c t]; [|reflexivity].
  cbn. intros E. injection E as <-. intros N. contradiction N. reflexivity.
Qed.

(** X13.  A [process] command whose [audio] field holds something
    other than a string never reaches [process_audio]: a value Python
    counts as false (null, false, 0, 0.0, an empty list or object) is
    answered "No audio data provided", every other value with the
    [TypeError] of [b64decode] naming the type; the state stays as it
    was. *)
Theorem non_string_audio_is_refused
        py_str s (d : list (string * json)) w :
  is_command "process" (json_get "command" d) = true ->
  (forall t, json_get "audio" d <> JStr t) ->
  main_step py_str s (Line (Loaded (JObject d)) w)
  = (if truthy (json_get "audio" d)
     then codec_failed
            (Decode_failed
               (Base64.Not_bytes_like (type_name (json_get "audio" d))))
     else no_audio,
     s).
Proof.
  intros K N. rewrite (main_step_process py_str s d w K).
  unfold handle_process.
  destruct (json_get "audio" d) as [|b|z|f|t|l|o] eqn:A;
    try (exfalso; apply (N t); reflexivity);
    destruct (truthy _); reflexivity.
Qed.

Lemma non_string_audio_is_refused_witness :
  main_step Samples.str0 Samples.ready
            (Line (Loaded (JObject [("command", JStr "process");
                                    ("audio", JInt 7)]))
                  (Samples.calm 1))
  = (codec_failed (Decode_failed (Base64.Not_bytes_like "int")),
     Samples.ready).
Proof.
  apply (non_string_audio_is_refused Samples.str0 Samples.ready
           [("command", JStr "process"); ("audio", JInt 7)] (Samples.calm 1)).
  - reflexivity.
  - intros t. cbn. discriminate.
Defined.

(** X14.  On a ready service and a decodable, non-empty buffer, when
    the model raises or returns a tensor without a first axis (a
    scalar), the caller receives neither the message of the failure
    nor the audio: the result of [process_audio] holds a numpy array,
    [json.dumps] rejects it, and the loop answers
    "Service error: Object of type ndarray is not JSON serializable".
    The call is counted in [errors], not in [total_processed]. *)
Theorem failed_call_reaches_caller_as_service_error
        py_str s (d : list (string * json)) w
        (a : ndarray) (m : model_handle) :
  is_command "process" (json_get "command" d) = true ->
  decode_audio (json_get "audio" d) = inr a -> size a <> 0%nat ->
  is_initialized s = true -> model s = Some m ->
  (exists msg,
      infer w m (apply_model s) (to_tensor (renormalize a)) = Raises msg)
  \/ (exists t,
         infer w m (apply_model s) (to_tensor (renormalize a)) = Returns t
         /\ shape (from_tensor t) = []) ->
  let out := fst (main_step py_str s (Line (Loaded (JObject d)) w)) in
  let s' := snd (main_step py_str s (Line (Loaded (JObject d)) w)) in
  out = service_error Not_serializable
  /\ lookup "audio" out = None
  /\ errors (processing_stats s') = S (errors (processing_stats s))
  /\ total_processed (processing_stats s')
     = total_processed (processing_stats s)
  /\ same_model s s'.
Proof.
  intros K D N I M F. cbv zeta.
  rewrite (main_step_process py_str s d w K).
  unfold handle_process.
  rewrite (decode_audio_nonempty _ _ D N), D. cbn [negb].
  unfold process_audio. rewrite I, M.
  apply Nat.eqb_neq in N. rewrite N.
  assert (exists e, denoise s m (renormalize a) w = inl e) as [e ->].
  { unfold denoise. destruct F as [[msg ->] | (t & -> & Sh)].
    - eexists. reflexivity.
    - unfold match_length, np_len. rewrite Sh. eexists. reflexivity. }
  cbn. repeat split.
Qed.

Lemma failed_call_reaches_caller_as_service_error_witness :
  let l := process_request (encode_buffer [Samples.half32])
             (Samples.answering (NdArray [] [Samples.half32])) in
  fst (main_step Samples.str0 Samples.ready l)
  = service_error Not_serializable
  /\ errors (processing_stats (snd (main_step Samples.str0 Samples.ready l)))
     = 1%nat.
Proof.
  pose proof (failed_call_reaches_caller_as_service_error
                Samples.str0 Samples.ready
                [("command", JStr "process");
                 ("audio", JStr (encode_buffer [Samples.half32]))]
                (Samples.answering (NdArray [] [Samples.half32]))
                (vector [Samples.half32]) Samples.dns64
                eq_refl eq_refl
                (fun E : size (vector [Samples.half32]) = 0%nat =>
                   O_S _ (eq_sym E))
                eq_refl eq_refl
                (or_intror
                   (ex_intro _ (NdArray [] [Samples.half32])
                             (conj eq_refl eq_refl))))
    as (O & _ & E & _).
  split; [exact O | exact E].
Defined.

End Failures.

(** ** The integration test runner *)

Section Runner.
Import Integration.
Local Open Scope string_scope.

Lemma count_passed_le (outcomes : list test_outcome) :
  (count_passed outcomes <= List.length outcomes)%nat.
Proof.
  induction outcomes as [|[]]; cbn [count_passed List.length]; lia.
Qed.

Lemma count_passed_all (outcomes : list test_outcome) :
  count_passed outcomes = List.length outcomes
  <-> Forall (eq Returns_true) outcomes.
Proof.
  induction outcomes as [|o rest IH].
  - split; [constructor | reflexivity].
  - pose proof (count_passed_le rest) as L. split.
    + destruct o; cbn [count_passed List.length]; intros E; try lia.
      constructor; [reflexivity|]. apply IH. lia.
    + intros F. inversion F as [|? ? <- F']; subst.
      cbn [count_passed List.length]. f_equal. apply IH, F'.
Qed.

(** X15.  The test runner reports [success] exactly when every test
    returned [True]; a test that returns [False] or raises is counted
    as not passed, the remaining tests still run, and the report is
    then a [warning] with the two counts; [tests_passed] never exceeds
    [tests_total]. *)
Theorem test_report_verdict (outcomes : list test_outcome) :
  let r := run_tests outcomes in
  lookup "tests_total" r = Some (PInt (Z.of_nat (List.length outcomes)))
  /\ lookup "tests_passed" r = Some (PInt (Z.of_nat (count_passed outcomes)))
  /\ (count_passed outcomes <= List.length outcomes)%nat
  /\ (status r = Some (PStr "success")
      <-> Forall (eq Returns_true) outcomes)
  /\ (status r = Some (PStr "warning")
      <-> Exists (fun o => o <> Returns_true) outcomes)
  /\ json_serializable (PDict r) = true.
Proof.
  cbv zeta. unfold run_tests, report.
  pose proof (count_passed_le outcomes) as L.
  pose proof (count_passed_all outcomes) as A.
  destruct (Nat.eqb_spec (count_passed outcomes) (List.length outcomes))
    as [E|N].
  - repeat split; auto.
    + intros _. apply A, E.
    + discriminate.
    + intros X. apply A in E. apply Exists_exists in X.
      destruct X as (o & Io & No). rewrite Forall_forall in E.
      contradiction No. symmetry. apply E, Io.
  - repeat split; auto.
    + discriminate.
    + intros F. apply A in F. contradiction.
    + intros _. apply neg_Forall_Exists_neg.
      * intros o. destruct o as [| |msg]; [left; reflexivity | |];
          right; discriminate.
      * intros F. apply N, A.
        eapply Forall_impl; [|exact F]. intros o Ho. symmetry. exact Ho.
Qed.

End Runner.

(** ** The codec of the audio field *)

Section Codec.
Import Base64.

Ltac sextets x y :=
  let R := fresh "R" in
  pose proof (sextets_range x y) as R;
  do 5 (apply andb_prop in R; destruct R as [R ?]).

Ltac alphabet v :=
  let Hp := fresh "Hp" in
  let Hv := fresh "Hv" in
  destruct (table_a2b_b2a v ltac:(assumption)) as [Hp Hv];
  rewrite ?Hp, ?Hv; clear Hp Hv.

(** X16.  The base64 text of [n] bytes has [4 * ceil(n / 3)]
    characters. *)
Theorem b2a_base64_length (data : bytes) :
  List.length (b2a_base64 data) = (4 * ((List.length data + 2) / 3))%nat.
Proof.
  induction data as [|x|x y|x y z rest IH] using list_ind3.
  - reflexivity.
  - reflexivity.
  - reflexivity.
  - cbn [b2a_base64 List.length]. rewrite IH.
    replace (S (S (S (List.length rest))) + 2)%nat
      with (1 * 3 + (List.length rest + 2))%nat by lia.
    rewrite Nat.div_add_l by lia. lia.
Qed.

Lemma a2b_scan_skips (ascii : bytes) :
  forall quad_pos leftchar pads produced,
    a2b_scan (filter significant ascii) quad_pos leftchar pads produced
    = a2b_scan ascii quad_pos leftchar pads produced.
Proof.
  induction ascii as [|c rest IH]; intros q l p n; [reflexivity|].
  cbn [filter]. unfold significant at 1.
  destruct (Byte.eqb c BASE64_PAD) eqn:P; cbn [orb].
  - cbn [a2b_scan]. rewrite P.
    destruct (2 <=? q)%nat; [|apply IH].
    destruct (4 <=? q + S p)%nat; [reflexivity | apply IH].
  - destruct (table_a2b c) as [v|] eqn:T.
    + cbn [a2b_scan]. rewrite P, T.
      destruct q as [|[|[|q]]]; rewrite IH; reflexivity.
    + cbn [a2b_scan]. rewrite P, T. apply IH.
Qed.

Lemma is_ascii_bytes (l : bytes) :
  is_ascii (string_of_list_byte l) = forallb (fun c => byte_val c <? 128) l.
Proof.
  unfold is_ascii. rewrite list_byte_of_string_of_list_byte. reflexivity.
Qed.

Lemma forallb_filter {A : Type} (p q : A -> bool) (l : list A) :
  forallb p l = true -> forallb p (filter q l) = true.
Proof.
  induction l as [|x l IH]; [reflexivity|]. cbn [forallb filter].
  intros H. apply andb_prop in H. destruct H as [Hx Hl].
  destruct (q x); [cbn [forallb]; rewrite Hx|]; auto.
Qed.

(** X17.  [b64decode] reads only the characters of the alphabet and
    the padding: line breaks, blanks and every other ASCII character
    in the audio text are skipped, so a text and the same text
    without them decode alike (to the same bytes, or to the same
    error). *)
Theorem b64decode_skips_other_characters (text : string) :
  is_ascii text = true ->
  b64decode_str
    (string_of_list_byte (filter significant (list_byte_of_string text)))
  = b64decode_str text.
Proof.
  intros A. unfold b64decode_str. rewrite is_ascii_bytes.
  unfold is_ascii in A. rewrite (forallb_filter _ _ _ A).
  fold (is_ascii text). unfold is_ascii. rewrite A.
  rewrite list_byte_of_string_of_list_byte.
  unfold a2b_base64. rewrite a2b_scan_skips. reflexivity.
Qed.

Lemma b64decode_skips_other_characters_witness :
  b64decode_str
    (string_of_list_byte
       (filter significant (list_byte_of_string "AAAA AAA="%string)))
  = b64decode_str "AAAA AAA="%string.
Proof.
  apply (b64decode_skips_other_characters "AAAA AAA="%string).
  reflexivity.
Defined.

Lemma a2b_scan_b2a_then (data junk : bytes) :
  (List.length data mod 3 <> 0)%nat ->
  forall produced,
    a2b_scan (b2a_base64 data ++ junk) 0 0 0 produced = inr data.
Proof.
  induction data as [|x|x y|x y z rest IH] using list_ind3;
    intros L produced.
  - contradiction L. reflexivity.
  - sextets x x. cbn [b2a_base64 a2b_scan app].
    alphabet (sextet0 x). alphabet (Z.shiftl (Z.land (byte_val x) 3) 4).
    change (Byte.eqb BASE64_PAD BASE64_PAD) with true. cbn [Nat.leb Nat.add].
    rewrite (Byte.byte_dec_bl _ _ (tail_byte1 x)). reflexivity.
  - sextets x y. sextets y y. cbn [b2a_base64 a2b_scan app].
    alphabet (sextet0 x). alphabet (sextet1 x y).
    alphabet (Z.shiftl (Z.land (byte_val y) 15) 2).
    change (Byte.eqb BASE64_PAD BASE64_PAD) with true. cbn [Nat.leb Nat.add].
    pose proof (quad_byte0 x y) as Q. apply andb_prop in Q.
    destruct Q as [Q0 Q1]. apply Z.eqb_eq in Q1.
    rewrite (Byte.byte_dec_bl _ _ Q0), Q1.
    rewrite (Byte.byte_dec_bl _ _ (tail_byte2 y)). reflexivity.
  - sextets x y. sextets y z. sextets z z.
    cbn [b2a_base64 a2b_scan app].
    alphabet (sextet0 x). alphabet (sextet1 x y).
    alphabet (sextet2 y z). alphabet (sextet3 z).
    pose proof (quad_byte0 x y) as Q. apply andb_prop in Q.
    destruct Q as [Q0 Q1]. apply Z.eqb_eq in Q1.
    pose proof (quad_byte1 y z) as T. apply andb_prop in T.
    destruct T as [T0 T1]. apply Z.eqb_eq in T1.
    rewrite (Byte.byte_dec_bl _ _ Q0), Q1.
    rewrite (Byte.byte_dec_bl _ _ T0), T1.
    rewrite (Byte.byte_dec_bl _ _ (quad_byte2 z)).
    rewrite IH; [reflexivity|].
    intros E. apply L. cbn [List.length].
    replace (S (S (S (List.length rest)))) with (List.length rest + 1 * 3)%nat
      by lia.
    rewrite Nat.Div0.mod_add. exact E.
Qed.

Lemma list_byte_of_string_app (s t : string) :
  list_byte_of_string (s ++ t)
  = (list_byte_of_string s ++ list_byte_of_string t)%list.
Proof.
  induction s as [|c s IH]; [reflexivity|].
  cbn. f_equal. exact IH.
Qed.

(** X18.  When the encoded bytes end in padding (their number is not
    a multiple of three), [b64decode] stops at the padding: whatever
    ASCII text follows the encoding is ignored. *)
Theorem b64decode_stops_at_padding (data : bytes) (junk : string) :
  (List.length data mod 3 <> 0)%nat -> is_ascii junk = true ->
  b64decode_str (b64encode_str data ++ junk) = inr data.
Proof.
  intros L A. unfold b64decode_str, b64encode_str, is_ascii, a2b_base64.
  rewrite list_byte_of_string_app, list_byte_of_string_of_list_byte.
  rewrite forallb_app, b2a_is_ascii. unfold is_ascii in A. rewrite A.
  cbn [andb]. rewrite a2b_scan_b2a_then by exact L. reflexivity.
Qed.

Lemma b64decode_stops_at_padding_witness :
  b64decode_str (b64encode_str ["a"%byte] ++ "YWJj")%string
  = inr ["a"%byte].
Proof.
  apply (b64decode_stops_at_padding ["a"%byte] "YWJj"%string);
    [cbn; discriminate | reflexivity].
Defined.

Lemma a2b_scan_unpadded (data : bytes) :
  (List.length data mod 3 <> 0)%nat ->
  forall produced,
    a2b_scan (unpadded (b2a_base64 data)) 0 0 0 produced
    = inl Incorrect_padding.
Proof.
  unfold unpadded.
  induction data as [|x|x y|x y z rest IH] using list_ind3;
    intros L produced.
  - contradiction L. reflexivity.
  - sextets x x. cbn [b2a_base64 filter].
    change (Byte.eqb BASE64_PAD BASE64_PAD) with true. cbn [negb].
    destruct (table_a2b_b2a (sextet0 x) ltac:(assumption)) as [P0 V0].
    destruct (table_a2b_b2a (Z.shiftl (Z.land (byte_val x) 3) 4)
                            ltac:(assumption)) as [P1 V1].
    rewrite P0, P1. cbn [negb a2b_scan]. rewrite P0, P1, V0, V1.
    reflexivity.
  - sextets x y. sextets y y. cbn [b2a_base64 filter].
    change (Byte.eqb BASE64_PAD BASE64_PAD) with true. cbn [negb].
    destruct (table_a2b_b2a (sextet0 x) ltac:(assumption)) as [P0 V0].
    destruct (table_a2b_b2a (sextet1 x y) ltac:(assumption)) as [P1 V1].
    destruct (table_a2b_b2a (Z.shiftl (Z.land (byte_val y) 15) 2)
                            ltac:(assumption)) as [P2 V2].
    rewrite P0, P1, P2. cbn [negb a2b_scan].
    rewrite P0, P1, P2, V0, V1, V2. reflexivity.
  - sextets x y. sextets y z. sextets z z. cbn [b2a_base64 filter].
    destruct (table_a2b_b2a (sextet0 x) ltac:(assumption)) as [P0 V0].
    destruct (table_a2b_b2a (sextet1 x y) ltac:(assumption)) as [P1 V1].
    destruct (table_a2b_b2a (sextet2 y z) ltac:(assumption)) as [P2 V2].
    destruct (table_a2b_b2a (sextet3 z) ltac:(assumption)) as [P3 V3].
    rewrite P0, P1, P2, P3. cbn [negb a2b_scan].
    rewrite P0, P1, P2, P3, V0, V1, V2, V3.
    rewrite IH; [reflexivity|].
    intros E. apply L. cbn [List.length].
    replace (S (S (S (List.length rest)))) with (List.length rest + 1 * 3)%nat
      by lia.
    rewrite Nat.Div0.mod_add. exact E.
Qed.

Lemma unpadded_text_nonempty (data : bytes) :
  data <> [] ->
  string_of_list_byte (unpadded (b2a_base64 data)) <> EmptyString.
Proof.
  intros N. unfold unpadded.
  destruct data as [|x [|y [|z rest]]]; [contradiction| | |];
    sextets x x; cbn [b2a_base64 filter];
    destruct (table_a2b_b2a (sextet0 x) ltac:(assumption)) as [P0 _];
    rewrite P0; cbn [negb string_of_list_byte]; discriminate.
Qed.

(** X19.  A client that strips the padding gets an error: the
    encoding of a byte string whose length is not a multiple of three,
    sent without its [=] characters, is rejected by [b64decode] with
    "Incorrect padding"; a [process] command that carries this text
    is answered, on any service and in any environment, with the
    envelope "Audio decoding/encoding failed: Incorrect padding", and
    the state is unchanged. *)
Theorem b64decode_needs_padding
        (py_str : json -> string) (s : service) (w : world) (data : bytes) :
  (List.length data mod 3 <> 0)%nat ->
  let text := string_of_list_byte (unpadded (b2a_base64 data)) in
  let out := fst (main_step py_str s (process_request text w)) in
  b64decode_str text = inl (Binascii Incorrect_padding)
  /\ out = codec_failed (Decode_failed (Binascii Incorrect_padding))
  /\ status out = Some (PStr "error"%string)
  /\ message out
     = Some (PStr "Audio decoding/encoding failed: Incorrect padding"%string)
  /\ snd (main_step py_str s (process_request text w)) = s.
Proof.
  intros L text.
  assert (b64decode_str text = inl (Binascii Incorrect_padding)) as E.
  { unfold text, b64decode_str. rewrite is_ascii_bytes.
    unfold unpadded at 1. rewrite (forallb_filter _ _ _ (b2a_is_ascii data)).
    rewrite list_byte_of_string_of_list_byte. unfold a2b_base64.
    rewrite a2b_scan_unpadded by exact L. reflexivity. }
  assert (truthy (JStr text) = true) as T.
  { assert (text <> EmptyString) as N.
    { apply unpadded_text_nonempty. intros ->. apply L. reflexivity. }
    destruct text; [contradiction | reflexivity]. }
  assert (main_step py_str s (process_request text w)
          = (codec_failed (Decode_failed (Binascii Incorrect_padding)), s))
    as M.
  { unfold process_request.
    rewrite (main_step_process py_str s
               [("command"%string, JStr "process"%string);
                ("audio"%string, JStr text)]
               w eq_refl).
    unfold handle_process.
    change (json_get "audio"%string _) with (JStr text).
    rewrite T. cbn [negb]. unfold decode_audio. rewrite E. reflexivity. }
  cbv zeta. rewrite M. repeat split. exact E.
Qed.

Lemma b64decode_needs_padding_witness :
  fst (main_step Samples.str0 Samples.ready
                 (process_request "YQ"%string (Samples.calm 1)))
  = codec_failed (Decode_failed (Binascii Incorrect_padding)).
Proof.
  apply (b64decode_needs_padding Samples.str0 Samples.ready (Samples.calm 1)
           ["a"%byte]).
  cbn. discriminate.
Defined.

End Codec.

(** ** Buffers of samples *)

Section Samples_of_bytes.

Lemma words_of_bytes_inv (n : nat) :
  forall buf : bytes,
    (List.length buf <= n)%nat ->
    match words_of_bytes buf with
    | Some xs =>
        flat_map (fun x => [byte0 x; byte1 x; byte2 x; byte3 x]) xs = buf
        /\ List.length buf = (4 * List.length xs)%nat
    | None => (List.length buf mod 4 <> 0)%nat
    end.
Proof.
  induction n as [|n IH]; intros buf L.
  - destruct buf; [|cbn in L; lia]. cbn. split; reflexivity.
  - destruct buf as [|b0 [|b1 [|b2 [|b3 rest]]]];
      try (cbn; (split; reflexivity) || discriminate).
    cbn [words_of_bytes]. cbn [List.length] in L.
    specialize (IH rest ltac:(lia)).
    destruct (words_of_bytes rest) as [xs|]; cbn [option_map].
    + destruct IH as [F Ln]. cbn [flat_map byte0 byte1 byte2 byte3 app].
      rewrite F. split; [reflexivity|]. cbn [List.length]. lia.
    + cbn [List.length].
      replace (S (S (S (S (List.length rest)))))
        with (List.length rest + 1 * 4)%nat by lia.
      rewrite Nat.Div0.mod_add. exact IH.
Qed.

(** X20.  [np.frombuffer(buf, dtype=np.float32)] fails exactly when
    the number of bytes is not a multiple of four; otherwise it
    yields a one-dimensional array of a quarter as many samples whose
    [tobytes()] is [buf] again. *)
Theorem frombuffer_inverse (buf : bytes) :
  (frombuffer buf = None <-> (List.length buf mod 4 <> 0)%nat)
  /\ (forall a, frombuffer buf = Some a ->
                tobytes a = buf
                /\ shape a = [size a]
                /\ List.length buf = (4 * size a)%nat).
Proof.
  pose proof (words_of_bytes_inv (List.length buf) buf (le_n _)) as H.
  unfold frombuffer. destruct (words_of_bytes buf) as [xs|];
    cbn [option_map].
  - destruct H as [F L]. split.
    + split; [discriminate|]. intros N. contradiction N.
      rewrite L, Nat.mul_comm. apply Nat.Div0.mod_mul.
    + intros a E. injection E as <-. unfold tobytes, vector, size.
      cbn [data shape]. repeat split; assumption.
  - split; [split; auto | discriminate].
Qed.

Lemma frombuffer_inverse_witness :
  tobytes (vector [F32 Byte.x00 Byte.x00 Byte.x00 Byte.x3f])
  = [Byte.x00; Byte.x00; Byte.x00; Byte.x3f].
Proof.
  destruct (frombuffer_inverse [Byte.x00; Byte.x00; Byte.x00; Byte.x3f])
    as [_ H].
  destruct (H (vector [F32 Byte.x00 Byte.x00 Byte.x00 Byte.x3f]) eq_refl)
    as [T _].
  exact T.
Defined.

End Samples_of_bytes.

(** ** Renormalisation *)

Section Rescaling.

Lemma within_unit_finite (x : float32) : within_unit x -> finite_sample x.
Proof.
  unfold within_unit, finite_sample, in_unit_range, is_finite.
  destruct (f32_val x) as [s|s| |s m e]; try reflexivity.
  - destruct s; cbn; discriminate.
  - cbn. discriminate.
Qed.

(** X21.  Renormalising twice is renormalising once: after the
    division by the largest magnitude no sample of a buffer of finite
    samples exceeds 1.0, so a second pass leaves the buffer alone. *)
Theorem renormalize_idempotent (a : ndarray) :
  Forall finite_sample (data a) ->
  renormalize (renormalize a) = renormalize a.
Proof.
  intros F.
  destruct (abs_max a) as [m|] eqn:Hm.
  2: { assert (renormalize a = a) as R
         by (unfold renormalize; rewrite Hm; reflexivity).
       rewrite R. exact R. }
  destruct (SFltb one32 m) eqn:G.
  2: { assert (renormalize a = a) as R
         by (unfold renormalize; rewrite Hm, G; reflexivity).
       rewrite R. exact R. }
  assert (renormalize a = divide a m) as R
    by (unfold renormalize; rewrite Hm, G; reflexivity).
  rewrite R.
  assert (data a <> []) as N.
  { unfold abs_max in Hm. destruct (data a); [discriminate | discriminate]. }
  destruct (abs_max_finite (data a) N F) as (m' & Hm' & (x & Ix & Ex) & A).
  assert (m' = m) as ->.
  { unfold abs_max, vector in *. cbn [data] in Hm'.
    rewrite Hm in Hm'. injection Hm' as <-. reflexivity. }
  assert (Forall within_unit (data (divide a m))) as W.
  { unfold divide. cbn [data]. apply Forall_map.
    rewrite Forall_forall in *. intros y Iy.
    apply f32_div_within_unit; auto.
    exists x. split; [apply F, Ix | exact Ex]. }
  assert (Forall finite_sample (data (divide a m))) as F2.
  { eapply Forall_impl; [|exact W]. apply within_unit_finite. }
  assert (data (divide a m) <> []) as N2.
  { unfold divide. cbn [data]. destruct (data a); [contradiction|discriminate]. }
  destruct (abs_max_finite _ N2 F2) as (m2 & Hm2 & (y & Iy & Ey) & _).
  unfold renormalize.
  assert (abs_max (divide a m) = Some m2) as ->.
  { unfold abs_max, vector in *. cbn [data] in Hm2. exact Hm2. }
  assert (SFltb one32 m2 = false) as ->; [|reflexivity].
  rewrite Forall_forall in F2, W.
  pose proof (within_unit_magnitude y (F2 y Iy) (W y Iy)) as Le.
  rewrite <- Ey in Le.
  destruct (SFltb one32 m2) eqn:T; [|reflexivity].
  rewrite (SFltb_not_leb _ _ T) in Le. discriminate.
Qed.

Lemma renormalize_idempotent_witness :
  renormalize (renormalize (vector [Samples.two32; Samples.half32]))
  = renormalize (vector [Samples.two32; Samples.half32]).
Proof.
  apply (renormalize_idempotent (vector [Samples.two32; Samples.half32])).
  repeat constructor.
Defined.

End Rescaling.

(** ** A model that returns its input *)

Section Echo.
Local Open Scope string_scope.
Implicit Types (py_str : json -> string) (s : service) (w : world).

Lemma renormalize_within_unit (xs : list float32) :
  Forall within_unit xs -> renormalize (vector xs) = vector xs.
Proof.
  intros W. destruct xs as [|x0 xs0]; [reflexivity|].
  set (xs := x0 :: xs0) in *.
  assert (Forall finite_sample xs) as F.
  { eapply Forall_impl; [|exact W]. apply within_unit_finite. }
  destruct (abs_max_finite xs ltac:(discriminate) F)
    as (m & Hm & (x & Ix & Ex) & _).
  apply (renormalize_unscaled _ m Hm).
  rewrite Forall_forall in F, W.
  pose proof (within_unit_magnitude x (F x Ix) (W x Ix)) as Le.
  rewrite <- Ex in Le.
  destruct (SFltb one32 m) eqn:T; [|reflexivity].
  rewrite (SFltb_not_leb _ _ T) in Le. discriminate.
Qed.

(** X22.  With a model that returns the tensor it is given, a ready
    service echoes the audio: a non-empty buffer of samples in
    [-1, 1] goes through renormalisation, the added batch and channel
    axes, their removal and the length fix unchanged, and the answer
    carries the very base64 text of the request. *)
Theorem identity_model_echoes
        py_str s (m : model_handle) w (xs : list float32) :
  is_initialized s = true -> model s = Some m ->
  xs <> [] -> Forall within_unit xs ->
  infer w m (apply_model s) (to_tensor (vector xs))
  = Returns (to_tensor (vector xs)) ->
  let out := fst (main_step py_str s (process_request (encode_buffer xs) w)) in
  status out = Some (PStr "success")
  /\ lookup "audio" out = Some (PStr (encode_buffer xs))
  /\ lookup "input_samples" out = Some (PInt (Z.of_nat (List.length xs)))
  /\ lookup "output_samples" out = Some (PInt (Z.of_nat (List.length xs))).
Proof.
  intros I M N W Inf. cbv zeta. unfold process_request.
  rewrite (main_step_process py_str s
             [("command", JStr "process"); ("audio", JStr (encode_buffer xs))]
             w eq_refl).
  unfold handle_process.
  change (json_get "audio" _) with (JStr (encode_buffer xs)).
  pose proof (decode_encode_buffer xs) as D. unfold decode_buffer in D.
  assert (size (vector xs) <> 0%nat) as Sz.
  { destruct xs; [contradiction | discriminate]. }
  rewrite (decode_audio_nonempty _ _ D Sz), D. cbn [negb].
  unfold process_audio. rewrite I, M.
  apply Nat.eqb_neq in Sz. rewrite Sz.
  rewrite (renormalize_within_unit xs W).
  unfold denoise. rewrite Inf.
  assert (from_tensor (to_tensor (vector xs)) = vector xs) as ->.
  { apply from_tensor_mono. split; [reflexivity|]. right. right. reflexivity. }
  unfold match_length. cbn [np_len vector shape]. rewrite Nat.eqb_refl.
  cbn [fst snd encode_result processed lookup].
  cbn [String.eqb Ascii.eqb Bool.eqb dict_set]. cbn [json_serializable].
  cbn [forallb snd andb fst lookup String.eqb Ascii.eqb Bool.eqb].
  repeat split.
Qed.

Lemma identity_model_echoes_witness :
  lookup "audio"
         (fst (main_step Samples.str0 Samples.ready
                 (process_request (encode_buffer [Samples.half32])
                                  (Samples.calm 2))))
  = Some (PStr (encode_buffer [Samples.half32])).
Proof.
  apply (identity_model_echoes Samples.str0 Samples.ready Samples.dns64
           (Samples.calm 2) [Samples.half32]);
    try reflexivity; [discriminate | repeat constructor].
Defined.

End Echo.
